(** * SurTech prediction-market platform: pricing transform, portfolio ledger
      and live market simulator

A shallow embedding of
  - [src/pricing/price-logic.py]: [price_logic_compute_option_prices_from_df];
  - [src/portfolio-logic/portfolio-classes.py]: modules [Trade], [Position]
    and [PortfolioManager], the ledger's copy of the pricing transform,
    [compute_option_prices_from_df], and, in module [Accounts], the methods
    that create, load and clear the accounts and [get_market_summary];
  - [src/trading_platform/src/data_generation/live_simulator.py]: modules
    [LiveMarketSimulator], [SimulatorQueries] (the methods that only read
    the simulator) and [PortfolioIntegrator];
followed by the vocabulary of the specification's properties and by the
facts proved about the embedding.

Numbers.  Python [int] is [Z].  Python [float] is modelled by exact
rationals [Q] in the ledger and the simulator, which keeps [int(...)],
[round(..., n)], [max] and [min] executable; rounding error of binary
floating point and NaN inputs are not modelled there.  The pricing
transform is written once over an abstract carrier ([float_ops]) and
instantiated at [Q] (ledger), at [R] with the real exponential, and at
[option R] where [None] stands for NaN.

Where the exact model and the floating-point program part.  Every
operation of the code is kept as the code writes it, operand by operand,
so a fact stated with [=] between a field and the code's expression for it
does not depend on the arithmetic; a fact stated with [==], or an order
between two computed numbers, is a fact of exact arithmetic unless its text
says otherwise.  The places where the two are known to part are:
[(cash - total) + total] in the rollback of a trade, which is [cash] here
and can be one rounding away from it in floating point; [1 - (1 - yes)] in
the ask of a quote, which is [yes] here; the running sums of a portfolio
snapshot, which are associative here; [round(x, n)], which rounds the
rational [x] here and the nearest binary float in Python (a decimal tie
such as 50.035 goes to 50.04 here and to 50.03 there); and
[int(total_points * threshold_percentage)], computed on the exact product
here (29 for 100 and 0.29, where the floating-point product truncates to
28).

Effects.  Methods pass the object's state explicitly and return it with
their result; a call that can raise returns a [result].  Random draws,
fresh identifiers, the clock and the outcome of database writes are
explicit inputs, and so is what a method reads from the database.
Printing, the CSV file and the subscriber callbacks of the simulator do not
touch the simulator's fields and are left out of its model; the callback of
[PortfolioIntegrator] is modelled with the integrator. *)

From Stdlib Require Import String ZArith QArith Qround Qabs List Bool Lia.
From Stdlib Require Reals Lra Lqa.
Import ListNotations.

Set Implicit Arguments.

(* ================================================================== *)
(** * Python numerics over [Q] *)
(* ================================================================== *)

Module PyNum.
Local Open Scope Q_scope.

Definition Qltb (a b : Q) : bool := negb (Qle_bool b a).
Definition Qleb (a b : Q) : bool := Qle_bool a b.
Definition Qeqb (a b : Q) : bool := Qeq_bool a b.

(** [max(a, b)] and [min(a, b)]: the first argument wins ties. *)
Definition py_max (a b : Q) : Q := if Qltb a b then b else a.
Definition py_min (a b : Q) : Q := if Qltb b a then b else a.

(** [int(x)] on a float: truncation toward zero. *)
Definition py_int (x : Q) : Z := Z.quot (Qnum x) (Zpos (Qden x)).

(** [abs(x)]. *)
Definition py_abs (x : Q) : Q := Qabs x.

(** Nearest integer, ties to the even one. *)
Definition round_half_even (x : Q) : Z :=
  let f := Qfloor x in
  match Qcompare (x - inject_Z f) (1 # 2) with
  | Lt => f
  | Gt => (f + 1)%Z
  | Eq => if Z.even f then f else (f + 1)%Z
  end.

(** [round(x, ndigits)], on the rational [x]: ties go to the even
    neighbour.  Python rounds the binary float nearest to [x], which for a
    decimal tie lies on one side of it. *)
Definition py_round (x : Q) (ndigits : nat) : Q :=
  let scale := inject_Z (10 ^ Z.of_nat ndigits) in
  inject_Z (round_half_even (x * scale)) / scale.

(** Python's [sum(...)]: a left fold from the integer 0. *)
Definition py_sum (l : list Q) : Q := fold_left Qplus l 0.
Definition py_sum_Z (l : list Z) : Z := fold_left Z.add l 0%Z.
End PyNum.

(* ================================================================== *)
(** * The pricing transform *)
(* ================================================================== *)

(** The arithmetic the transform uses, over a carrier [F] for [float]. *)
Record float_ops (F : Type) : Type := {
  f_of_Z : Z -> F;
  f_add : F -> F -> F;
  f_sub : F -> F -> F;
  f_mul : F -> F -> F;
  f_div : F -> F -> F;
  f_opp : F -> F;
  f_exp : F -> F            (* np.exp *)
}.

(** A row of the probability frame: the [yes_price] and [no_price] columns. *)
Record prob_row (F : Type) : Type := {
  yes_price : F;
  no_price : F
}.

(** A row of the returned frame. *)
Record priced_row (F : Type) : Type := {
  pr_yes_price : F;
  pr_no_price : F;
  t_index : Z;
  decay_multiplier : F;
  option_bid : F;
  option_ask : F
}.

Section PricingTransform.
Variable F : Type.
Variable O : float_ops F.

Local Notation "x +! y" := (f_add O x y) (at level 50, left associativity).
Local Notation "x -! y" := (f_sub O x y) (at level 50, left associativity).
Local Notation "x *! y" := (f_mul O x y) (at level 40, left associativity).
Local Notation "x /! y" := (f_div O x y) (at level 40, left associativity).
Local Notation "'#' z" := (f_of_Z O z) (at level 9, z at level 9).

(** [df['t_index'] = range(len(df))]. *)
Definition range_len (A : Type) (df : list A) : list Z :=
  map Z.of_nat (seq 0 (List.length df)).

(** The two product columns, shared by both versions of the transform. *)
Definition price_row (strike_price : F) (r : prob_row F) (t : Z) (d : F)
  : priced_row F :=
  {| pr_yes_price := yes_price r;
     pr_no_price := no_price r;
     t_index := t;
     decay_multiplier := d;
     option_bid := yes_price r *! (#1 -! strike_price) *! d;
     option_ask := (#1 -! no_price r) *! (#1 -! strike_price) *! d |}.

Fixpoint zip_rows (strike_price : F) (df : list (prob_row F))
         (ts : list Z) (ds : list F) : list (priced_row F) :=
  match df, ts, ds with
  | r :: df', t :: ts', d :: ds' =>
      price_row strike_price r t d :: zip_rows strike_price df' ts' ds'
  | _, _, _ => []
  end.

(** [np.exp(-decay_rate * (df['t_index'].to_numpy() / T))]. *)
Definition decay_column (decay_rate : F) (ts : list Z) (T : Z) : list F :=
  map (fun t => f_exp O (f_opp O decay_rate *! (#t /! #T))) ts.

(** [price-logic.py], [compute_option_prices_from_df]: the stand-alone
    transform.  [T = len(df) - 1] divides every index, also when it is 0. *)
Definition price_logic_compute_option_prices_from_df
           (df : list (prob_row F)) (strike_price decay_rate : F)
  : list (priced_row F) :=
  let T := (Z.of_nat (List.length df) - 1)%Z in
  let ts := range_len df in
  let decay := decay_column decay_rate ts T in
  zip_rows strike_price df ts decay.

(** [portfolio-classes.py], [PortfolioManager.compute_option_prices_from_df]:
    the ledger's copy, "modified to handle single-row DataFrames". *)
Definition compute_option_prices_from_df
           (df : list (prob_row F)) (strike_price decay_rate : F)
  : list (priced_row F) :=
  let T := (Z.of_nat (List.length df) - 1)%Z in
  let ts := range_len df in
  let decay :=
    if (T =? 0)%Z
    then map (fun _ => #1) ts            (* df['decay_multiplier'] = 1.0 *)
    else decay_column decay_rate ts T in
  zip_rows strike_price df ts decay.

End PricingTransform.

(** ** The carriers *)

(** Exact rationals; [np.exp] is not rational-valued and stays a parameter.
    The ledger only prices one-row frames, on which it is never called. *)
Definition Q_ops (np_exp : Q -> Q) : float_ops Q :=
  {| f_of_Z := inject_Z;
     f_add := Qplus; f_sub := Qminus; f_mul := Qmult; f_div := Qdiv;
     f_opp := Qopp; f_exp := np_exp |}.

Module RealCarrier.
Import Reals.
Local Open Scope R_scope.

(** Real numbers with the real exponential. *)
Definition R_ops : float_ops R :=
  {| f_of_Z := IZR;
     f_add := Rplus; f_sub := Rminus; f_mul := Rmult; f_div := Rdiv;
     f_opp := Ropp; f_exp := exp |}.

(** Real numbers with NaN ([None]).  NaN propagates through every
    operation; 0/0 is NaN, as numpy computes it.  A nonzero numerator over
    0 would be an infinity, which the transform never forms: [T] is 0 only
    for a one-row frame, whose single index is 0. *)
Definition nan_lift2 (f : R -> R -> R) (a b : option R) : option R :=
  match a, b with
  | Some x, Some y => Some (f x y)
  | _, _ => None
  end.

Definition nan_div (a b : option R) : option R :=
  match a, b with
  | Some x, Some y => if Req_dec_T y 0 then None else Some (x / y)
  | _, _ => None
  end.

Definition NaN_ops : float_ops (option R) :=
  {| f_of_Z := fun z => Some (IZR z);
     f_add := nan_lift2 Rplus; f_sub := nan_lift2 Rminus;
     f_mul := nan_lift2 Rmult; f_div := nan_div;
     f_opp := option_map Ropp; f_exp := option_map exp |}.
End RealCarrier.

(* ================================================================== *)
(** * Exceptions and dictionaries *)
(* ================================================================== *)

(** The exceptions the modelled code can raise. *)
Inductive exn : Type :=
| ValueError (msg : string)
| KeyError
| IndexError
| ZeroDivisionError.

(** A call either returns or raises. *)
Inductive result (A : Type) : Type :=
| Return (a : A)
| Raise (e : exn).
Arguments Return {A} a.
Arguments Raise {A} e.

Definition bind (A B : Type) (m : result A) (k : A -> result B) : result B :=
  match m with
  | Return a => k a
  | Raise e => Raise e
  end.

Declare Scope result_scope.
Delimit Scope result_scope with result.
Notation "x <- m ;; k" := (bind m (fun x => k))
  (at level 61, m at next level, right associativity) : result_scope.

(** A Python [dict] as an association list in insertion order, keys compared
    with [eqb].  Assigning to a present key keeps its place (and the key
    object); assigning to an absent key appends. *)
Section Dict.
Variables K V : Type.
Variable eqb : K -> K -> bool.

Fixpoint dict_get (d : list (K * V)) (k : K) : option V :=
  match d with
  | [] => None
  | (k', v) :: d' => if eqb k' k then Some v else dict_get d' k
  end.

Definition dict_mem (d : list (K * V)) (k : K) : bool :=
  match dict_get d k with Some _ => true | None => false end.

Fixpoint dict_set (d : list (K * V)) (k : K) (v : V) : list (K * V) :=
  match d with
  | [] => [(k, v)]
  | (k', v') :: d' =>
      if eqb k' k then (k', v) :: d' else (k', v') :: dict_set d' k v
  end.

Definition dict_keys (d : list (K * V)) : list K := map fst d.
Definition dict_values (d : list (K * V)) : list V := map snd d.
End Dict.

(* ================================================================== *)
(** * The portfolio ledger ([portfolio-classes.py]) *)
(* ================================================================== *)

Inductive TradeType : Type := BUY | SELL.

Inductive PositionStatus : Type := OPEN | CLOSED | SETTLED.

Definition PositionStatus_eqb (a b : PositionStatus) : bool :=
  match a, b with
  | OPEN, OPEN | CLOSED, CLOSED | SETTLED, SETTLED => true
  | _, _ => false
  end.

(** [class Trade]. *)
Module Trade.
Record t : Type := {
  trade_id : string;
  user_id : string;
  timestamp : Z;
  trade_type : TradeType;
  strike_price : Q;
  quantity : Z;
  price_per_contract : Q;
  total_cost : Q;
  market_price_at_trade : Q
}.
End Trade.

(** [class Position]. *)
Module Position.
Import PyNum.
Local Open Scope Q_scope.

Record t : Type := {
  user_id : string;
  strike_price : Q;
  quantity : Z;
  total_cost_basis : Q;
  trades : list Trade.t;
  status : PositionStatus;
  settlement_value : Q
}.

(** [__init__]. *)
Definition init (user_id : string) (strike_price : Q) : t :=
  {| user_id := user_id;
     strike_price := strike_price;
     quantity := 0;
     total_cost_basis := 0;
     trades := [];
     status := OPEN;
     settlement_value := 0 |}.

Definition add_trade (self : t) (trade : Trade.t) : t :=
  let trades' := trades self ++ [trade] in
  match Trade.trade_type trade with
  | BUY =>
      {| user_id := user_id self;
         strike_price := strike_price self;
         quantity := (quantity self + Trade.quantity trade)%Z;
         total_cost_basis := total_cost_basis self + Trade.total_cost trade;
         trades := trades';
         status := status self;
         settlement_value := settlement_value self |}
  | SELL =>
      {| user_id := user_id self;
         strike_price := strike_price self;
         quantity := (quantity self - Trade.quantity trade)%Z;
         total_cost_basis := total_cost_basis self - Trade.total_cost trade;
         trades := trades';
         status := status self;
         settlement_value := settlement_value self |}
  end.

Definition get_average_cost_per_contract (self : t) : Q :=
  if (quantity self =? 0)%Z then 0
  else total_cost_basis self / inject_Z (Z.abs (quantity self)).

Definition calculate_unrealized_pnl (self : t) (current_option_price : Q) : Q :=
  if negb (PositionStatus_eqb (status self) OPEN) then 0
  else
    let current_market_value := inject_Z (quantity self) * current_option_price in
    current_market_value - total_cost_basis self.

(** Returns the settlement value and the position after the call. *)
Definition settle_position (self : t) (final_market_price strike_price : Q)
  : Q * t :=
  if negb (PositionStatus_eqb (status self) OPEN) then
    (settlement_value self, self)
  else
    let final_price_decimal := final_market_price / 100 in
    let option_payoff := py_max (final_price_decimal - strike_price) 0 in
    let sv := inject_Z (quantity self) * option_payoff in
    (sv,
     {| user_id := user_id self;
        strike_price := Position.strike_price self;
        quantity := quantity self;
        total_cost_basis := total_cost_basis self;
        trades := trades self;
        status := SETTLED;
        settlement_value := sv |}).
End Position.

(** [class PortfolioManager]. *)
Module PortfolioManager.
Import PyNum.
Local Open Scope Q_scope.
Local Open Scope result_scope.

(** The per-user [dict] held in [self.users]. *)
Record User : Type := {
  username : string;
  starting_cash : Q;
  current_cash : Q;
  total_realized_pnl : Q
}.

Definition set_current_cash (u : User) (c : Q) : User :=
  {| username := username u;
     starting_cash := starting_cash u;
     current_cash := c;
     total_realized_pnl := total_realized_pnl u |}.

Definition set_total_realized_pnl (u : User) (v : Q) : User :=
  {| username := username u;
     starting_cash := starting_cash u;
     current_cash := current_cash u;
     total_realized_pnl := v |}.

(** A row of [self.current_option_prices]. *)
Record quote : Type := {
  strike : Q;
  bid : Q;
  ask : Q;
  mid : Q
}.

(** The [side] argument of [get_option_price]: a column of the quote
    frame. *)
Inductive side : Type := Bid | Ask | Mid.

Definition column (sd : side) (r : quote) : Q :=
  match sd with
  | Bid => bid r
  | Ask => ask r
  | Mid => mid r
  end.

Definition book : Type := list (Q * Position.t).

(** The in-memory state.  Only the [price] column of the market frame is
    read, so the frame is the list of its prices. *)
Record t : Type := {
  users : list (string * User);
  positions : list (string * book);
  current_market_data : option (list Q);
  current_option_prices : option (list quote);
  market_resolved : bool;
  final_market_price : option Q
}.

Definition set_users (s : t) (us : list (string * User)) : t :=
  {| users := us;
     positions := positions s;
     current_market_data := current_market_data s;
     current_option_prices := current_option_prices s;
     market_resolved := market_resolved s;
     final_market_price := final_market_price s |}.

Definition set_positions (s : t) (ps : list (string * book)) : t :=
  {| users := users s;
     positions := ps;
     current_market_data := current_market_data s;
     current_option_prices := current_option_prices s;
     market_resolved := market_resolved s;
     final_market_price := final_market_price s |}.

Definition users_get (s : t) (user_id : string) : option User :=
  dict_get String.eqb (users s) user_id.

Definition positions_get (s : t) (user_id : string) : option book :=
  dict_get String.eqb (positions s) user_id.

Definition book_get (b : book) (strike_price : Q) : option Position.t :=
  dict_get Qeqb b strike_price.

(** [self.users[user_id]['current_cash'] = c]. *)
Definition write_cash (s : t) (user_id : string) (c : Q) : t :=
  match users_get s user_id with
  | Some u => set_users s (dict_set String.eqb (users s) user_id (set_current_cash u c))
  | None => s
  end.

(** [self.positions[user_id][strike_price] = p]. *)
Definition write_position (s : t) (user_id : string) (strike_price : Q)
           (p : Position.t) : t :=
  match positions_get s user_id with
  | Some b =>
      set_positions s
        (dict_set String.eqb (positions s) user_id (dict_set Qeqb b strike_price p))
  | None => s
  end.

(** [.iloc[-1]] and [.iloc[0]] of a column. *)
Definition iloc_last (A : Type) (col : list A) : result A :=
  match rev col with
  | x :: _ => Return x
  | [] => Raise IndexError
  end.

Definition iloc_first (A : Type) (col : list A) : result A :=
  match col with
  | x :: _ => Return x
  | [] => Raise IndexError
  end.

(** The strikes quoted by [update_market_data]. *)
Definition strikes : list Q := [0.3; 0.4; 0.5; 0.6; 0.7; 0.8].

Section Pricing.
(** [np.exp] on the rational carrier (see [Q_ops]). *)
Variable np_exp : Q -> Q.

(** The method [compute_option_prices_from_df], with its default
    [decay_rate = 1.5]. *)
Definition compute_option_prices_from_df (df : list (prob_row Q))
           (strike_price : Q) : list (priced_row Q) :=
  compute_option_prices_from_df (Q_ops np_exp) df strike_price 1.5.

(** One pass of the loop over [strikes]. *)
Definition quote_strike (pricing_df : list (prob_row Q)) (strike : Q)
  : result quote :=
  let option_df := compute_option_prices_from_df pricing_df strike in
  bid_price <- iloc_first (map (@option_bid Q) option_df) ;;
  ask_price <- iloc_first (map (@option_ask Q) option_df) ;;
  Return {| strike := strike;
            bid := bid_price;
            ask := ask_price;
            mid := (bid_price + ask_price) / 2 |}.

Fixpoint quote_strikes (pricing_df : list (prob_row Q)) (ks : list Q)
  : result (list quote) :=
  match ks with
  | [] => Return []
  | k :: ks' =>
      q <- quote_strike pricing_df k ;;
      qs <- quote_strikes pricing_df ks' ;;
      Return (q :: qs)
  end.

Definition update_market_data (self : t) (market_df : list Q)
  : result unit * t :=
  let self1 :=
    {| users := users self;
       positions := positions self;
       current_market_data := Some market_df;
       current_option_prices := current_option_prices self;
       market_resolved := market_resolved self;
       final_market_price := final_market_price self |} in
  match iloc_last market_df with
  | Raise e => (Raise e, self1)
  | Return latest_price =>
      let yes_prob := latest_price / 100 in
      let no_prob := 1 - yes_prob in
      let pricing_df := [ {| yes_price := yes_prob; no_price := no_prob |} ] in
      match quote_strikes pricing_df strikes with
      | Raise e => (Raise e, self1)
      | Return option_data =>
          (Return tt,
           {| users := users self1;
              positions := positions self1;
              current_market_data := current_market_data self1;
              current_option_prices := Some option_data;
              market_resolved := market_resolved self1;
              final_market_price := final_market_price self1 |})
      end
  end.
End Pricing.

(** [get_option_price].  Over [Q] a stored price is never NaN, so the
    fallback branch of the source is not reached and is left out. *)
Definition get_option_price (self : t) (strike_price : Q) (sd : side)
  : result Q :=
  match current_option_prices self with
  | None =>
      Raise (ValueError "No market data available. Call update_market_data() first.")
  | Some table =>
      match current_market_data self with
      | None => Raise (ValueError "No market data available for price calculation.")
      | Some _ =>
          match filter (fun r => Qeqb (strike r) strike_price) table with
          | [] => Raise (ValueError "Strike price not available")
          | r :: _ => Return (column sd r)
          end
      end
  end.

Definition calculate_position_limit (self : t) (user_id : string)
           (strike_price : Q) : result Z :=
  match users_get self user_id with
  | None => Raise KeyError
  | Some u =>
      let user_cash := current_cash u in
      option_ask <- get_option_price self strike_price Ask ;;
      let max_by_cash :=
        if Qltb 0 option_ask then py_int ((user_cash * 0.2) / option_ask)
        else 0%Z in
      let base_liquidity := 10%Z in
      Return (Z.max base_liquidity max_by_cash)
  end.

(** The [(success, message)] pairs [execute_trade] returns.  The formatted
    numbers of the source messages are kept as arguments. *)
Inductive message : Type :=
| UserNotFound
| MarketAlreadyResolved
| QuantityMustBePositive
| NoMarketDataForTrading
| ErrorCalculatingPositionLimit (e : exn)
| WouldExceedPositionLimit (position_limit : Z)
| InsufficientCash (need have : Q)
| CannotSell (quantity own : Z)
| ErrorGettingOptionPrice (e : exn)
| InvalidOptionPrice (price_per_contract : Q)
| NoMarketDataForExecution
| DatabaseError (e : string)
| TradeExecutedSuccessfully.

(** What a call of [execute_trade] takes from outside the ledger:
    [uuid.uuid4()], [datetime.now()], and the exception raised by
    [_save_trade_to_db] or [_update_user_cash_in_db], if one is. *)
Record env : Type := {
  uuid4 : string;
  now : Z;
  db_exception : option string
}.

(** [self.users[user_id]['current_cash'] = f(...)]. *)
Definition update_cash (s : t) (user_id : string) (f : Q -> Q) : t :=
  match users_get s user_id with
  | Some u => write_cash s user_id (f (current_cash u))
  | None => s
  end.

(** An in-place update of [self.positions[user_id][strike_price]]. *)
Definition update_position (s : t) (user_id : string) (strike_price : Q)
           (f : Position.t -> Position.t) : t :=
  match positions_get s user_id with
  | Some b =>
      match book_get b strike_price with
      | Some p => write_position s user_id strike_price (f p)
      | None => s
      end
  | None => s
  end.

(** The outcome of the [try] block that prices the trade. *)
Inductive priced : Type :=
| Priced (price_per_contract total_cost : Q)
| Rejected (m : message).

Definition price_trade (self : t) (user : User) (current_position : Position.t)
           (strike_price : Q) (quantity : Z) (trade_type : TradeType) : priced :=
  match trade_type with
  | BUY =>
      match get_option_price self strike_price Ask with
      | Raise e => Rejected (ErrorGettingOptionPrice e)
      | Return price_per_contract =>
          let total_cost := inject_Z quantity * price_per_contract in
          if Qltb (current_cash user) total_cost
          then Rejected (InsufficientCash total_cost (current_cash user))
          else Priced price_per_contract total_cost
      end
  | SELL =>
      match get_option_price self strike_price Bid with
      | Raise e => Rejected (ErrorGettingOptionPrice e)
      | Return price_per_contract =>
          let total_cost := inject_Z quantity * price_per_contract in
          if (Position.quantity current_position <? quantity)%Z
          then Rejected (CannotSell quantity (Position.quantity current_position))
          else Priced price_per_contract total_cost
      end
  end.

(** [t.quantity if t.trade_type == TradeType.BUY else -t.quantity]. *)
Definition signed_quantity (tr : Trade.t) : Z :=
  match Trade.trade_type tr with
  | BUY => Trade.quantity tr
  | SELL => (- Trade.quantity tr)%Z
  end.

(** The rollback of the position in the [except] branch. *)
Definition rollback_position (p : Position.t) : Position.t :=
  if (0 <? List.length (Position.trades p))%nat then
    let trades' := removelast (Position.trades p) in       (* trades.pop() *)
    {| Position.user_id := Position.user_id p;
       Position.strike_price := Position.strike_price p;
       Position.quantity := py_sum_Z (map signed_quantity trades');
       Position.total_cost_basis := py_sum (map Trade.total_cost trades');
       Position.trades := trades';
       Position.status := Position.status p;
       Position.settlement_value := Position.settlement_value p |}
  else p.

(** The two updates of an accepted trade, "Update user's cash" and
    "Update position"; [bk] is [self.positions[user_id]]. *)
Definition apply_trade (self : t) (user_id : string) (strike_price : Q)
           (bk : book) (trade_type : TradeType) (total_cost : Q)
           (trade : Trade.t) : t :=
  let self1 :=
    match trade_type with
    | BUY => update_cash self user_id (fun c => c - total_cost)
    | SELL => update_cash self user_id (fun c => c + total_cost)
    end in
  let self2 :=
    if dict_mem Qeqb bk strike_price then self1
    else write_position self1 user_id strike_price
           (Position.init user_id strike_price) in
  update_position self2 user_id strike_price
    (fun p => Position.add_trade p trade).

(** The [except] branch: "Rollback the in-memory changes if database save
    fails". *)
Definition rollback_trade (self : t) (user_id : string) (strike_price : Q)
           (trade_type : TradeType) (total_cost : Q) : t :=
  let self1 :=
    match trade_type with
    | BUY => update_cash self user_id (fun c => c + total_cost)
    | SELL => update_cash self user_id (fun c => c - total_cost)
    end in
  update_position self1 user_id strike_price rollback_position.

(** [self.positions[user_id].get(strike_price, Position(user_id,
    strike_price))]. *)
Definition book_get_default (bk : book) (user_id : string) (strike_price : Q)
  : Position.t :=
  match book_get bk strike_price with
  | Some p => p
  | None => Position.init user_id strike_price
  end.

Definition execute_trade (self : t) (user_id : string) (strike_price : Q)
           (quantity : Z) (trade_type : TradeType) (e : env)
  : result (bool * message) * t :=
  match users_get self user_id with
  | None => (Return (false, UserNotFound), self)
  | Some user =>
  if market_resolved self then (Return (false, MarketAlreadyResolved), self) else
  if (quantity <=? 0)%Z then (Return (false, QuantityMustBePositive), self) else
  match current_option_prices self with
  | None => (Return (false, NoMarketDataForTrading), self)
  | Some _ =>
  match calculate_position_limit self user_id strike_price with
  | Raise ex => (Return (false, ErrorCalculatingPositionLimit ex), self)
  | Return position_limit =>
  match positions_get self user_id with
  | None => (Raise KeyError, self)
  | Some bk =>
  let current_position := book_get_default bk user_id strike_price in
  if match trade_type with BUY => true | SELL => false end
     && (Position.quantity current_position + quantity >? position_limit)%Z
  then (Return (false, WouldExceedPositionLimit position_limit), self) else
  match price_trade self user current_position strike_price quantity trade_type with
  | Rejected m => (Return (false, m), self)
  | Priced price_per_contract total_cost =>
  if Qleb price_per_contract 0
  then (Return (false, InvalidOptionPrice price_per_contract), self) else
  match current_market_data self with
  | None => (Return (false, NoMarketDataForExecution), self)
  | Some md =>
  match iloc_last md with
  | Raise ex => (Raise ex, self)
  | Return current_market_price =>
  let trade :=
    {| Trade.trade_id := uuid4 e;
       Trade.user_id := user_id;
       Trade.timestamp := now e;
       Trade.trade_type := trade_type;
       Trade.strike_price := strike_price;
       Trade.quantity := quantity;
       Trade.price_per_contract := price_per_contract;
       Trade.total_cost :=
         match trade_type with BUY => total_cost | SELL => - total_cost end;
       Trade.market_price_at_trade := current_market_price |} in
  let self' :=
    apply_trade self user_id strike_price bk trade_type total_cost trade in
  (* Save to database with error handling *)
  match db_exception e with
  | None => (Return (true, TradeExecutedSuccessfully), self')
  | Some err =>
      (Return (false, DatabaseError err),
       rollback_trade self' user_id strike_price trade_type total_cost)
  end
  end end end end end end end.

(** A session on the ledger: market updates and trade requests, in any
    order. *)
Section Session.
Variable np_exp : Q -> Q.

Inductive request : Type :=
| UpdateMarket (market_df : list Q)
| ExecuteTrade (user_id : string) (strike_price : Q) (quantity : Z)
               (trade_type : TradeType) (e : env).

Definition serve (self : t) (r : request) : t :=
  match r with
  | UpdateMarket market_df => snd (update_market_data np_exp self market_df)
  | ExecuteTrade user_id strike_price quantity trade_type e =>
      snd (execute_trade self user_id strike_price quantity trade_type e)
  end.

Definition session (rs : list request) (self : t) : t :=
  fold_left serve rs self.
End Session.

(** An entry of the [positions] list of a portfolio snapshot. *)
Record position_summary : Type := {
  ps_strike : Q;
  ps_quantity : Z;
  ps_avg_cost : Q;
  ps_current_price : Q;
  ps_position_value : Q;
  ps_unrealized_pnl : Q;
  ps_total_cost_basis : Q
}.

(** The [dict] returned by [get_user_portfolio]. *)
Record portfolio : Type := {
  pf_user_info : User;
  pf_cash : Q;
  pf_total_position_value : Q;
  pf_total_portfolio_value : Q;
  pf_total_unrealized_pnl : Q;
  pf_total_realized_pnl : Q;
  pf_total_pnl : Q;
  pf_positions : list position_summary
}.

(** The loop over [self.positions[user_id].items()], threading
    [positions_summary], [total_unrealized_pnl] and
    [total_position_value]. *)
Fixpoint summarize (self : t) (items : book)
         (positions_summary : list position_summary)
         (total_unrealized_pnl total_position_value : Q)
  : result (list position_summary * Q * Q) :=
  match items with
  | [] => Return (positions_summary, total_unrealized_pnl, total_position_value)
  | (strike, position) :: items' =>
      if negb (Position.quantity position =? 0)%Z then
        current_price <- get_option_price self strike Mid ;;
        let unrealized_pnl := Position.calculate_unrealized_pnl position current_price in
        let position_value := inject_Z (Position.quantity position) * current_price in
        summarize self items'
          (positions_summary ++
             [ {| ps_strike := strike;
                  ps_quantity := Position.quantity position;
                  ps_avg_cost := Position.get_average_cost_per_contract position;
                  ps_current_price := current_price;
                  ps_position_value := position_value;
                  ps_unrealized_pnl := unrealized_pnl;
                  ps_total_cost_basis := Position.total_cost_basis position |} ])
          (total_unrealized_pnl + unrealized_pnl)
          (total_position_value + position_value)
      else
        summarize self items' positions_summary total_unrealized_pnl
          total_position_value
  end.

(** [get_user_portfolio]; [None] is the empty [dict] returned for an
    unknown user. *)
Definition get_user_portfolio (self : t) (user_id : string)
  : result (option portfolio) :=
  match users_get self user_id with
  | None => Return None
  | Some user_data =>
      match positions_get self user_id with
      | None => Raise KeyError
      | Some items =>
          r <- summarize self items [] 0 0 ;;
          let '(positions_summary, total_unrealized_pnl, total_position_value) := r in
          Return (Some
            {| pf_user_info := user_data;
               pf_cash := current_cash user_data;
               pf_total_position_value := total_position_value;
               pf_total_portfolio_value := current_cash user_data + total_position_value;
               pf_total_unrealized_pnl := total_unrealized_pnl;
               pf_total_realized_pnl := total_realized_pnl user_data;
               pf_total_pnl := total_unrealized_pnl + total_realized_pnl user_data;
               pf_positions := positions_summary |})
      end
  end.

(** [self.market_resolved = True; self.final_market_price = p]. *)
Definition set_resolved (s : t) (p : Q) : t :=
  {| users := users s;
     positions := positions s;
     current_market_data := current_market_data s;
     current_option_prices := current_option_prices s;
     market_resolved := true;
     final_market_price := Some p |}.

(** The inner loop of [resolve_market] over one user's positions: the
    positions after the loop and the user's cash after it. *)
Fixpoint settle_book (final_market_price : Q) (items : book) (cash : Q)
  : book * Q :=
  match items with
  | [] => ([], cash)
  | (strike, position) :: items' =>
      if negb (Position.quantity position =? 0)%Z then
        let (settlement_value, position') :=
          Position.settle_position position final_market_price strike in
        let (rest, cash') :=
          settle_book final_market_price items' (cash + settlement_value) in
        ((strike, position') :: rest, cash')
      else
        let (rest, cash') := settle_book final_market_price items' cash in
        ((strike, position) :: rest, cash')
  end.

(** The outer loop of [resolve_market], over the keys of [self.users]. *)
Fixpoint resolve_users (final_market_price : Q) (user_ids : list string)
         (self : t) : result unit * t :=
  match user_ids with
  | [] => (Return tt, self)
  | user_id :: user_ids' =>
      match positions_get self user_id, users_get self user_id with
      | Some items, Some user =>
          let (items', cash) :=
            settle_book final_market_price items (current_cash user) in
          let final_portfolio_value := cash in
          let total_realized_pnl := final_portfolio_value - starting_cash user in
          let user' :=
            set_total_realized_pnl (set_current_cash user cash) total_realized_pnl in
          let self' :=
            set_users
              (set_positions self
                 (dict_set String.eqb (positions self) user_id items'))
              (dict_set String.eqb (users self) user_id user') in
          resolve_users final_market_price user_ids' self'
      | _, _ => (Raise KeyError, self)
      end
  end.

(** [resolve_market]; the write of [_update_user_cash_in_db] is taken to
    succeed. *)
Definition resolve_market (self : t) (final_market_price : Q)
  : result unit * t :=
  let self1 := set_resolved self final_market_price in
  resolve_users final_market_price (dict_keys (users self1)) self1.
End PortfolioManager.

(** [class PortfolioManager], the methods that create, load and clear the
    accounts, and [get_market_summary].  What a method reads from the
    SQLite database is an argument of its model; its writes to the database
    are taken to succeed and leave the in-memory state alone. *)
Module Accounts.
Import PyNum PortfolioManager.
Local Open Scope Q_scope.
Local Open Scope result_scope.

(** A row of the [users] table, in the columns the code reads. *)
Record user_row : Type := {
  row_user_id : string;
  row_username : string;
  row_starting_cash : Q;
  row_current_cash : Q;
  row_total_realized_pnl : Q
}.

(** What [load_user_from_db] reads for one user id: the row of the user,
    if there is one, and the rows of the user's trades ordered by
    timestamp, each as the [Trade] object the loop rebuilds from it. *)
Record stored_user : Type := {
  user_result : option user_row;
  trades : list Trade.t
}.

(** The fields as [__init__] sets them before it loads the users. *)
Definition empty : t :=
  {| users := [];
     positions := [];
     current_market_data := None;
     current_option_prices := None;
     market_resolved := false;
     final_market_price := None |}.

Definition user_of_row (r : user_row) : User :=
  {| username := row_username r;
     starting_cash := row_starting_cash r;
     current_cash := row_current_cash r;
     total_realized_pnl := row_total_realized_pnl r |}.

(** One pass of the loop of [load_user_from_db] over the trade rows; [bk] is
    [self.positions[user_id]]. *)
Definition replay_trade (user_id : string) (bk : book) (trade : Trade.t)
  : book :=
  let strike_price := Trade.strike_price trade in
  let bk1 :=
    if dict_mem Qeqb bk strike_price then bk
    else dict_set Qeqb bk strike_price (Position.init user_id strike_price) in
  match book_get bk1 strike_price with
  | Some p => dict_set Qeqb bk1 strike_price (Position.add_trade p trade)
  | None => bk1
  end.

(** [load_user_from_db]: the value returned and the state after the call. *)
Definition load_user_from_db (self : t) (user_id : string) (db : stored_user)
  : bool * t :=
  match user_result db with
  | None => (false, self)
  | Some r =>
      let self1 :=
        set_users self (dict_set String.eqb (users self) user_id (user_of_row r)) in
      let bk := fold_left (replay_trade user_id) (trades db) [] in
      (true,
       set_positions self1 (dict_set String.eqb (positions self1) user_id bk))
  end.

(** [_load_all_users_from_db]: the user ids the database holds, each with
    what [load_user_from_db] reads for it. *)
Definition load_all_users_from_db (self : t)
           (stored : list (string * stored_user)) : t :=
  fold_left (fun s r => snd (load_user_from_db s (fst r) (snd r))) stored self.

(** [__init__]. *)
Definition init (stored : list (string * stored_user)) : t :=
  load_all_users_from_db empty stored.

(** [create_user].  [existing_user] is what [get_user_by_username] finds,
    [db] what the database holds for that user's id, and [uuid] the value
    of [uuid.uuid4()]. *)
Definition create_user (self : t) (username : string) (starting_cash : Q)
           (existing_user : option user_row) (db : stored_user)
           (uuid : string) : string * t :=
  match existing_user with
  | Some r =>
      let user_id := row_user_id r in
      if negb (dict_mem String.eqb (users self) user_id)
      then (user_id, snd (load_user_from_db self user_id db))
      else (user_id, self)
  | None =>
      let user_id := uuid in
      let self1 :=
        set_users self
          (dict_set String.eqb (users self) user_id
             {| username := username;
                starting_cash := starting_cash;
                current_cash := starting_cash;
                total_realized_pnl := 0 |}) in
      (user_id,
       set_positions self1 (dict_set String.eqb (positions self1) user_id []))
  end.

(** [clear_database]. *)
Definition clear_database (self : t) : t :=
  set_positions (set_users self []) [].

(** The [dict] returned by [get_market_summary]. *)
Inductive market_summary : Type :=
| NoMarketData
| Summary (current_market_price : Q) (market_resolved : bool)
          (available_strikes : list Q) (option_prices : list quote)
          (final_price : option Q).

Definition get_market_summary (self : t) : result market_summary :=
  match current_market_data self with
  | None => Return NoMarketData
  | Some md =>
      current_price <- iloc_last md ;;
      Return
        (Summary current_price (market_resolved self)
           (match current_option_prices self with
            | Some table => map strike table
            | None => []
            end)
           (match current_option_prices self with
            | Some table => table
            | None => []
            end)
           (if market_resolved self then final_market_price self else None))
  end.

(** The calls on a [PortfolioManager], each with what it takes from outside
    the object. *)
Inductive api_call : Type :=
| CreateUser (username : string) (starting_cash : Q)
             (existing_user : option user_row) (db : stored_user)
             (uuid : string)
| LoadUser (user_id : string) (db : stored_user)
| ClearDatabase
| Serve (r : request)
| ResolveMarket (final_market_price : Q).

Section Api.
Variable np_exp : Q -> Q.

(** The state after a call. *)
Definition api_step (self : t) (c : api_call) : t :=
  match c with
  | CreateUser username starting_cash existing_user db uuid =>
      snd (create_user self username starting_cash existing_user db uuid)
  | LoadUser user_id db => snd (load_user_from_db self user_id db)
  | ClearDatabase => clear_database self
  | Serve r => serve np_exp self r
  | ResolveMarket final_market_price =>
      snd (resolve_market self final_market_price)
  end.

Definition api_run (calls : list api_call) (self : t) : t :=
  fold_left api_step calls self.
End Api.
End Accounts.

(* ================================================================== *)
(** * The live market simulator ([live_simulator.py]) *)
(* ================================================================== *)

Inductive SimulationState : Type := STOPPED | RUNNING | PAUSED | COMPLETED.

Definition SimulationState_eqb (a b : SimulationState) : bool :=
  match a, b with
  | STOPPED, STOPPED | RUNNING, RUNNING | PAUSED, PAUSED
  | COMPLETED, COMPLETED => true
  | _, _ => false
  end.

(** [class LiveMarketSimulator].  Writing the CSV file and calling the
    registered callbacks (each on a copy of the point, its exceptions
    caught) do not touch the simulator's fields and are left out. *)
Module LiveMarketSimulator.
Import PyNum.
Local Open Scope Q_scope.

(** The [dict] built for each generated point.  Timestamps count minutes. *)
Record data_point : Type := {
  timestamp : Z;
  price : Q;
  movement : Q;
  volume : Z;
  bid_ask_spread : Q;
  market_resolution : bool;
  point_index : Z
}.

Definition set_price (dp : data_point) (p : Q) : data_point :=
  {| timestamp := timestamp dp;
     price := p;
     movement := movement dp;
     volume := volume dp;
     bid_ask_spread := bid_ask_spread dp;
     market_resolution := market_resolution dp;
     point_index := point_index dp |}.

(** The random numbers one generated point consumes: the value of
    [np.random.normal(0, sigma)] when that call returns,
    [random.randint(50, 200)] and [random.uniform(-0.2, 0.2)]. *)
Record draws : Type := {
  normal : Q;
  randint : Z;
  uniform : Q
}.

(** The fields of the simulator.  [thread_alive] says whether the thread in
    [self.simulation_thread] is running [_simulation_loop]; [stop_event]
    and [pause_event] are the two [threading.Event] flags. *)
Record t : Type := {
  total_points : Z;
  initial_price : Q;
  volatility : Q;
  threshold_point : Z;
  trend_strength : Q;
  max_movement : Q;
  final_resolution : bool;
  target_price : Q;
  current_point_index : Z;
  current_price : Q;
  previous_movement : Q;
  simulation_state : SimulationState;
  data_history : list data_point;
  current_data_point : option data_point;
  thread_alive : bool;
  time_interval : Q;
  stop_event : bool;
  pause_event : bool;
  start_time : Z
}.

(** [__init__]; [resolution] is the value of [random.choice([True, False])]
    and [clock] that of [datetime.now()].  [threshold_point] truncates the
    exact product [total_points * threshold_percentage]. *)
Definition init (total_points : Z) (initial_price volatility
                 threshold_percentage trend_strength max_movement : Q)
           (resolution : bool) (clock : Z) : t :=
  let initial_price' := py_max 15 (py_min 85 initial_price) in
  {| total_points := total_points;
     initial_price := initial_price';
     volatility := volatility;
     threshold_point := py_int (inject_Z total_points * threshold_percentage);
     trend_strength := trend_strength;
     max_movement := max_movement;
     final_resolution := resolution;
     target_price := if resolution then 95 else 5;
     current_point_index := 0;
     current_price := initial_price';
     previous_movement := 0;
     simulation_state := STOPPED;
     data_history := [];
     current_data_point := None;
     thread_alive := false;
     time_interval := 1;
     stop_event := false;
     pause_event := false;
     start_time := clock |}.

Definition apply_soft_bounds (price movement : Q) (is_pre_threshold : bool) : Q :=
  let comfort_zone := if is_pre_threshold then (12, 88) else (5, 95) in
  let warning_zone := if is_pre_threshold then (8, 92) else (2, 98) in
  let new_price := price + movement in
  let new_price :=
    if Qltb new_price (fst warning_zone) then
      if Qltb new_price (fst comfort_zone) then
        let distance_below := fst comfort_zone - new_price in
        let dampening_factor := py_min 0.6 (distance_below * 0.1) in
        let adjusted_movement := movement * (1 - dampening_factor) in
        price + adjusted_movement
      else new_price
    else if Qltb (snd warning_zone) new_price then
      if Qltb (snd comfort_zone) new_price then
        let distance_above := new_price - snd comfort_zone in
        let dampening_factor := py_min 0.6 (distance_above * 0.1) in
        let adjusted_movement := movement * (1 - dampening_factor) in
        price + adjusted_movement
      else new_price
    else new_price in
  if is_pre_threshold then py_max 5 (py_min 95 new_price)
  else py_max 1 (py_min 99 new_price).

(** Python's [a / b] on two integers. *)
Definition true_div (a b : Z) : result Q :=
  if (b =? 0)%Z then Raise ZeroDivisionError
  else Return (inject_Z a / inject_Z b).

(** [np.random.normal(0, scale)]: numpy raises [ValueError] for a negative
    scale; otherwise the call returns the value drawn. *)
Definition np_random_normal (scale : Q) (d : draws) : result Q :=
  if Qltb scale 0 then Raise (ValueError "scale < 0")
  else Return (normal d).

Definition generate_price_movement (self : t) (current_price : Q)
           (point_index : Z) (previous_movement : Q) (d : draws) : result Q :=
  let remaining_points := (total_points self - point_index)%Z in
  let is_pre_threshold := (point_index <? threshold_point self)%Z in
  bind
    (if is_pre_threshold then
       let momentum_factor := 0.2 * previous_movement in
       bind (np_random_normal (volatility self) d)
         (fun random_component =>
       let weak_signal := 0.01 * (target_price self - current_price) / 100 in
       Return (momentum_factor + random_component + weak_signal))
     else
       let distance_to_target := target_price self - current_price in
       bind (true_div (point_index - threshold_point self)
                      (total_points self - threshold_point self))
         (fun trend_progress =>
       let base_trend := trend_strength self * distance_to_target / 100 in
       let progressive_trend := base_trend * (0.1 + 0.9 * trend_progress) in
       bind (true_div remaining_points
                      (total_points self - threshold_point self))
         (fun remaining_fraction =>
       let volatility_factor := 0.75 + 0.25 * remaining_fraction in
       let current_volatility := volatility self * volatility_factor in
       bind (np_random_normal current_volatility d)
         (fun random_component =>
       let momentum_factor := 0.15 * previous_movement in
       Return (progressive_trend + random_component + momentum_factor)))))
    (fun movement =>
       Return (py_max (- max_movement self) (py_min (max_movement self) movement))).

(** Field updates used by the methods below. *)
Definition with_state (self : t) (st : SimulationState) : t :=
  {| total_points := total_points self;
     initial_price := initial_price self;
     volatility := volatility self;
     threshold_point := threshold_point self;
     trend_strength := trend_strength self;
     max_movement := max_movement self;
     final_resolution := final_resolution self;
     target_price := target_price self;
     current_point_index := current_point_index self;
     current_price := current_price self;
     previous_movement := previous_movement self;
     simulation_state := st;
     data_history := data_history self;
     current_data_point := current_data_point self;
     thread_alive := thread_alive self;
     time_interval := time_interval self;
     stop_event := stop_event self;
     pause_event := pause_event self;
     start_time := start_time self |}.

Definition with_thread (self : t) (alive : bool) (interval : Q)
           (stop_ev pause_ev : bool) : t :=
  {| total_points := total_points self;
     initial_price := initial_price self;
     volatility := volatility self;
     threshold_point := threshold_point self;
     trend_strength := trend_strength self;
     max_movement := max_movement self;
     final_resolution := final_resolution self;
     target_price := target_price self;
     current_point_index := current_point_index self;
     current_price := current_price self;
     previous_movement := previous_movement self;
     simulation_state := simulation_state self;
     data_history := data_history self;
     current_data_point := current_data_point self;
     thread_alive := alive;
     time_interval := interval;
     stop_event := stop_ev;
     pause_event := pause_ev;
     start_time := start_time self |}.

Definition with_process (self : t) (index : Z) (price_now movement_now : Q)
           (history : list data_point) (current : option data_point)
           (clock : Z) : t :=
  {| total_points := total_points self;
     initial_price := initial_price self;
     volatility := volatility self;
     threshold_point := threshold_point self;
     trend_strength := trend_strength self;
     max_movement := max_movement self;
     final_resolution := final_resolution self;
     target_price := target_price self;
     current_point_index := index;
     current_price := price_now;
     previous_movement := movement_now;
     simulation_state := simulation_state self;
     data_history := history;
     current_data_point := current;
     thread_alive := thread_alive self;
     time_interval := time_interval self;
     stop_event := stop_event self;
     pause_event := pause_event self;
     start_time := start_time self |}.

(** [generate_next_data_point]: [Return None] when the run is complete. *)
Definition generate_next_data_point (self : t) (d : draws)
  : result (option data_point) * t :=
  if (current_point_index self >=? total_points self)%Z then
    (Return None, with_state self COMPLETED)
  else
    let timestamp := (start_time self + 5 * current_point_index self)%Z in
    let moved : result (Q * Q * Q) :=        (* movement, price, previous *)
      if (current_point_index self >? 0)%Z then
        bind (generate_price_movement self (current_price self)
                (current_point_index self) (previous_movement self) d)
          (fun movement =>
             let is_pre_threshold :=
               (current_point_index self <? threshold_point self)%Z in
             let new_price :=
               apply_soft_bounds (current_price self) movement is_pre_threshold in
             Return (movement, new_price, movement))
      else Return (0, current_price self, previous_movement self) in
    match moved with
    | Raise e => (Raise e, self)
    | Return (movement, price_now, movement_now) =>
        let base_volume := randint d in
        let movement_factor := py_abs movement in
        let volume_multiplier := 1 + movement_factor * 0.5 in
        let volume := py_int (inject_Z base_volume * volume_multiplier) in
        let base_spread := 0.5 + uniform d in
        let volatility_factor := movement_factor * 0.1 in
        let spread := py_max 0.1 (base_spread + volatility_factor) in
        let dp :=
          {| timestamp := timestamp;
             price := py_round price_now 2;
             movement := py_round movement 3;
             volume := volume;
             bid_ask_spread := py_round spread 2;
             market_resolution := final_resolution self;
             point_index := current_point_index self |} in
        (Return (Some dp),
         with_process self (current_point_index self + 1) price_now movement_now
           (data_history self ++ [dp]) (Some dp) (start_time self))
    end.

Definition step (self : t) (d : draws) : result (option data_point) * t :=
  generate_next_data_point self d.

(** [start_live_simulation]: in ["auto"] mode the background thread is
    started.  One background thread is tracked, the one held in
    [self.simulation_thread]. *)
Definition start_live_simulation (self : t) (interval : Q) (mode : string) : t :=
  if SimulationState_eqb (simulation_state self) RUNNING then self
  else
    let self1 := with_state (with_thread self (thread_alive self) interval false false)
                   RUNNING in
    if String.eqb mode "auto" then
      with_thread self1 true interval false false
    else with_state self1 PAUSED.

(** The condition of the [while] of [_simulation_loop]. *)
Definition loop_condition (self : t) : bool :=
  negb (stop_event self)
  && (current_point_index self <? total_points self)%Z
  && negb (SimulationState_eqb (simulation_state self) COMPLETED).

(** The terminal price of the "final price adjustment". *)
Definition adjusted_price (self : t) : Q :=
  let final_adjustment := target_price self - current_price self in
  let adjusted := current_price self + final_adjustment * 0.4 in
  py_max 2 (py_min 98 adjusted).

(** [self.data_history[-1]['price'] = p]. *)
Definition set_last_price (history : list data_point) (p : Q) : list data_point :=
  match rev history with
  | [] => history
  | dp :: earlier => rev earlier ++ [set_price dp p]
  end.

(** What [_simulation_loop] does once its [while] is left; the thread ends
    with it. *)
Definition loop_exit (self : t) : t :=
  let self1 :=
    if (current_point_index self >=? total_points self)%Z
    then with_state self COMPLETED
    else with_state self STOPPED in
  let self2 :=
    if (0 <? List.length (data_history self1))%nat then
      let p := adjusted_price self1 in
      with_process self1 (current_point_index self1) p (previous_movement self1)
        (set_last_price (data_history self1) (py_round p 2))
        (option_map (fun dp => set_price dp (py_round p 2))
                    (current_data_point self1))
        (start_time self1)
    else self1 in
  with_thread self2 false (time_interval self2) (stop_event self2)
    (pause_event self2).

(** One turn of the background thread through [_simulation_loop]: the test
    of the [while], then either its body or the code after it.  A turn is
    taken as atomic with respect to the calls of the other thread; a stop
    requested during the wait at the end of the body is seen by the next
    turn's test, which leads to the same code as the [break]. *)
Definition thread_turn (self : t) (d : draws) : option data_point * t :=
  if negb (thread_alive self) then (None, self)
  else if loop_condition self then
    if pause_event self then (None, self)               (* time.sleep(0.1) *)
    else
      match generate_next_data_point self d with
      | (Return (Some dp), self') => (Some dp, self')
      | (Return None, self') => (None, loop_exit self') (* break *)
      | (Raise _, self') =>                             (* the thread dies *)
          (None,
           with_thread self' false (time_interval self') (stop_event self')
             (pause_event self'))
      end
  else (None, loop_exit self).

Definition pause (self : t) : t :=
  if SimulationState_eqb (simulation_state self) RUNNING then
    with_state (with_thread self (thread_alive self) (time_interval self)
                  (stop_event self) true) PAUSED
  else self.

Definition resume (self : t) : t :=
  if SimulationState_eqb (simulation_state self) PAUSED then
    with_state (with_thread self (thread_alive self) (time_interval self)
                  (stop_event self) false) RUNNING
  else self.

(** [stop]: the [join] lets a live thread reach the end of its loop (the
    two-second timeout is taken not to expire). *)
Definition stop (self : t) : t :=
  if SimulationState_eqb (simulation_state self) RUNNING
     || SimulationState_eqb (simulation_state self) PAUSED then
    let self1 := with_thread self (thread_alive self) (time_interval self)
                   true false in
    let self2 := if thread_alive self1 then loop_exit self1 else self1 in
    with_state self2 STOPPED
  else self.

(** [reset_simulation]; [clock] is the new [datetime.now()]. *)
Definition reset_simulation (self : t) (clock : Z) : t :=
  let self1 := stop self in
  with_state
    (with_process self1 0 (initial_price self1) 0 [] None clock) STOPPED.

(** The calls a run is made of: the calls on the object, and the turns of
    the background thread. *)
Inductive call : Type :=
| Start (interval : Q) (mode : string)
| Pause
| Resume
| Stop
| Step (d : draws)
| ResetSimulation (clock : Z)
| ThreadTurn (d : draws).

(** The state after a call and the point it emitted, if any. *)
Definition perform (self : t) (c : call) : option data_point * t :=
  match c with
  | Start interval mode => (None, start_live_simulation self interval mode)
  | Pause => (None, pause self)
  | Resume => (None, resume self)
  | Stop => (None, stop self)
  | Step d =>
      match step self d with
      | (Return o, self') => (o, self')
      | (Raise _, self') => (None, self')
      end
  | ResetSimulation clock => (None, reset_simulation self clock)
  | ThreadTurn d => thread_turn self d
  end.

(** A run: the points emitted, in order, and the final state. *)
Fixpoint run (calls : list call) (self : t) : list data_point * t :=
  match calls with
  | [] => ([], self)
  | c :: calls' =>
      let (o, self') := perform self c in
      let (emitted, final) := run calls' self' in
      (match o with Some dp => dp :: emitted | None => emitted end, final)
  end.
End LiveMarketSimulator.

(** The methods of [LiveMarketSimulator] that only read the simulator. *)
Module SimulatorQueries.
Import PyNum LiveMarketSimulator.
Local Open Scope Q_scope.

(** Python's [l[start:]]: a negative [start] counts from the end, and an
    index outside the list is clipped. *)
Definition slice_from (A : Type) (l : list A) (start : Z) : list A :=
  let len := Z.of_nat (List.length l) in
  let i := if (start <? 0)%Z then Z.max 0 (len + start) else Z.min start len in
  skipn (Z.to_nat i) l.

Definition get_current_price (self : t) : Q := current_price self.

Definition get_current_data_point (self : t) : option data_point :=
  current_data_point self.

(** [self.data_history[-n_points:] if self.data_history else []]. *)
Definition get_recent_history (self : t) (n_points : Z) : list data_point :=
  match data_history self with
  | [] => []
  | _ :: _ => slice_from (data_history self) (- n_points)
  end.

(** The [dict] returned by [get_simulation_stats]. *)
Record simulation_stats : Type := {
  state : SimulationState;
  current_point : Z;
  stats_total_points : Z;
  progress_percent : Q;
  stats_current_price : Q;
  target_resolution : string;
  is_trending : bool;
  stats_time_interval : Q
}.

Definition get_simulation_stats (self : t) : result simulation_stats :=
  bind (true_div (current_point_index self) (total_points self))
    (fun fraction =>
       Return {| state := simulation_state self;
                 current_point := current_point_index self;
                 stats_total_points := total_points self;
                 progress_percent := fraction * 100;
                 stats_current_price := current_price self;
                 target_resolution := if final_resolution self then "YES" else "NO";
                 is_trending :=
                   (current_point_index self >=? threshold_point self)%Z;
                 stats_time_interval := time_interval self |}).
End SimulatorQueries.

(** [class PortfolioIntegrator]: the callback that feeds the simulator's
    points to the ledger. *)
Module PortfolioIntegrator.
Import PyNum PortfolioManager.
Local Open Scope Q_scope.

Record t : Type := {
  simulator : LiveMarketSimulator.t;
  portfolio_manager : PortfolioManager.t;
  update_count : Z
}.

(** [__init__], which registers [on_price_update] with the simulator. *)
Definition init (simulator : LiveMarketSimulator.t)
           (portfolio_manager : PortfolioManager.t) : t :=
  {| simulator := simulator;
     portfolio_manager := portfolio_manager;
     update_count := 0 |}.

Section Feed.
Variable np_exp : Q -> Q.

(** [on_price_update]: a one-row frame goes to [update_market_data]; an
    exception of the body is caught, and then the count stays. *)
Definition on_price_update (self : t) (data_point : LiveMarketSimulator.data_point)
  : t :=
  let df := [LiveMarketSimulator.price data_point] in
  match update_market_data np_exp (portfolio_manager self) df with
  | (Return _, pm) =>
      {| simulator := simulator self;
         portfolio_manager := pm;
         update_count := update_count self + 1 |}
  | (Raise _, pm) =>
      {| simulator := simulator self;
         portfolio_manager := pm;
         update_count := update_count self |}
  end.

(** What happens to the pair: a call on the simulator or a turn of its
    thread, where [generate_next_data_point] calls the callback on the point
    it emits; or a trade request on the ledger. *)
Inductive event : Type :=
| Simulate (c : LiveMarketSimulator.call)
| Trade (user_id : string) (strike_price : Q) (quantity : Z)
        (trade_type : TradeType) (e : env).

Definition handle (self : t) (ev : event)
  : option LiveMarketSimulator.data_point * t :=
  match ev with
  | Simulate c =>
      let (o, sim) := LiveMarketSimulator.perform (simulator self) c in
      let self1 :=
        {| simulator := sim;
           portfolio_manager := portfolio_manager self;
           update_count := update_count self |} in
      (o, match o with
          | Some data_point => on_price_update self1 data_point
          | None => self1
          end)
  | Trade user_id strike_price quantity trade_type e =>
      (None,
       {| simulator := simulator self;
          portfolio_manager :=
            snd (execute_trade (portfolio_manager self) user_id strike_price
                   quantity trade_type e);
          update_count := update_count self |})
  end.

(** The points emitted, in order, and the final state. *)
Fixpoint feed (events : list event) (self : t)
  : list LiveMarketSimulator.data_point * t :=
  match events with
  | [] => ([], self)
  | ev :: events' =>
      let (o, self') := handle self ev in
      let (emitted, final) := feed events' self' in
      (match o with Some dp => dp :: emitted | None => emitted end, final)
  end.
End Feed.
End PortfolioIntegrator.

(* ================================================================== *)
(** * The vocabulary of the properties *)
(* ================================================================== *)

(** ** Pricing *)

Section Quoted.
Variable F : Type.
Variable O : float_ops F.

(** The bid and ask columns, as every row of either transform carries
    them. *)
Definition quoted (strike : F) (r : priced_row F) : Prop :=
  option_bid r =
    f_mul O (f_mul O (pr_yes_price r) (f_sub O (f_of_Z O 1) strike))
            (decay_multiplier r)
  /\ option_ask r =
    f_mul O (f_mul O (f_sub O (f_of_Z O 1) (pr_no_price r))
                     (f_sub O (f_of_Z O 1) strike))
            (decay_multiplier r).
End Quoted.

Module PricingProps.
Import Reals.
Local Open Scope R_scope.

(** The decay multiplier of row [i] of an [n]-row frame in the ledger's
    copy of the transform. *)
Definition decay_at (k : R) (n i : nat) : R :=
  if (Z.of_nat n - 1 =? 0)%Z then 1
  else exp (- k * (IZR (Z.of_nat i) / IZR (Z.of_nat n - 1))).
End PricingProps.

(** ** The ledger *)

(** A small ledger to run the code on: one user with 15,000 in cash, and a
    market at 60. *)
Module Scenario.
Import PortfolioManager.
Local Open Scope Q_scope.
Local Open Scope string_scope.

(** [np.exp] for these sessions.  The ledger only prices one-row frames,
    on which the transform does not call it, so any function does. *)
Definition np_exp (x : Q) : Q := 1.

Definition alice : User :=
  {| username := "Alice";
     starting_cash := 15000;
     current_cash := 15000;
     total_realized_pnl := 0 |}.

(** The state after [create_user("Alice", 15000)] on an empty database;
    ["u-alice"] is her user id. *)
Definition fresh : t :=
  {| users := [("u-alice", alice)];
     positions := [("u-alice", [])];
     current_market_data := None;
     current_option_prices := None;
     market_resolved := false;
     final_market_price := None |}.

Definition saved (uuid : string) (clock : Z) : env :=
  {| uuid4 := uuid; now := clock; db_exception := None |}.

Definition save_fails (uuid : string) (clock : Z) : env :=
  {| uuid4 := uuid; now := clock; db_exception := Some "database is locked" |}.

(** Alice buys 10 contracts of strike 0.5 and sells 3 of them. *)
Definition buy_then_sell : list request :=
  [ UpdateMarket [45; 47; 60];
    ExecuteTrade "u-alice" 0.5 10 BUY (saved "t1" 1);
    ExecuteTrade "u-alice" 0.5 3 SELL (saved "t2" 2) ].

Definition after_trades : t := session np_exp buy_then_sell fresh.
End Scenario.

Module LedgerProps.
Import PyNum PortfolioManager.
Local Open Scope Q_scope.

(** The fold of a trade list: net quantity (BUY quantities minus SELL
    quantities) and the sum of the signed total costs. *)
Definition fold_quantity (trades : list Trade.t) : Z :=
  py_sum_Z (map signed_quantity trades).

Definition fold_cost (trades : list Trade.t) : Q :=
  py_sum (map Trade.total_cost trades).

(** A position that agrees with its trade list on the net quantity and is
    not short. *)
Definition position_ok (p : Position.t) : Prop :=
  Position.quantity p = fold_quantity (Position.trades p)
  /\ (0 <= Position.quantity p)%Z.

Definition book_ok (b : book) : Prop :=
  Forall (fun kp => position_ok (snd kp)) b.

Definition ledger_ok (s : t) : Prop :=
  Forall (fun ub => book_ok (snd ub)) (positions s).

Definition solvent (u : User) : Prop := 0 <= current_cash u.

Definition cash_nonneg (s : t) : Prop :=
  Forall (fun uu => solvent (snd uu)) (users s).

(** A strike of the fixed list of [update_market_data]. *)
Definition known_strike (k : Q) : Prop :=
  exists k0, In k0 strikes /\ k0 == k.

(** The quote [update_market_data] stores for strike [k] on side [sd] when
    the last price, divided by 100, is [yes]: the expressions of the code on
    its one-row frame, whose [no_price] is [1 - yes] and whose decay
    multiplier is 1.  Over the rationals the three sides are equal; in
    floating point [1 - (1 - yes)] need not be [yes], so they are kept
    apart. *)
Definition one_row_quote (yes k : Q) (sd : side) : Q :=
  let bid_price := yes * (1 - k) * 1 in
  let ask_price := (1 - (1 - yes)) * (1 - k) * 1 in
  match sd with
  | Bid => bid_price
  | Ask => ask_price
  | Mid => (bid_price + ask_price) / 2
  end.

(** Every quoted strike is one of the fixed list. *)
Definition quotes_fixed (s : t) : Prop :=
  match current_option_prices s with
  | None => True
  | Some table => Forall (fun r => known_strike (strike r)) table
  end.

(** A book in which every position with a nonzero net quantity has left
    the OPEN status. *)
Definition settled (p : Position.t) : Prop :=
  Position.quantity p <> 0%Z -> Position.status p <> OPEN.

Definition book_settled (b : book) : Prop :=
  Forall (fun kp => settled (snd kp)) b.

(** The positions a portfolio snapshot lists: those with a nonzero net
    quantity. *)
Definition listed (b : book) : book :=
  filter (fun kp => negb (Position.quantity (snd kp) =? 0)%Z) b.

(** An entry of a snapshot for a position that is no longer OPEN: no
    unrealized P&L, and a position value of net quantity times the current
    mid quote. *)
Definition settled_entry (s : t) (e : position_summary) : Prop :=
  ps_unrealized_pnl e = 0
  /\ get_option_price s (ps_strike e) Mid = Return (ps_current_price e)
  /\ ps_position_value e = inject_Z (ps_quantity e) * ps_current_price e.

(** The trade record [execute_trade] builds. *)
Definition trade_of (user_id : string) (strike_price : Q) (quantity : Z)
           (trade_type : TradeType) (e : env)
           (price_per_contract total_cost current_market_price : Q) : Trade.t :=
  {| Trade.trade_id := uuid4 e;
     Trade.user_id := user_id;
     Trade.timestamp := now e;
     Trade.trade_type := trade_type;
     Trade.strike_price := strike_price;
     Trade.quantity := quantity;
     Trade.price_per_contract := price_per_contract;
     Trade.total_cost :=
       match trade_type with BUY => total_cost | SELL => - total_cost end;
     Trade.market_price_at_trade := current_market_price |}.

(** The side a trade is priced at: ask for BUY, bid for SELL. *)
Definition quote_side (trade_type : TradeType) : side :=
  match trade_type with BUY => Ask | SELL => Bid end.

(** The book after "Update position" has made room for the strike. *)
Definition book_with (bk : book) (user_id : string) (strike_price : Q) : book :=
  if dict_mem Qeqb bk strike_price then bk
  else dict_set Qeqb bk strike_price (Position.init user_id strike_price).
End LedgerProps.

(** ** The simulator *)

(** Two small runs in manual mode, on a simulator made with the default
    parameters, a YES resolution and 10 (resp. 2) points. *)
Module SimScenario.
Import LiveMarketSimulator.
Local Open Scope Q_scope.

Definition quiet_draw : draws := {| normal := 0; randint := 100; uniform := 0 |}.

Definition ten_points : t := init 10 50 1.8 0.7 0.08 4 true 0.

Definition two_points : t := init 2 50 1.8 0.7 0.08 4 true 0.

(** [start_live_simulation(mode="manual")], one [step()]. *)
Definition stepped_once : t :=
  snd (run [Start 1 "manual"; Step quiet_draw] ten_points).

(** [start_live_simulation(mode="manual")] and [step()] until it returns
    [None]. *)
Definition stepped_to_the_end : t :=
  snd (run [Start 1 "manual"; Step quiet_draw; Step quiet_draw; Step quiet_draw]
           two_points).


End SimScenario.

Module SimulatorProps.
Import PyNum LiveMarketSimulator.
Local Open Scope Q_scope.

(** The price bounds of a generated point: [[5, 95]] before the threshold
    index, [[1, 99]] from it on. *)
Definition in_bounds (threshold : Z) (dp : data_point) : Prop :=
  if (point_index dp <? threshold)%Z
  then 5 <= price dp <= 95
  else 1 <= price dp <= 99.

(** A simulator as [__init__] and [reset_simulation] leave it and as the
    other methods keep it: the index is not negative, the initial price is
    in [[15, 85]], and as long as no point was generated the history is empty
    and the price is the initial one. *)
Definition seeded (s : t) : Prop :=
  (0 <= current_point_index s)%Z
  /\ 15 <= initial_price s <= 85
  /\ (current_point_index s = 0%Z ->
      data_history s = [] /\ current_price s = initial_price s).

(** The last point of a history. *)
Definition last_point (history : list data_point) : option data_point :=
  match rev history with
  | dp :: _ => Some dp
  | [] => None
  end.

(** A price within the bounds that go with index [i]. *)
Definition price_within (threshold i : Z) (p : Q) : Prop :=
  if (i <? threshold)%Z then 5 <= p <= 95 else 1 <= p <= 99.

(** A simulator whose recorded points are all within the bounds, whose
    target is 5 or 95, and whose current price is within the bounds of the
    last recorded point's index. *)
Definition bounded (s : t) : Prop :=
  Forall (in_bounds (threshold_point s)) (data_history s)
  /\ (target_price s = 5 \/ target_price s = 95)
  /\ match last_point (data_history s) with
     | Some dp => price_within (threshold_point s) (point_index dp) (current_price s)
     | None => True
     end.

(** The simulator after [start_live_simulation(interval, "auto")] and one
    turn of the background thread for each element of [ds]. *)
Definition auto_run (s0 : t) (interval : Q) (ds : list draws) : t :=
  snd (run (Start interval "auto" :: map ThreadTurn ds) s0).

(** The background loop of a simulator with [n] points in all is running
    and has generated [k] of them. *)
Definition running (n : Z) (k : nat) (s : t) : Prop :=
  thread_alive s = true
  /\ stop_event s = false
  /\ pause_event s = false
  /\ simulation_state s = RUNNING
  /\ total_points s = n
  /\ current_point_index s = Z.of_nat k
  /\ List.length (data_history s) = k.

(** The terminal price in the words of the specification: the current
    price moved by 0.4 of its distance to the target, i.e.
    [current + 0.4 * (target - current)], then clamped to [[2, 98]].  It is
    written here without the code's [adjusted_price], to be compared with
    it. *)
Definition spec_terminal_price (current target : Q) : Q :=
  let nudged := current + 0.4 * (target - current) in
  if Qle_bool nudged 2 then 2
  else if Qle_bool 98 nudged then 98
  else nudged.

(** Two points that differ at most in their price. *)
Definition same_but_price (dp dp' : data_point) : Prop :=
  timestamp dp' = timestamp dp
  /\ movement dp' = movement dp
  /\ volume dp' = volume dp
  /\ bid_ask_spread dp' = bid_ask_spread dp
  /\ market_resolution dp' = market_resolution dp
  /\ point_index dp' = point_index dp.

(** The terminal adjustment, from [before] to [after]: the current price
    becomes the terminal price of the specification, which lies in
    [[2, 98]]; the last point of the history takes that price rounded to two
    decimals and keeps its other fields; the earlier points and the number
    of points stay, and no step is taken. *)
Definition adjusted (before after : t) : Prop :=
  current_price after
  == spec_terminal_price (current_price before) (target_price before)
  /\ 2 <= current_price after <= 98
  /\ current_point_index after = current_point_index before
  /\ exists earlier dp dp',
      data_history before = earlier ++ [dp]
      /\ data_history after = earlier ++ [dp']
      /\ price dp' = py_round (current_price after) 2
      /\ same_but_price dp dp'.


End SimulatorProps.

(** ** Resolution and accounts *)

Module ResolutionProps.
Import PyNum PortfolioManager.
Local Open Scope Q_scope.

(** What [resolve_market] pays for one OPEN position: the net quantity
    times the payoff of the option at the final price. *)
Definition payoff (final_market_price : Q) (kp : Q * Position.t) : Q :=
  inject_Z (Position.quantity (snd kp))
  * py_max (final_market_price / 100 - fst kp) 0.

(** A book whose positions are all OPEN, as trading leaves them. *)
Definition all_open (b : book) : Prop :=
  Forall (fun kp => Position.status (snd kp) = OPEN) b.

(** Every user of [self.users] has an entry in [self.positions]. *)
Definition users_have_books (s : t) : Prop :=
  forall uid u, users_get s uid = Some u ->
                exists b, positions_get s uid = Some b.

(** A reply of [execute_trade] that is not an executed trade. *)
Definition not_executed (r : result (bool * message)) : Prop :=
  match r with
  | Return (true, _) => False
  | _ => True
  end.
End ResolutionProps.

(** ** The history of a run *)

Module HistoryProps.
Import PyNum LiveMarketSimulator SimulatorProps.
Local Open Scope Q_scope.

(** A recorded point carries the time of its index, five minutes a point
    from the start of the run, and the resolution of the market. *)
Definition stamped (s : t) (dp : data_point) : Prop :=
  timestamp dp = (start_time s + 5 * point_index dp)%Z
  /\ market_resolution dp = final_resolution s.

(** The history holds the points 0, 1, ... in order, one for each index
    below [current_point_index], which does not pass [total_points]; and
    [current_data_point] is the last of them. *)
Definition well_indexed (s : t) : Prop :=
  current_point_index s = Z.of_nat (List.length (data_history s))
  /\ map point_index (data_history s)
     = map Z.of_nat (seq 0 (List.length (data_history s)))
  /\ Forall (stamped s) (data_history s)
  /\ current_data_point s = last_point (data_history s)
  /\ (current_point_index s <= Z.max 0 (total_points s))%Z.

(** The parameters [__init__] fixes. *)
Definition same_parameters (s s' : t) : Prop :=
  total_points s' = total_points s
  /\ initial_price s' = initial_price s
  /\ volatility s' = volatility s
  /\ threshold_point s' = threshold_point s
  /\ trend_strength s' = trend_strength s
  /\ max_movement s' = max_movement s
  /\ final_resolution s' = final_resolution s
  /\ target_price s' = target_price s.
End HistoryProps.

(** ** Accounts and the feed *)

Module AccountProps.
Import PyNum PortfolioManager Accounts LedgerProps ResolutionProps.
Local Open Scope Q_scope.

(** The trades of a list that are at strike [k], in the order of the
    list. *)
Definition at_strike (k : Q) (rows : list Trade.t) : list Trade.t :=
  filter (fun tr => Qeqb (Trade.strike_price tr) k) rows.

(** A new position of a user at a strike, with a list of trades added one
    after the other. *)
Definition replayed (user_id : string) (k : Q) (rows : list Trade.t)
  : Position.t :=
  fold_left Position.add_trade rows (Position.init user_id k).

(** What the book of a user holds once the rows have been replayed: at a
    strike some row is at, the replay of the rows at that strike, and
    nothing at any other strike. *)
Definition rebuilt (uid : string) (bk : book) (rows : list Trade.t) : Prop :=
  forall k,
    match book_get bk k with
    | Some p => exists k0, k0 == k /\ p = replayed uid k0 (at_strike k rows)
                           /\ at_strike k rows <> []
    | None => at_strike k rows = []
    end.

(** A call that reads no stored account: [create_user] for a user name the
    database does not hold, with a starting cash that is not negative, or
    any call other than [load_user_from_db]. *)
Definition opens_new_accounts (c : api_call) : Prop :=
  match c with
  | CreateUser _ starting_cash existing_user _ _ =>
      existing_user = None /\ 0 <= starting_cash
  | LoadUser _ _ => False
  | _ => True
  end.

(** A property of every position of a book, and of every book. *)
Definition book_every (P : Position.t -> Prop) (b : book) : Prop :=
  Forall (fun kp => P (snd kp)) b.

Definition every_position (P : Position.t -> Prop) (s : t) : Prop :=
  Forall (fun ub => book_every P (snd ub)) (positions s).

(** A position whose net quantity is what its trade list adds up to: the
    BUY quantities minus the SELL quantities. *)
Definition derivable (p : Position.t) : Prop :=
  Position.quantity p = fold_quantity (Position.trades p).

(** A position that has not been settled, or has been settled for an amount
    that is not negative. *)
Definition settlement_nonneg (p : Position.t) : Prop :=
  0 <= Position.settlement_value p.

Definition is_open (p : Position.t) : Prop := Position.status p = OPEN.

(** No position at all. *)
Definition no_position (p : Position.t) : Prop := False.

(** Every strike a book has a position at is one of the fixed list. *)
Definition book_keys_known (b : book) : Prop :=
  Forall (fun kp => known_strike (fst kp)) b.

Definition keys_known (s : t) : Prop :=
  Forall (fun ub => book_keys_known (snd ub)) (positions s).

(** Either no quote has been computed yet, and then there is no position;
    or the quote table holds the fixed strikes, in their order, and there
    is market data. *)
Definition fully_quoted (s : t) : Prop :=
  match current_option_prices s with
  | Some table =>
      map strike table = strikes /\ current_market_data s <> None
  | None => every_position no_position s
  end.

(** The ledger in order: no user id twice, a book for every user, net
    quantities that are the folds of the trades and not negative, no
    negative balance, no negative settlement value, positions at the fixed
    strikes only, and quotes for all of them as soon as there is a
    position. *)
Definition in_order (s : t) : Prop :=
  NoDup (dict_keys (users s))
  /\ users_have_books s
  /\ ledger_ok s
  /\ cash_nonneg s
  /\ quotes_fixed s
  /\ every_position settlement_nonneg s
  /\ keys_known s
  /\ fully_quoted s.
End AccountProps.

Module FeedProps.
Import PyNum PortfolioManager LedgerProps.
Local Open Scope Q_scope.

(** The ledger holds the frame and the quotes of the point [last], if there
    is one: the price of the point, between 1 and 99, as market data, and
    the fixed strikes quoted from it, each side as the code computes it. *)
Definition fed (last : option LiveMarketSimulator.data_point)
           (pm : PortfolioManager.t) : Prop :=
  match last with
  | None => True
  | Some dp =>
      1 <= LiveMarketSimulator.price dp <= 99
      /\ current_market_data pm = Some [LiveMarketSimulator.price dp]
      /\ exists qs,
          current_option_prices pm = Some qs
          /\ map strike qs = strikes
          /\ Forall (fun r =>
                       forall sd,
                         column sd r
                         = one_row_quote (LiveMarketSimulator.price dp / 100)
                                         (strike r) sd)
                    qs
  end.
End FeedProps.

Module SnapshotProps.
Import PyNum PortfolioManager.
Local Open Scope Q_scope.

(** An entry of a snapshot for an OPEN position: valued at the current mid
    quote, with the difference to the cost basis as unrealized P&L and the
    cost basis per contract held as average cost. *)
Definition open_entry (s : t) (e : position_summary) : Prop :=
  get_option_price s (ps_strike e) Mid = Return (ps_current_price e)
  /\ ps_position_value e = inject_Z (ps_quantity e) * ps_current_price e
  /\ ps_unrealized_pnl e = ps_position_value e - ps_total_cost_basis e
  /\ ps_avg_cost e = ps_total_cost_basis e / inject_Z (Z.abs (ps_quantity e)).
End SnapshotProps.

(* ================================================================== *)
(** * Facts about the numerics *)
(* ================================================================== *)

Module PyNumFacts.
Import PyNum Lqa.
Local Open Scope Q_scope.

Lemma Qltb_true (a b : Q) : Qltb a b = true <-> a < b.
Proof.
  unfold Qltb. rewrite negb_true_iff. split; intro H.
  - apply Qnot_le_lt. intro Hle. apply Qle_bool_iff in Hle. congruence.
  - destruct (Qle_bool b a) eqn:E; [|reflexivity].
    apply Qle_bool_iff in E. lra.
Qed.

Lemma Qltb_false (a b : Q) : Qltb a b = false <-> b <= a.
Proof.
  unfold Qltb. rewrite negb_false_iff. apply Qle_bool_iff.
Qed.

Lemma Qleb_true (a b : Q) : Qleb a b = true <-> a <= b.
Proof. apply Qle_bool_iff. Qed.

Lemma Qleb_false (a b : Q) : Qleb a b = false <-> b < a.
Proof.
  unfold Qleb. split; intro H.
  - apply Qnot_le_lt. intro Hle. apply Qle_bool_iff in Hle. congruence.
  - destruct (Qle_bool a b) eqn:E; [|reflexivity].
    apply Qle_bool_iff in E. lra.
Qed.

Lemma Qeqb_true (a b : Q) : Qeqb a b = true <-> a == b.
Proof. apply Qeq_bool_iff. Qed.

Lemma Qeqb_refl (a : Q) : Qeqb a a = true.
Proof. apply Qeqb_true. reflexivity. Qed.

(** Case analysis on a comparison, leaving the order fact in the context. *)
Ltac case_Qltb a b :=
  let E := fresh "E" in
  destruct (Qltb a b) eqn:E;
  [apply Qltb_true in E | apply Qltb_false in E].

Lemma py_max_spec (a b : Q) :
  (a < b /\ py_max a b = b) \/ (b <= a /\ py_max a b = a).
Proof. unfold py_max. case_Qltb a b; auto. Qed.

Lemma py_min_spec (a b : Q) :
  (b < a /\ py_min a b = b) \/ (a <= b /\ py_min a b = a).
Proof. unfold py_min. case_Qltb b a; auto. Qed.

(** [max(lo, min(hi, x))] lands in [[lo, hi]]. *)
Lemma clamp_bounds (lo hi x : Q) :
  lo <= hi -> lo <= py_max lo (py_min hi x) <= hi.
Proof.
  intro H.
  destruct (py_min_spec hi x) as [[H1 ->]|[H1 ->]];
    destruct (py_max_spec lo x) as [[H2 E2]|[H2 E2]];
    destruct (py_max_spec lo hi) as [[H3 E3]|[H3 E3]];
    rewrite ?E2, ?E3; lra.
Qed.

(** A clamp leaves a value that is already inside alone. *)
Lemma clamp_inside (lo hi x : Q) :
  lo <= x <= hi -> py_max lo (py_min hi x) == x.
Proof.
  intros [H1 H2].
  destruct (py_min_spec hi x) as [[H3 ->]|[H3 ->]];
    [destruct (py_max_spec lo x) as [[H4 ->]|[H4 ->]]
    |destruct (py_max_spec lo hi) as [[H4 ->]|[H4 ->]]]; lra.
Qed.

Lemma round_half_even_ge (x : Q) (n : Z) :
  inject_Z n <= x -> (n <= round_half_even x)%Z.
Proof.
  intro H. unfold round_half_even.
  assert (Hf : (n <= Qfloor x)%Z).
  { rewrite <- (Qfloor_Z n). apply Qfloor_resp_le. exact H. }
  destruct (Qcompare _ _); [destruct (Z.even _)| |]; lia.
Qed.

Lemma round_half_even_le (x : Q) (n : Z) :
  x <= inject_Z n -> (round_half_even x <= n)%Z.
Proof.
  intro H. unfold round_half_even.
  assert (Hf : (Qfloor x <= n)%Z).
  { rewrite <- (Qfloor_Z n). apply Qfloor_resp_le. exact H. }
  destruct (Z.eq_dec (Qfloor x) n) as [E|E].
  - (* x lies between its floor n and n: the fraction is 0 *)
    assert (Hx : x == inject_Z (Qfloor x)).
    { apply Qle_antisym; [rewrite E; exact H | apply Qfloor_le]. }
    assert (Hc : Qcompare (x - inject_Z (Qfloor x)) (1 # 2) = Lt).
    { apply (proj1 (Qlt_alt _ _)). clear - Hx. revert Hx.
      generalize (inject_Z (Qfloor x)). intros f Hx. lra. }
    rewrite Hc. lia.
  - destruct (Qcompare _ _); [destruct (Z.even _)| |]; lia.
Qed.

(** [round(x, nd)] keeps [x] between integer bounds. *)
Lemma py_round_bounds (x : Q) (nd : nat) (lo hi : Z) :
  inject_Z lo <= x <= inject_Z hi ->
  inject_Z lo <= py_round x nd <= inject_Z hi.
Proof.
  intros [H1 H2]. unfold py_round.
  set (sc := (10 ^ Z.of_nat nd)%Z).
  assert (Hsc : (0 < sc)%Z) by (apply Z.pow_pos_nonneg; lia).
  assert (HscQ : 0 < inject_Z sc).
  { change 0 with (inject_Z 0). rewrite <- Zlt_Qlt. exact Hsc. }
  assert (Hlo : (lo * sc <= round_half_even (x * inject_Z sc))%Z).
  { apply round_half_even_ge. rewrite inject_Z_mult.
    apply Qmult_le_compat_r; lra. }
  assert (Hhi : (round_half_even (x * inject_Z sc) <= hi * sc)%Z).
  { apply round_half_even_le. rewrite inject_Z_mult.
    apply Qmult_le_compat_r; lra. }
  rewrite Zle_Qle in Hlo, Hhi. rewrite inject_Z_mult in Hlo, Hhi.
  split.
  - apply Qle_shift_div_l; [exact HscQ | exact Hlo].
  - apply Qle_shift_div_r; [exact HscQ | exact Hhi].
Qed.
End PyNumFacts.

(* ================================================================== *)
(** * Facts about the pricing transform *)
(* ================================================================== *)

Section FrameFacts.
Variable F : Type.
Variable O : float_ops F.

Lemma range_len_length (A : Type) (df : list A) :
  List.length (range_len df) = List.length df.
Proof. unfold range_len. rewrite length_map, length_seq. reflexivity. Qed.

Lemma zip_rows_decay (strike : F) (df : list (prob_row F)) :
  forall ts ds,
    List.length ts = List.length df ->
    List.length ds = List.length df ->
    map (@decay_multiplier F) (zip_rows O strike df ts ds) = ds.
Proof.
  induction df as [|r df IH]; intros [|t ts] [|d ds] Ht Hd;
    simpl in *; try discriminate; try reflexivity.
  f_equal. apply IH; congruence.
Qed.

Lemma zip_rows_length (strike : F) (df : list (prob_row F)) :
  forall ts ds,
    List.length ts = List.length df ->
    List.length ds = List.length df ->
    List.length (zip_rows O strike df ts ds) = List.length df.
Proof.
  induction df as [|r df IH]; intros [|t ts] [|d ds] Ht Hd;
    simpl in *; try discriminate; try reflexivity.
  f_equal. apply IH; congruence.
Qed.

Lemma zip_rows_quoted (strike : F) (df : list (prob_row F)) :
  forall ts ds, Forall (quoted O strike) (zip_rows O strike df ts ds).
Proof.
  induction df as [|r df IH]; intros [|t ts] [|d ds]; simpl;
    try constructor; [split; reflexivity | apply IH].
Qed.

(** The decay column of the ledger's copy. *)
Lemma compute_decay_column (df : list (prob_row F)) (strike k : F) :
  map (@decay_multiplier F) (compute_option_prices_from_df O df strike k) =
  if (Z.of_nat (List.length df) - 1 =? 0)%Z
  then map (fun _ => f_of_Z O 1) (range_len df)
  else decay_column O k (range_len df) (Z.of_nat (List.length df) - 1).
Proof.
  unfold compute_option_prices_from_df.
  apply zip_rows_decay.
  - apply range_len_length.
  - destruct (_ =? _)%Z; unfold decay_column;
      rewrite length_map; apply range_len_length.
Qed.

(** The decay column of the stand-alone transform. *)
Lemma price_logic_decay_column (df : list (prob_row F)) (strike k : F) :
  map (@decay_multiplier F)
      (price_logic_compute_option_prices_from_df O df strike k) =
  decay_column O k (range_len df) (Z.of_nat (List.length df) - 1).
Proof.
  unfold price_logic_compute_option_prices_from_df.
  apply zip_rows_decay.
  - apply range_len_length.
  - unfold decay_column. rewrite length_map. apply range_len_length.
Qed.

(** With two rows or more (or none) the two transforms agree. *)
Lemma price_logic_agrees (df : list (prob_row F)) (strike k : F) :
  List.length df <> 1%nat ->
  price_logic_compute_option_prices_from_df O df strike k =
  compute_option_prices_from_df O df strike k.
Proof.
  intro H. unfold price_logic_compute_option_prices_from_df,
    compute_option_prices_from_df.
  destruct (Z.eqb_spec (Z.of_nat (List.length df) - 1) 0) as [E|E];
    [lia | reflexivity].
Qed.
End FrameFacts.

Module PricingFacts.
Import Reals Lra RealCarrier PricingProps.
Local Open Scope R_scope.

Lemma nth_map_seq (g : nat -> R) (n i : nat) (d : R) :
  (i < n)%nat -> nth i (map g (seq 0 n)) d = g i.
Proof.
  intro H. rewrite (nth_indep _ d (g 0%nat)) by (rewrite length_map, length_seq; exact H).
  rewrite map_nth. rewrite seq_nth by exact H. reflexivity.
Qed.

Lemma decay_nth (df : list (prob_row R)) (strike k : R) (i : nat) :
  (i < List.length df)%nat ->
  nth i (map (@decay_multiplier R)
             (compute_option_prices_from_df R_ops df strike k)) 0 =
  decay_at k (List.length df) i.
Proof.
  intro H. rewrite compute_decay_column. unfold decay_at.
  destruct (_ =? _)%Z; unfold decay_column, range_len; rewrite map_map;
    rewrite nth_map_seq by exact H; reflexivity.
Qed.

Lemma decay_at_zero (k : R) (n : nat) : decay_at k n 0 = 1.
Proof.
  unfold decay_at. destruct (_ =? _)%Z; [reflexivity|].
  simpl. unfold Rdiv. rewrite Rmult_0_l, Rmult_0_r. apply exp_0.
Qed.

Lemma decay_at_single (k : R) (i : nat) : decay_at k 1 i = 1.
Proof. reflexivity. Qed.

Lemma exp_le (x y : R) : x <= y -> exp x <= exp y.
Proof.
  intros [H|H]; [left; apply exp_increasing; exact H | right; congruence].
Qed.

Lemma decay_at_antitone (k : R) (n i j : nat) :
  0 < k -> (i <= j < n)%nat -> decay_at k n j <= decay_at k n i.
Proof.
  intros Hk [Hij Hjn]. unfold decay_at.
  destruct (Z.eqb_spec (Z.of_nat n - 1) 0) as [E|E]; [lra|].
  apply exp_le.
  assert (HT : 0 < IZR (Z.of_nat n - 1)) by (apply IZR_lt; lia).
  assert (Hle : IZR (Z.of_nat i) <= IZR (Z.of_nat j)) by (apply IZR_le; lia).
  assert (Hfrac : IZR (Z.of_nat i) / IZR (Z.of_nat n - 1)
                  <= IZR (Z.of_nat j) / IZR (Z.of_nat n - 1)).
  { unfold Rdiv. apply Rmult_le_compat_r; [|exact Hle].
    left. apply Rinv_0_lt_compat. exact HT. }
  nra.
Qed.

(** The ledger's copy of the transform ([PortfolioManager.
    compute_option_prices_from_df]) has the decay profile of the
    specification: for [decay_rate > 0] the multiplier does not increase
    along the rows (that is, in the elapsed fraction [t / T]), it is 1 on the
    first row, it is 1 on a one-row frame, and every row carries
    [bid = yes * (1 - strike) * decay] and
    [ask = (1 - no) * (1 - strike) * decay]. *)
Theorem ledger_decay_profile (df : list (prob_row R)) (strike k : R) :
  0 < k ->
  let rows := compute_option_prices_from_df R_ops df strike k in
  let decay i := nth i (map (@decay_multiplier R) rows) 0 in
  (forall i j, (i <= j < List.length df)%nat -> decay j <= decay i)
  /\ ((0 < List.length df)%nat -> decay 0%nat = 1)
  /\ (List.length df = 1%nat -> map (@decay_multiplier R) rows = [1])
  /\ Forall (quoted R_ops strike) rows.
Proof.
  intros Hk rows decay. subst rows decay. cbv beta.
  split; [|split; [|split]].
  - intros i j Hij. rewrite !decay_nth by lia.
    apply decay_at_antitone; assumption.
  - intro H. rewrite decay_nth by exact H. apply decay_at_zero.
  - intro H. rewrite compute_decay_column. rewrite H. simpl.
    destruct df as [|r [|r' df]]; try discriminate. reflexivity.
  - apply zip_rows_quoted.
Qed.

Lemma ledger_decay_profile_witness :
  0 < 1.5 /\
  nth 1 (map (@decay_multiplier R)
           (compute_option_prices_from_df R_ops
              [ {| yes_price := 0.6; no_price := 0.4 |};
                {| yes_price := 0.7; no_price := 0.3 |} ] 0.5 1.5)) 0
  <= nth 0 (map (@decay_multiplier R)
           (compute_option_prices_from_df R_ops
              [ {| yes_price := 0.6; no_price := 0.4 |};
                {| yes_price := 0.7; no_price := 0.3 |} ] 0.5 1.5)) 0.
Proof.
  assert (H : 0 < 1.5) by lra.
  split; [exact H|].
  exact (proj1 (ledger_decay_profile
                  [ {| yes_price := 0.6; no_price := 0.4 |};
                    {| yes_price := 0.7; no_price := 0.3 |} ] 0.5 H)
               0%nat 1%nat (conj (le_S _ _ (le_n 0)) (le_n 2))).
Defined.

(** C8, at the failing input.  On a frame with a single time sample the
    stand-alone transform of [price-logic.py] divides the index 0 by
    [T = 0]: its decay multiplier is NaN, not 1.  The ledger's copy, which
    tests [T == 0] first, gives 1 on the same frame. *)
Theorem price_logic_single_sample_decay_nan
        (r : prob_row (option R)) (strike k : option R) :
  map (@decay_multiplier (option R))
      (price_logic_compute_option_prices_from_df NaN_ops [r] strike k) = [None]
  /\ map (@decay_multiplier (option R))
         (compute_option_prices_from_df NaN_ops [r] strike k) = [Some 1].
Proof.
  split.
  - rewrite price_logic_decay_column. simpl.
    destruct (Req_dec_T 0 0) as [_|H]; [|contradiction H; reflexivity].
    destruct k; reflexivity.
  - rewrite compute_decay_column. reflexivity.
Qed.
End PricingFacts.

(* ================================================================== *)
(** * Facts about dictionaries *)
(* ================================================================== *)

Section DictFacts.
Variables K V : Type.
Variable eqb : K -> K -> bool.
Hypothesis eqb_refl : forall k, eqb k k = true.

Lemma dict_get_set_same (d : list (K * V)) (k : K) (v : V) :
  dict_get eqb (dict_set eqb d k v) k = Some v.
Proof.
  induction d as [|[k' v'] d IH]; simpl.
  - rewrite eqb_refl. reflexivity.
  - destruct (eqb k' k) eqn:E; simpl; rewrite E; [reflexivity | exact IH].
Qed.

Variable P : V -> Prop.

Lemma dict_set_Forall (d : list (K * V)) (k : K) (v : V) :
  Forall (fun kv => P (snd kv)) d -> P v ->
  Forall (fun kv => P (snd kv)) (dict_set eqb d k v).
Proof.
  intros Hd Hv. induction Hd as [|[k' v'] d Hx Hd IH]; simpl.
  - constructor; [exact Hv | constructor].
  - destruct (eqb k' k); constructor; auto.
Qed.

Lemma dict_get_Forall (d : list (K * V)) (k : K) (v : V) :
  Forall (fun kv => P (snd kv)) d -> dict_get eqb d k = Some v -> P v.
Proof.
  intros Hd. induction Hd as [|[k' v'] d Hx Hd IH]; simpl; [discriminate|].
  destruct (eqb k' k); [intro E; injection E as <-; exact Hx | exact IH].
Qed.

Lemma dict_get_In (d : list (K * V)) (k : K) (v : V) :
  dict_get eqb d k = Some v -> exists k', eqb k' k = true /\ In (k', v) d.
Proof.
  induction d as [|[k' v'] d IH]; simpl; [discriminate|].
  destruct (eqb k' k) eqn:E.
  - intro H. injection H as <-. exists k'. auto.
  - intro H. destruct (IH H) as (k'' & E' & Hin). exists k''. auto.
Qed.

Lemma dict_set_keys_present (d : list (K * V)) (k : K) (v v0 : V) :
  dict_get eqb d k = Some v0 ->
  dict_keys (dict_set eqb d k v) = dict_keys d.
Proof.
  unfold dict_keys.
  induction d as [|[k' v'] d IH]; simpl; [discriminate|].
  destruct (eqb k' k); simpl; [reflexivity|].
  intro H. rewrite (IH H). reflexivity.
Qed.
End DictFacts.

Section StringDictFacts.
Variable V : Type.

Lemma dict_get_set_other (d : list (string * V)) (k k' : string) (v : V) :
  k <> k' ->
  dict_get String.eqb (dict_set String.eqb d k v) k' = dict_get String.eqb d k'.
Proof.
  intro Hne. induction d as [|[k0 v0] d IH]; simpl.
  - destruct (String.eqb_spec k k'); [contradiction | reflexivity].
  - destruct (String.eqb_spec k0 k) as [->|E]; simpl.
    + destruct (String.eqb_spec k k'); [contradiction | reflexivity].
    + rewrite IH. reflexivity.
Qed.
End StringDictFacts.

(* ================================================================== *)
(** * Facts about the ledger *)
(* ================================================================== *)

Module LedgerFacts.
Import PyNum PyNumFacts PortfolioManager LedgerProps Lqa.
Local Open Scope Q_scope.

(** ** The small updates *)

Lemma update_cash_eq (s : t) (uid : string) (f : Q -> Q) (u : User) :
  users_get s uid = Some u ->
  update_cash s uid f =
  set_users s (dict_set String.eqb (users s) uid
                 (set_current_cash u (f (current_cash u)))).
Proof.
  intro H. unfold update_cash, write_cash. rewrite H. reflexivity.
Qed.

Lemma write_position_eq (s : t) (uid : string) (k : Q) (p : Position.t)
      (b : book) :
  positions_get s uid = Some b ->
  write_position s uid k p =
  set_positions s (dict_set String.eqb (positions s) uid (dict_set Qeqb b k p)).
Proof.
  intro H. unfold write_position. rewrite H. reflexivity.
Qed.

Lemma update_position_eq (s : t) (uid : string) (k : Q)
      (f : Position.t -> Position.t) (b : book) (p : Position.t) :
  positions_get s uid = Some b -> book_get b k = Some p ->
  update_position s uid k f =
  set_positions s (dict_set String.eqb (positions s) uid (dict_set Qeqb b k (f p))).
Proof.
  intros Hb Hp. unfold update_position. rewrite Hb, Hp.
  apply write_position_eq. exact Hb.
Qed.

Lemma book_with_get (bk : book) (uid : string) (k : Q) :
  book_get (book_with bk uid k) k = Some (book_get_default bk uid k).
Proof.
  unfold book_with, book_get_default, dict_mem, book_get.
  destruct (dict_get Qeqb bk k) eqn:E; [exact E|].
  apply dict_get_set_same. exact Qeqb_refl.
Qed.

(** The state after the two updates of an accepted trade, in closed form. *)
Lemma apply_trade_eq (s : t) (uid : string) (k : Q) (bk : book)
      (ty : TradeType) (total : Q) (tr : Trade.t) (u : User) :
  users_get s uid = Some u ->
  positions_get s uid = Some bk ->
  let cash' := match ty with
               | BUY => current_cash u - total
               | SELL => current_cash u + total
               end in
  let us' := dict_set String.eqb (users s) uid (set_current_cash u cash') in
  let b' := dict_set Qeqb (book_with bk uid k) k
              (Position.add_trade (book_get_default bk uid k) tr) in
  users (apply_trade s uid k bk ty total tr) = us'
  /\ positions_get (apply_trade s uid k bk ty total tr) uid = Some b'
  /\ (exists ps0,
        positions (apply_trade s uid k bk ty total tr) =
          dict_set String.eqb ps0 uid b'
        /\ (ps0 = positions s
            \/ ps0 = dict_set String.eqb (positions s) uid (book_with bk uid k)))
  /\ current_market_data (apply_trade s uid k bk ty total tr) = current_market_data s
  /\ current_option_prices (apply_trade s uid k bk ty total tr) = current_option_prices s
  /\ market_resolved (apply_trade s uid k bk ty total tr) = market_resolved s
  /\ final_market_price (apply_trade s uid k bk ty total tr) = final_market_price s.
Proof.
  intros Hu Hb cash' us' b'.
  unfold apply_trade.
  set (s1 := match ty with
             | BUY => update_cash s uid (fun c => c - total)
             | SELL => update_cash s uid (fun c => c + total)
             end).
  assert (Es1 : s1 = set_users s us').
  { subst s1 us' cash'. destruct ty; rewrite (update_cash_eq _ _ _ Hu); reflexivity. }
  rewrite Es1.
  assert (Hb1 : positions_get (set_users s us') uid = Some bk) by exact Hb.
  pose proof (book_with_get bk uid k) as Hcur.
  unfold book_with in *.
  destruct (dict_mem Qeqb bk k) eqn:Em.
  - rewrite (update_position_eq _ _ _ _ Hb1 Hcur). simpl.
    repeat split; try reflexivity.
    + unfold positions_get. simpl. apply dict_get_set_same. exact String.eqb_refl.
    + exists (positions s). split; [reflexivity | left; reflexivity].
  - rewrite (write_position_eq _ _ _ _ Hb1).
    set (s2 := set_positions _ _).
    assert (Hb2 : positions_get s2 uid =
                  Some (dict_set Qeqb bk k (Position.init uid k))).
    { subst s2. unfold positions_get. simpl.
      apply dict_get_set_same. exact String.eqb_refl. }
    rewrite (update_position_eq _ _ _ _ Hb2 Hcur). subst s2. simpl.
    repeat split; try reflexivity.
    + unfold positions_get. simpl. apply dict_get_set_same. exact String.eqb_refl.
    + eexists. split; [reflexivity | right; reflexivity].
Qed.

(** The state after the rollback, in closed form. *)
Lemma rollback_trade_eq (s : t) (uid : string) (k : Q) (ty : TradeType)
      (total : Q) (u : User) (b : book) (p : Position.t) :
  users_get s uid = Some u ->
  positions_get s uid = Some b ->
  book_get b k = Some p ->
  let cash' := match ty with
               | BUY => current_cash u + total
               | SELL => current_cash u - total
               end in
  rollback_trade s uid k ty total =
  set_positions
    (set_users s (dict_set String.eqb (users s) uid (set_current_cash u cash')))
    (dict_set String.eqb (positions s) uid
       (dict_set Qeqb b k (rollback_position p))).
Proof.
  intros Hu Hb Hp cash'. unfold rollback_trade.
  set (s1 := match ty with
             | BUY => update_cash s uid (fun c => c + total)
             | SELL => update_cash s uid (fun c => c - total)
             end).
  assert (Es1 : s1 = set_users s (dict_set String.eqb (users s) uid
                                    (set_current_cash u cash'))).
  { subst s1 cash'. destruct ty; rewrite (update_cash_eq _ _ _ Hu); reflexivity. }
  rewrite Es1.
  rewrite (@update_position_eq _ uid k rollback_position b p); [reflexivity| |exact Hp].
  exact Hb.
Qed.

(** The rollback right after the two updates. *)
Lemma rollback_applied (s : t) (uid : string) (k : Q) (bk : book)
      (ty : TradeType) (total : Q) (tr : Trade.t) (u : User) :
  users_get s uid = Some u ->
  positions_get s uid = Some bk ->
  let s' := apply_trade s uid k bk ty total tr in
  let cash' := match ty with
               | BUY => current_cash u - total
               | SELL => current_cash u + total
               end in
  let cash'' := match ty with
                | BUY => cash' + total
                | SELL => cash' - total
                end in
  let cur := book_get_default bk uid k in
  let b' := dict_set Qeqb (book_with bk uid k) k (Position.add_trade cur tr) in
  rollback_trade s' uid k ty total =
  set_positions
    (set_users s' (dict_set String.eqb (users s') uid
                     (set_current_cash (set_current_cash u cash') cash'')))
    (dict_set String.eqb (positions s') uid
       (dict_set Qeqb b' k (rollback_position (Position.add_trade cur tr)))).
Proof.
  intros Hu Hb s' cash' cash'' cur b'.
  destruct (apply_trade_eq s uid k ty total tr Hu Hb) as (Hus & Hget & _).
  assert (Hu' : users_get s' uid = Some (set_current_cash u cash')).
  { unfold users_get. subst s'. rewrite Hus.
    apply dict_get_set_same. exact String.eqb_refl. }
  assert (Hp : book_get b' k = Some (Position.add_trade cur tr)).
  { apply dict_get_set_same. exact Qeqb_refl. }
  rewrite (@rollback_trade_eq s' uid k ty total _ b' _ Hu' Hget Hp).
  subst cash''. destruct ty; reflexivity.
Qed.

(** Undoing the last trade of a position. *)
Lemma rollback_add_trade (p : Position.t) (tr : Trade.t) :
  rollback_position (Position.add_trade p tr) =
  {| Position.user_id := Position.user_id p;
     Position.strike_price := Position.strike_price p;
     Position.quantity := fold_quantity (Position.trades p);
     Position.total_cost_basis := fold_cost (Position.trades p);
     Position.trades := Position.trades p;
     Position.status := Position.status p;
     Position.settlement_value := Position.settlement_value p |}.
Proof.
  unfold rollback_position, fold_quantity, fold_cost.
  assert (Htr : Position.trades (Position.add_trade p tr) = Position.trades p ++ [tr]).
  { unfold Position.add_trade. destruct (Trade.trade_type tr); reflexivity. }
  rewrite Htr. rewrite length_app. simpl.
  replace (0 <? List.length (Position.trades p) + 1)%nat with true
    by (symmetry; apply Nat.ltb_lt; lia).
  rewrite removelast_last.
  unfold Position.add_trade. destruct (Trade.trade_type tr); reflexivity.
Qed.

(** ** What [execute_trade] can do *)

Lemma price_trade_priced (s : t) (u : User) (cur : Position.t) (k : Q) (q : Z)
      (ty : TradeType) (price total : Q) :
  price_trade s u cur k q ty = Priced price total ->
  get_option_price s k (quote_side ty) = Return price
  /\ total = inject_Z q * price
  /\ (ty = BUY -> total <= current_cash u)
  /\ (ty = SELL -> (q <= Position.quantity cur)%Z).
Proof.
  unfold price_trade. destruct ty; simpl.
  - destruct (get_option_price s k Ask) as [p|ex]; [|discriminate].
    case_Qltb (current_cash u) (inject_Z q * p); [discriminate|].
    intro H. injection H as <- <-. repeat split; auto; discriminate.
  - destruct (get_option_price s k Bid) as [p|ex]; [|discriminate].
    destruct (Z.ltb_spec (Position.quantity cur) q) as [Hlt|Hge]; [discriminate|].
    intro H. injection H as <- <-. repeat split; auto; discriminate.
Qed.

Lemma price_trade_rejected (s : t) (u : User) (cur : Position.t) (k : Q) (q : Z)
      (ty : TradeType) (m : message) :
  price_trade s u cur k q ty = Rejected m ->
  forall err, m <> DatabaseError err.
Proof.
  unfold price_trade. destruct ty.
  - destruct (get_option_price s k Ask) as [p|ex];
      [destruct (Qltb _ _)|]; intro H; try discriminate;
      injection H as <-; discriminate.
  - destruct (get_option_price s k Bid) as [p|ex];
      [destruct (_ <? _)%Z|]; intro H; try discriminate;
      injection H as <-; discriminate.
Qed.

(** A rejection that leaves the state alone and is not a database error. *)
Ltac rejected :=
  left; eexists; split; [reflexivity | intros; discriminate].

(** Every call of [execute_trade] either leaves the state as it was (a
    rejection before any update, or an exception), or goes through the two
    updates and then, depending on the database, commits or rolls back. *)
Lemma execute_trade_outcome (s : t) (uid : string) (k : Q) (q : Z)
      (ty : TradeType) (e : env) :
  (exists m, execute_trade s uid k q ty e = (Return (false, m), s)
             /\ forall err, m <> DatabaseError err)
  \/ (exists ex, execute_trade s uid k q ty e = (Raise ex, s))
  \/ (exists u bk price total cmp,
        users_get s uid = Some u
        /\ positions_get s uid = Some bk
        /\ market_resolved s = false
        /\ (0 < q)%Z
        /\ price_trade s u (book_get_default bk uid k) k q ty = Priced price total
        /\ 0 < price
        /\ execute_trade s uid k q ty e =
           let s' := apply_trade s uid k bk ty total
                       (trade_of uid k q ty e price total cmp) in
           match db_exception e with
           | None => (Return (true, TradeExecutedSuccessfully), s')
           | Some err =>
               (Return (false, DatabaseError err),
                rollback_trade s' uid k ty total)
           end).
Proof.
  unfold execute_trade.
  destruct (users_get s uid) as [u|] eqn:Hu; [|rejected].
  destruct (market_resolved s) eqn:Hres; [rejected|].
  destruct (Z.leb_spec q 0) as [Hq|Hq]; [rejected|].
  destruct (current_option_prices s) as [table|] eqn:Ht; [|rejected].
  destruct (calculate_position_limit s uid k) as [limit|ex]; [|rejected].
  destruct (positions_get s uid) as [bk|] eqn:Hb; [|right; left; eauto].
  destruct (_ && _); [rejected|].
  destruct (price_trade s u (book_get_default bk uid k) k q ty)
    as [price total|m] eqn:Hp;
    [|left; exists m; split; [reflexivity | exact (price_trade_rejected _ _ _ _ _ _ Hp)]].
  destruct (Qleb price 0) eqn:Hpos; [rejected|].
  apply Qleb_false in Hpos.
  destruct (current_market_data s) as [md|] eqn:Hmd; [|rejected].
  destruct (iloc_last md) as [cmp|ex] eqn:Hl; [|right; left; eauto].
  right; right. exists u, bk, price, total, cmp.
  repeat split; auto.
Qed.

(** ** Positions and their trade lists *)

Lemma py_sum_Z_app (l : list Z) (x : Z) :
  py_sum_Z (l ++ [x]) = (py_sum_Z l + x)%Z.
Proof. unfold py_sum_Z. rewrite fold_left_app. reflexivity. Qed.

Lemma fold_quantity_app (l : list Trade.t) (tr : Trade.t) :
  fold_quantity (l ++ [tr]) = (fold_quantity l + signed_quantity tr)%Z.
Proof. unfold fold_quantity. rewrite map_app. apply py_sum_Z_app. Qed.

Lemma add_trade_quantity (p : Position.t) (tr : Trade.t) :
  Position.quantity (Position.add_trade p tr) =
  (Position.quantity p + signed_quantity tr)%Z.
Proof.
  unfold Position.add_trade, signed_quantity.
  destruct (Trade.trade_type tr); simpl; lia.
Qed.

Lemma add_trade_trades (p : Position.t) (tr : Trade.t) :
  Position.trades (Position.add_trade p tr) = Position.trades p ++ [tr].
Proof. unfold Position.add_trade. destruct (Trade.trade_type tr); reflexivity. Qed.

(** [add_trade] keeps the net quantity equal to the fold of the trades. *)
Lemma add_trade_fold (p : Position.t) (tr : Trade.t) :
  Position.quantity p = fold_quantity (Position.trades p) ->
  Position.quantity (Position.add_trade p tr) =
  fold_quantity (Position.trades (Position.add_trade p tr)).
Proof.
  intro H. rewrite add_trade_quantity, add_trade_trades, fold_quantity_app.
  rewrite H. reflexivity.
Qed.

Lemma position_ok_init (uid : string) (k : Q) : position_ok (Position.init uid k).
Proof. split; [reflexivity | simpl; lia]. Qed.

Lemma position_ok_rollback (p : Position.t) (tr : Trade.t) :
  position_ok p -> position_ok (rollback_position (Position.add_trade p tr)).
Proof.
  intros [Hf Hq]. rewrite rollback_add_trade. split; simpl; [reflexivity|].
  rewrite <- Hf. exact Hq.
Qed.

Lemma book_ok_default (bk : book) (uid : string) (k : Q) :
  book_ok bk -> position_ok (book_get_default bk uid k).
Proof.
  intro H. unfold book_get_default, book_get.
  destruct (dict_get Qeqb bk k) as [p|] eqn:E.
  - exact (dict_get_Forall _ _ _ H E).
  - apply position_ok_init.
Qed.

Lemma book_ok_with (bk : book) (uid : string) (k : Q) :
  book_ok bk -> book_ok (book_with bk uid k).
Proof.
  intro H. unfold book_with. destruct (dict_mem Qeqb bk k); [exact H|].
  apply dict_set_Forall; [exact H | apply position_ok_init].
Qed.

(** The position an accepted trade leaves. *)
Lemma position_ok_traded (s : t) (u : User) (cur : Position.t) (uid : string)
      (k : Q) (q : Z) (ty : TradeType) (e : env) (price total cmp : Q) :
  position_ok cur -> (0 < q)%Z ->
  price_trade s u cur k q ty = Priced price total ->
  position_ok (Position.add_trade cur (trade_of uid k q ty e price total cmp)).
Proof.
  intros [Hf Hq] Hpos Hp.
  destruct (price_trade_priced _ _ _ _ _ _ Hp) as (_ & _ & _ & Hsell).
  split; [apply add_trade_fold; exact Hf|].
  rewrite add_trade_quantity. unfold signed_quantity, trade_of; simpl.
  destruct ty; [lia|]. specialize (Hsell eq_refl). lia.
Qed.

(** ** The two invariants, one call at a time *)

Lemma execute_trade_ledger_ok (s : t) (uid : string) (k : Q) (q : Z)
      (ty : TradeType) (e : env) :
  ledger_ok s -> ledger_ok (snd (execute_trade s uid k q ty e)).
Proof.
  intro Hs.
  destruct (execute_trade_outcome s uid k q ty e)
    as [(m & -> & _)|[(ex & ->)|(u & bk & price & total & cmp &
                                  Hu & Hb & Hres & Hq & Hp & Hpos & ->)]];
    try exact Hs.
  set (tr := trade_of uid k q ty e price total cmp).
  destruct (apply_trade_eq s uid k ty total tr Hu Hb)
    as (Hus & Hget & (ps0 & Hps & Hps0) & _).
  assert (Hbk : book_ok bk) by exact (dict_get_Forall _ _ _ Hs Hb).
  assert (Hcur : position_ok (Position.add_trade (book_get_default bk uid k) tr)).
  { eapply position_ok_traded; [apply book_ok_default; exact Hbk | exact Hq | exact Hp]. }
  assert (Hb' : book_ok (dict_set Qeqb (book_with bk uid k) k
                           (Position.add_trade (book_get_default bk uid k) tr))).
  { apply dict_set_Forall; [apply book_ok_with; exact Hbk | exact Hcur]. }
  assert (Happlied : ledger_ok (apply_trade s uid k bk ty total tr)).
  { unfold ledger_ok. rewrite Hps. apply dict_set_Forall; [|exact Hb'].
    destruct Hps0 as [->| ->]; [exact Hs|].
    apply dict_set_Forall; [exact Hs | apply book_ok_with; exact Hbk]. }
  cbv zeta. destruct (db_exception e) as [err|]; simpl; [|exact Happlied].
  rewrite (rollback_applied s uid k ty total tr Hu Hb).
  unfold ledger_ok. simpl.
  apply dict_set_Forall; [exact Happlied|].
  apply dict_set_Forall; [exact Hb'|].
  apply position_ok_rollback. apply book_ok_default. exact Hbk.
Qed.

Lemma execute_trade_cash_nonneg (s : t) (uid : string) (k : Q) (q : Z)
      (ty : TradeType) (e : env) :
  cash_nonneg s -> cash_nonneg (snd (execute_trade s uid k q ty e)).
Proof.
  intro Hs.
  destruct (execute_trade_outcome s uid k q ty e)
    as [(m & -> & _)|[(ex & ->)|(u & bk & price & total & cmp &
                                  Hu & Hb & Hres & Hq & Hp & Hpos & ->)]];
    try exact Hs.
  set (tr := trade_of uid k q ty e price total cmp).
  destruct (apply_trade_eq s uid k ty total tr Hu Hb)
    as (Hus & Hget & _).
  destruct (price_trade_priced _ _ _ _ _ _ Hp) as (_ & Htot & Hbuy & _).
  assert (Hcash : solvent u) by exact (dict_get_Forall _ _ _ Hs Hu).
  unfold solvent in Hcash.
  assert (Htotal : 0 <= total).
  { rewrite Htot. apply Qmult_le_0_compat; [|lra].
    change 0 with (inject_Z 0). rewrite <- Zle_Qle. lia. }
  assert (Happlied : cash_nonneg (apply_trade s uid k bk ty total tr)).
  { unfold cash_nonneg. rewrite Hus. apply dict_set_Forall; [exact Hs|].
    unfold solvent. simpl. destruct ty; [specialize (Hbuy eq_refl)|]; lra. }
  cbv zeta. destruct (db_exception e) as [err|]; simpl; [|exact Happlied].
  rewrite (rollback_applied s uid k ty total tr Hu Hb).
  unfold cash_nonneg. simpl.
  apply dict_set_Forall; [exact Happlied|].
  unfold solvent. simpl. destruct ty; lra.
Qed.

(** ** Market updates *)

Lemma update_market_data_frame (np_exp : Q -> Q) (s : t) (df : list Q) :
  users (snd (update_market_data np_exp s df)) = users s
  /\ positions (snd (update_market_data np_exp s df)) = positions s
  /\ market_resolved (snd (update_market_data np_exp s df)) = market_resolved s.
Proof.
  unfold update_market_data.
  destruct (iloc_last df); [destruct (quote_strikes _ _ _)|]; simpl; auto.
Qed.

Lemma quote_strikes_strikes (np_exp : Q -> Q) (df : list (prob_row Q)) :
  forall ks qs, quote_strikes np_exp df ks = Return qs -> map strike qs = ks.
Proof.
  induction ks as [|k ks IH]; simpl; intros qs H.
  - injection H as <-. reflexivity.
  - unfold bind in H.
    destruct (quote_strike np_exp df k) as [q0|] eqn:Eq; [|discriminate].
    destruct (quote_strikes np_exp df ks) as [qs'|]; [|discriminate].
    injection H as <-. simpl. f_equal; [|apply IH; reflexivity].
    unfold quote_strike, bind in Eq.
    destruct (iloc_first _) ; [|discriminate].
    destruct (iloc_first _) ; [|discriminate].
    injection Eq as <-. reflexivity.
Qed.

Lemma update_market_data_quotes_fixed (np_exp : Q -> Q) (s : t) (df : list Q) :
  quotes_fixed s -> quotes_fixed (snd (update_market_data np_exp s df)).
Proof.
  intro H. unfold update_market_data.
  destruct (iloc_last df) as [latest|]; [|exact H].
  destruct (quote_strikes _ _ _) as [qs|] eqn:E; [|exact H].
  apply quote_strikes_strikes in E.
  unfold quotes_fixed. simpl.
  apply Forall_forall. intros r Hr. exists (strike r). split; [|reflexivity].
  rewrite <- E. apply in_map. exact Hr.
Qed.

Lemma execute_trade_quotes (s : t) (uid : string) (k : Q) (q : Z)
      (ty : TradeType) (e : env) :
  current_option_prices (snd (execute_trade s uid k q ty e)) =
  current_option_prices s.
Proof.
  destruct (execute_trade_outcome s uid k q ty e)
    as [(m & -> & _)|[(ex & ->)|(u & bk & price & total & cmp &
                                  Hu & Hb & Hres & Hq & Hp & Hpos & ->)]];
    try reflexivity.
  set (tr := trade_of uid k q ty e price total cmp).
  destruct (apply_trade_eq s uid k ty total tr Hu Hb)
    as (Hus & Hget & _ & _ & Hq' & _).
  cbv zeta. destruct (db_exception e) as [err|]; simpl; [|exact Hq'].
  rewrite (rollback_applied s uid k ty total tr Hu Hb).
  simpl. exact Hq'.
Qed.

(** ** Sessions *)

Section Sessions.
Variable np_exp : Q -> Q.

Lemma session_invariant (I : t -> Prop) :
  (forall s r, I s -> I (serve np_exp s r)) ->
  forall rs s, I s -> I (session np_exp rs s).
Proof.
  intros Hstep. unfold session.
  induction rs as [|r rs IH]; simpl; intros s Hs; [exact Hs|].
  apply IH. apply Hstep. exact Hs.
Qed.

Lemma session_ledger_ok (rs : list request) (s : t) :
  ledger_ok s -> ledger_ok (session np_exp rs s).
Proof.
  apply session_invariant. clear. intros s [df|uid k q ty e] H; simpl.
  - unfold ledger_ok.
    destruct (update_market_data_frame np_exp s df) as (_ & -> & _). exact H.
  - apply execute_trade_ledger_ok. exact H.
Qed.

Lemma session_cash_nonneg (rs : list request) (s : t) :
  cash_nonneg s -> cash_nonneg (session np_exp rs s).
Proof.
  apply session_invariant. clear. intros s [df|uid k q ty e] H; simpl.
  - unfold cash_nonneg.
    destruct (update_market_data_frame np_exp s df) as (-> & _). exact H.
  - apply execute_trade_cash_nonneg. exact H.
Qed.

Lemma session_quotes_fixed (rs : list request) (s : t) :
  quotes_fixed s -> quotes_fixed (session np_exp rs s).
Proof.
  apply session_invariant. clear. intros s [df|uid k q ty e] H; simpl.
  - apply update_market_data_quotes_fixed. exact H.
  - unfold quotes_fixed. rewrite execute_trade_quotes. exact H.
Qed.
End Sessions.

(** ** Accepted trades *)

Lemma accepted_trade (s s' : t) (uid : string) (k : Q) (q : Z)
      (ty : TradeType) (e : env) (m : message) :
  execute_trade s uid k q ty e = (Return (true, m), s') ->
  exists u bk price cmp,
    users_get s uid = Some u
    /\ positions_get s uid = Some bk
    /\ (0 < q)%Z
    /\ 0 < price
    /\ price_trade s u (book_get_default bk uid k) k q ty
       = Priced price (inject_Z q * price)
    /\ s' = apply_trade s uid k bk ty (inject_Z q * price)
              (trade_of uid k q ty e price (inject_Z q * price) cmp).
Proof.
  intro H.
  destruct (execute_trade_outcome s uid k q ty e)
    as [(m' & E & _)|[(ex & E)|(u & bk & price & total & cmp &
                                 Hu & Hb & Hres & Hq & Hp & Hpos & E)]];
    rewrite E in H; try discriminate.
  cbv zeta in H. destruct (db_exception e); [discriminate|].
  injection H as _ <-.
  destruct (price_trade_priced _ _ _ _ _ _ Hp) as (_ & -> & _).
  exists u, bk, price, cmp. auto 10.
Qed.

(** C4.  No accepted BUY leaves the buyer's cash negative.  In every state
    a session of market updates and trade requests reaches from a state
    with no negative balance, no balance is negative; and a BUY accepted
    there found the buyer's cash at least [quantity * ask], took exactly
    that amount from it, and left every balance nonnegative. *)
Theorem no_negative_cash_trades (np_exp : Q -> Q) (rs : list request)
        (s0 : t) :
  cash_nonneg s0 ->
  let s := session np_exp rs s0 in
  cash_nonneg s
  /\ forall uid k q e m s',
      execute_trade s uid k q BUY e = (Return (true, m), s') ->
      exists u price,
        users_get s uid = Some u
        /\ get_option_price s k Ask = Return price
        /\ inject_Z q * price <= current_cash u
        /\ users_get s' uid =
           Some (set_current_cash u (current_cash u - inject_Z q * price))
        /\ 0 <= current_cash u - inject_Z q * price
        /\ cash_nonneg s'.
Proof.
  intros H0 s.
  assert (Hs : cash_nonneg s) by (apply session_cash_nonneg; exact H0).
  split; [exact Hs|].
  intros uid k q e m s' H.
  pose proof (execute_trade_cash_nonneg uid k q BUY e Hs) as Hs'.
  rewrite H in Hs'. simpl in Hs'.
  apply accepted_trade in H
    as (u & bk & price & cmp & Hu & Hb & Hq & Hpos & Hp & ->).
  destruct (price_trade_priced _ _ _ _ _ _ Hp) as (Hget & _ & Hbuy & _).
  specialize (Hbuy eq_refl).
  destruct (apply_trade_eq s uid k BUY (inject_Z q * price)
              (trade_of uid k q BUY e price (inject_Z q * price) cmp) Hu Hb)
    as (Hus & _).
  exists u, price. repeat split; auto.
  - unfold users_get. rewrite Hus. apply dict_get_set_same. exact String.eqb_refl.
  - lra.
Qed.

(** C5.  No naked shorts.  Starting from a ledger whose positions were
    all built from their trades and are not short (an empty ledger, for
    one), every state of a session keeps every net quantity nonnegative;
    and a SELL accepted there sold at most the quantity held and left the
    net quantity, reduced by the quantity sold, nonnegative. *)
Theorem no_naked_shorts (np_exp : Q -> Q) (rs : list request) (s0 : t) :
  ledger_ok s0 ->
  let s := session np_exp rs s0 in
  (forall uid b k p,
      positions_get s uid = Some b -> book_get b k = Some p ->
      (0 <= Position.quantity p)%Z)
  /\ forall uid k q e m s',
      execute_trade s uid k q SELL e = (Return (true, m), s') ->
      exists b p b' p',
        positions_get s uid = Some b
        /\ book_get b k = Some p
        /\ (q <= Position.quantity p)%Z
        /\ positions_get s' uid = Some b'
        /\ book_get b' k = Some p'
        /\ Position.quantity p' = (Position.quantity p - q)%Z
        /\ (0 <= Position.quantity p')%Z.
Proof.
  intros H0 s.
  assert (Hs : ledger_ok s) by (apply session_ledger_ok; exact H0).
  split.
  - intros uid b k p Hb Hp.
    assert (Hbk : book_ok b) by exact (dict_get_Forall _ _ _ Hs Hb).
    exact (proj2 (dict_get_Forall _ _ _ Hbk Hp)).
  - intros uid k q e m s' H.
    apply accepted_trade in H
      as (u & bk & price & cmp & Hu & Hb & Hq & Hpos & Hp & ->).
    destruct (price_trade_priced _ _ _ _ _ _ Hp) as (_ & _ & _ & Hsell).
    specialize (Hsell eq_refl).
    destruct (apply_trade_eq s uid k SELL (inject_Z q * price)
                (trade_of uid k q SELL e price (inject_Z q * price) cmp) Hu Hb)
      as (_ & Hget & _).
    unfold book_get_default in *.
    destruct (book_get bk k) as [p|] eqn:Ep; [|simpl in Hsell; lia].
    eexists bk, p, _, _. repeat split; eauto.
    + apply dict_get_set_same. exact Qeqb_refl.
    + rewrite add_trade_quantity. unfold signed_quantity. simpl. lia.
    + rewrite add_trade_quantity. unfold signed_quantity. simpl. lia.
Qed.

(** A ledger without positions is in order. *)
Lemma ledger_ok_no_positions (s : t) :
  Forall (fun ub => snd ub = []) (positions s) -> ledger_ok s.
Proof.
  unfold ledger_ok. apply Forall_impl. intros [uid b] E. simpl in *.
  rewrite E. constructor.
Qed.

(** ** Unknown strikes *)

Lemma unknown_strike_not_quoted (s : t) (k : Q) (sd : side) :
  quotes_fixed s -> ~ known_strike k ->
  exists ex, get_option_price s k sd = Raise ex.
Proof.
  intros Hq Hk. unfold get_option_price. unfold quotes_fixed in Hq.
  destruct (current_option_prices s) as [table|]; [|eauto].
  destruct (current_market_data s); [|eauto].
  assert (E : filter (fun r => Qeqb (strike r) k) table = []).
  { induction Hq as [|r table Hr Hq IH]; [reflexivity|]. simpl.
    destruct (Qeqb (strike r) k) eqn:Er; [|exact IH].
    exfalso. apply Hk. apply Qeqb_true in Er.
    destruct Hr as (k0 & Hin & E0). exists k0. split; [exact Hin|].
    rewrite E0. exact Er. }
  rewrite E. eauto.
Qed.

(** C9.  A strike outside the fixed list of [update_market_data] is never
    traded.  In every state a session reaches from a state whose quotes,
    if any, are for strikes of the list, [execute_trade] on such a strike
    returns [(False, reason)] and leaves the whole state, cash and
    positions included, as it was, whatever the user, quantity and side. *)
Theorem unknown_strike_rejected (np_exp : Q -> Q) (rs : list request)
        (s0 : t) (uid : string) (k : Q) (q : Z) (ty : TradeType) (e : env) :
  quotes_fixed s0 ->
  ~ known_strike k ->
  let s := session np_exp rs s0 in
  exists m, execute_trade s uid k q ty e = (Return (false, m), s).
Proof.
  intros H0 Hk s.
  assert (Hs : quotes_fixed s) by (apply session_quotes_fixed; exact H0).
  destruct (@unknown_strike_not_quoted s k Ask Hs Hk) as (ex & Hex).
  unfold execute_trade.
  destruct (users_get s uid) as [u|] eqn:Hu; [|eauto].
  destruct (market_resolved s); [eauto|].
  destruct (q <=? 0)%Z; [eauto|].
  destruct (current_option_prices s); [|eauto].
  unfold calculate_position_limit. rewrite Hu, Hex. simpl. eauto.
Qed.

(** [np.exp] plays no part in a market update. *)
Lemma update_market_data_exp_irrelevant (e1 e2 : Q -> Q) (s : t) (df : list Q) :
  update_market_data e1 s df = update_market_data e2 s df.
Proof.
  unfold update_market_data. destruct (iloc_last df); reflexivity.
Qed.

(** ** Witnesses on the scenario *)

Lemma fresh_cash_nonneg : cash_nonneg Scenario.fresh.
Proof.
  repeat constructor. unfold solvent. simpl. unfold Qle. simpl. lia.
Defined.

Lemma fresh_ledger_ok : ledger_ok Scenario.fresh.
Proof. repeat constructor. Defined.

Lemma no_negative_cash_trades_witness :
  cash_nonneg Scenario.fresh /\ cash_nonneg Scenario.after_trades.
Proof.
  split; [exact fresh_cash_nonneg|].
  exact (proj1 (@no_negative_cash_trades Scenario.np_exp Scenario.buy_then_sell
                  Scenario.fresh fresh_cash_nonneg)).
Defined.

Lemma no_naked_shorts_witness :
  ledger_ok Scenario.fresh
  /\ forall uid b k p,
      positions_get Scenario.after_trades uid = Some b ->
      book_get b k = Some p -> (0 <= Position.quantity p)%Z.
Proof.
  split; [exact fresh_ledger_ok|].
  exact (proj1 (@no_naked_shorts Scenario.np_exp Scenario.buy_then_sell
                  Scenario.fresh fresh_ledger_ok)).
Defined.

Lemma strike_055_unknown : ~ known_strike 0.55.
Proof.
  intros (k0 & Hin & E). simpl in Hin.
  repeat (destruct Hin as [<-|Hin]; [vm_compute in E; discriminate|]).
  exact Hin.
Defined.

Lemma unknown_strike_rejected_witness :
  quotes_fixed Scenario.fresh /\ ~ known_strike 0.55 /\
  exists m,
    execute_trade Scenario.after_trades "u-alice"%string 0.55 1 BUY
                  (Scenario.saved "t3" 3)
    = (Return (false, m), Scenario.after_trades).
Proof.
  split; [exact I|]. split; [exact strike_055_unknown|].
  exact (@unknown_strike_rejected Scenario.np_exp Scenario.buy_then_sell
           Scenario.fresh "u-alice"%string 0.55 1 BUY (Scenario.saved "t3" 3)
           I strike_055_unknown).
Defined.

(** ** Position derivability *)

(** What [add_trade] maintains as cost basis: every trade adds the
    magnitude it stores, since a SELL subtracts a total cost that
    [execute_trade] has already negated. *)
Lemma add_trade_cost_basis (p : Position.t) (tr : Trade.t) :
  Position.total_cost_basis (Position.add_trade p tr) =
  match Trade.trade_type tr with
  | BUY => Position.total_cost_basis p + Trade.total_cost tr
  | SELL => Position.total_cost_basis p - Trade.total_cost tr
  end.
Proof. unfold Position.add_trade. destruct (Trade.trade_type tr); reflexivity. Qed.

(** C2, at the failing input.  Alice buys 10 contracts of strike 0.5 at
    0.30 and sells 3 of them at 0.30.  The net quantity, 7, is the fold of
    the two trades; the maintained cost basis is 3.9, while the sum of the
    trades' signed total costs (3.0 and -0.9) is 2.1. *)
Theorem cost_basis_is_not_the_signed_fold :
  exists b p,
    positions_get Scenario.after_trades "u-alice" = Some b
    /\ book_get b 0.5 = Some p
    /\ map Trade.total_cost (Position.trades p) = [3.000; - 0.900]
    /\ Position.quantity p = 7%Z
    /\ fold_quantity (Position.trades p) = 7%Z
    /\ Position.total_cost_basis p == 3.9
    /\ fold_cost (Position.trades p) == 2.1
    /\ ~ Position.total_cost_basis p == fold_cost (Position.trades p).
Proof.
  eexists. eexists.
  split; [vm_compute; reflexivity|].
  split; [vm_compute; reflexivity|].
  repeat split; try (vm_compute; reflexivity).
  intro H. vm_compute in H. discriminate H.
Qed.

(** ** Persistence failures *)

(** What the rollback leaves.  When [execute_trade] reports a database
    error, the user's cash has gone through the two updates of the code: it
    is [(cash - total_cost) + total_cost] for a BUY and
    [(cash + total_cost) - total_cost] for a SELL, with
    [total_cost = quantity * price] at the quote of the trade's side, and the
    other fields of the user are untouched.  (Over the rationals that is the
    cash before the call; in floating point each of the two operations
    rounds, so it can differ from it in the last place.)  The position's
    trade list is the one before the trade; its net quantity and cost basis
    are recomputed from that list, the quantity as the fold of the signed
    quantities (which is the quantity before the trade whenever that one
    agreed with its trades), the cost basis as the sum of the stored total
    costs. *)
Theorem persistence_failure_rollback (s s' : t) (uid : string) (k : Q) (q : Z)
        (ty : TradeType) (e : env) (err : string) :
  execute_trade s uid k q ty e = (Return (false, DatabaseError err), s') ->
  exists u bk u' b' p' price,
    users_get s uid = Some u
    /\ positions_get s uid = Some bk
    /\ get_option_price s k (quote_side ty) = Return price
    /\ users_get s' uid = Some u'
    /\ u' = set_current_cash u
              (let total_cost := inject_Z q * price in
               match ty with
               | BUY => (current_cash u - total_cost) + total_cost
               | SELL => (current_cash u + total_cost) - total_cost
               end)
    /\ positions_get s' uid = Some b'
    /\ book_get b' k = Some p'
    /\ Position.trades p' = Position.trades (book_get_default bk uid k)
    /\ Position.quantity p' = fold_quantity (Position.trades (book_get_default bk uid k))
    /\ (Position.quantity (book_get_default bk uid k)
        = fold_quantity (Position.trades (book_get_default bk uid k)) ->
        Position.quantity p' = Position.quantity (book_get_default bk uid k))
    /\ Position.total_cost_basis p'
       = fold_cost (Position.trades (book_get_default bk uid k)).
Proof.
  intro H.
  destruct (execute_trade_outcome s uid k q ty e)
    as [(m & E & Hm)|[(ex & E)|(u & bk & price & total & cmp &
                                 Hu & Hb & Hres & Hq & Hp & Hpos & E)]];
    rewrite E in H; try discriminate.
  - injection H as -> _. exfalso. exact (Hm err eq_refl).
  - cbv zeta in H. destruct (db_exception e) as [err'|]; [|discriminate].
    injection H as _ <-.
    destruct (price_trade_priced _ _ _ _ _ _ Hp) as (Hprice & Htotal & _).
    set (tr := trade_of uid k q ty e price total cmp).
    rewrite (rollback_applied s uid k ty total tr Hu Hb).
    eexists u, bk, _, _, _, price.
    split; [exact Hu|]. split; [exact Hb|]. split; [exact Hprice|].
    split; [unfold users_get; simpl; apply dict_get_set_same; exact String.eqb_refl|].
    split; [cbv zeta; rewrite <- Htotal; destruct u, ty; reflexivity|].
    split; [unfold positions_get; simpl; apply dict_get_set_same; exact String.eqb_refl|].
    split; [apply dict_get_set_same; exact Qeqb_refl|].
    rewrite rollback_add_trade. simpl.
    repeat split; auto.
Qed.

Lemma persistence_failure_rollback_witness :
  exists u bk u' b' p' price,
    users_get Scenario.after_trades "u-alice" = Some u
    /\ positions_get Scenario.after_trades "u-alice" = Some bk
    /\ get_option_price Scenario.after_trades 0.5 (quote_side BUY) = Return price
    /\ users_get
         (snd (execute_trade Scenario.after_trades "u-alice" 0.5 1 BUY
                 (Scenario.save_fails "t3" 3))) "u-alice" = Some u'
    /\ u' = set_current_cash u
              (let total_cost := inject_Z 1 * price in
               (current_cash u - total_cost) + total_cost)
    /\ positions_get
         (snd (execute_trade Scenario.after_trades "u-alice" 0.5 1 BUY
                 (Scenario.save_fails "t3" 3))) "u-alice" = Some b'
    /\ book_get b' 0.5 = Some p'
    /\ Position.trades p' = Position.trades (book_get_default bk "u-alice" 0.5)
    /\ Position.quantity p'
       = fold_quantity (Position.trades (book_get_default bk "u-alice" 0.5))
    /\ (Position.quantity (book_get_default bk "u-alice" 0.5)
        = fold_quantity (Position.trades (book_get_default bk "u-alice" 0.5)) ->
        Position.quantity p' = Position.quantity (book_get_default bk "u-alice" 0.5))
    /\ Position.total_cost_basis p'
       = fold_cost (Position.trades (book_get_default bk "u-alice" 0.5)).
Proof.
  apply (@persistence_failure_rollback Scenario.after_trades _ "u-alice" 0.5 1 BUY
           (Scenario.save_fails "t3" 3) "database is locked").
  vm_compute. reflexivity.
Defined.

(** C3, at the failing input.  After the two trades of the scenario Alice
    buys one more contract and the database write fails.  The call returns
    [(False, "Database error ...")], the trade list and the net quantity
    of the position are those before the call, and so is her cash; the cost
    basis, 3.9 before the call, is 2.1 after it. *)
Theorem rollback_does_not_restore_cost_basis :
  exists u b p u' b' p',
    users_get Scenario.after_trades "u-alice" = Some u
    /\ positions_get Scenario.after_trades "u-alice" = Some b
    /\ book_get b 0.5 = Some p
    /\ fst (execute_trade Scenario.after_trades "u-alice" 0.5 1 BUY
              (Scenario.save_fails "t3" 3))
       = Return (false, DatabaseError "database is locked")
    /\ users_get
         (snd (execute_trade Scenario.after_trades "u-alice" 0.5 1 BUY
                 (Scenario.save_fails "t3" 3))) "u-alice" = Some u'
    /\ positions_get
         (snd (execute_trade Scenario.after_trades "u-alice" 0.5 1 BUY
                 (Scenario.save_fails "t3" 3))) "u-alice" = Some b'
    /\ book_get b' 0.5 = Some p'
    /\ current_cash u' == current_cash u
    /\ Position.trades p' = Position.trades p
    /\ Position.quantity p' = Position.quantity p
    /\ Position.total_cost_basis p == 3.9
    /\ Position.total_cost_basis p' == 2.1
    /\ ~ Position.total_cost_basis p' == Position.total_cost_basis p.
Proof.
  do 6 eexists.
  do 3 (split; [vm_compute; reflexivity|]).
  split; [vm_compute; reflexivity|].
  do 3 (split; [vm_compute; reflexivity|]).
  repeat split; try (vm_compute; reflexivity).
  intro H. vm_compute in H. discriminate H.
Qed.

(** ** Settlement *)

(** Settling a position that is not OPEN returns the stored settlement
    value and changes nothing. *)
Lemma settle_position_not_open (p : Position.t) (fp k : Q) :
  Position.status p <> OPEN ->
  Position.settle_position p fp k = (Position.settlement_value p, p).
Proof.
  intro H. unfold Position.settle_position.
  destruct (Position.status p); [contradiction H; reflexivity | |]; reflexivity.
Qed.

Lemma settle_position_status (p : Position.t) (fp k : Q) :
  Position.status (snd (Position.settle_position p fp k)) <> OPEN.
Proof.
  unfold Position.settle_position.
  destruct (Position.status p) eqn:E; simpl; congruence.
Qed.

Lemma settle_position_quantity (p : Position.t) (fp k : Q) :
  Position.quantity (snd (Position.settle_position p fp k)) = Position.quantity p.
Proof.
  unfold Position.settle_position.
  destruct (Position.status p); reflexivity.
Qed.

(** Settling a position a second time, at whatever price, returns what the
    first call returned and leaves the position as the first call left
    it. *)
Theorem settle_position_idempotent (p : Position.t) (fp k fp' k' : Q) :
  Position.settle_position (snd (Position.settle_position p fp k)) fp' k'
  = Position.settle_position p fp k.
Proof.
  rewrite settle_position_not_open by apply settle_position_status.
  unfold Position.settle_position.
  destruct (Position.status p); reflexivity.
Qed.

Lemma settle_book_settled (fp : Q) (items : book) :
  forall cash, book_settled (fst (settle_book fp items cash)).
Proof.
  induction items as [|[k p] items IH]; intro cash; simpl; [constructor|].
  destruct (Position.quantity p =? 0)%Z eqn:Eq; simpl.
  - specialize (IH cash). destruct (settle_book fp items cash) as [rest cash'].
    constructor; [|exact IH]. intro Hq. simpl in Hq.
    apply Z.eqb_eq in Eq. contradiction.
  - pose proof (settle_position_status p fp k) as Hst.
    destruct (Position.settle_position p fp k) as [sv p'].
    specialize (IH (cash + sv)).
    destruct (settle_book fp items (cash + sv)) as [rest cash'].
    constructor; [intros _; exact Hst | exact IH].
Qed.

(** C1, at the failing input.  After the two trades of the scenario the
    market resolves at 65: the position of 7 contracts at strike 0.5 settles
    for 1.05, which is added to Alice's cash.  A second call with the same
    price leaves the positions as they are, and adds the stored 1.05 to her
    cash once more. *)
Theorem resolve_market_twice_pays_twice :
  exists u0 u1 u2,
    users_get Scenario.after_trades "u-alice" = Some u0
    /\ resolve_market Scenario.after_trades 65
       = (Return tt, snd (resolve_market Scenario.after_trades 65))
    /\ users_get (snd (resolve_market Scenario.after_trades 65)) "u-alice" = Some u1
    /\ resolve_market (snd (resolve_market Scenario.after_trades 65)) 65
       = (Return tt,
          snd (resolve_market (snd (resolve_market Scenario.after_trades 65)) 65))
    /\ users_get
         (snd (resolve_market (snd (resolve_market Scenario.after_trades 65)) 65))
         "u-alice" = Some u2
    /\ positions
         (snd (resolve_market (snd (resolve_market Scenario.after_trades 65)) 65))
       = positions (snd (resolve_market Scenario.after_trades 65))
    /\ current_cash u1 == current_cash u0 + 1.05
    /\ current_cash u2 == current_cash u1 + 1.05
    /\ ~ current_cash u2 == current_cash u1
    /\ ~ total_realized_pnl u2 == total_realized_pnl u1.
Proof.
  do 3 eexists.
  do 6 (split; [vm_compute; reflexivity|]).
  repeat split; try (vm_compute; reflexivity);
    intro H; vm_compute in H; discriminate H.
Qed.

(** ** Resolution and the portfolio snapshot *)

Lemma users_get_keys (s : t) (uid : string) (u : User) :
  users_get s uid = Some u -> In uid (dict_keys (users s)).
Proof.
  unfold users_get, dict_keys. induction (users s) as [|[k v] d IH]; simpl;
    [discriminate|].
  destruct (String.eqb_spec k uid) as [->|Hne]; [left; reflexivity|].
  intro H. right. exact (IH H).
Qed.

(** The loop over the users settles the book of every user it visits and
    keeps the books already settled so; it keeps the user ids. *)
Lemma resolve_users_settled (fp : Q) (uids : list string) :
  forall s s',
    resolve_users fp uids s = (Return tt, s') ->
    dict_keys (users s') = dict_keys (users s)
    /\ current_option_prices s' = current_option_prices s
    /\ current_market_data s' = current_market_data s
    /\ forall uid b,
        (In uid uids
         \/ (forall b0, positions_get s uid = Some b0 -> book_settled b0)) ->
        positions_get s' uid = Some b -> book_settled b.
Proof.
  induction uids as [|uid0 uids IH]; simpl; intros s s' H.
  - injection H as <-. repeat split; auto.
    intros uid b [[]|Hs] Hb. exact (Hs b Hb).
  - destruct (positions_get s uid0) as [items|] eqn:Hitems; [|discriminate].
    destruct (users_get s uid0) as [user|] eqn:Huser; [|discriminate].
    pose proof (settle_book_settled fp items (current_cash user)) as Hset.
    destruct (settle_book fp items (current_cash user)) as [items' cash].
    simpl in Hset.
    apply IH in H. destruct H as (Hkeys & Hq & Hmd & Hrest).
    simpl in Hkeys, Hq, Hmd.
    split; [|split; [exact Hq | split; [exact Hmd|]]].
    { rewrite Hkeys. eapply dict_set_keys_present. exact Huser. }
    intros uid b Hcase Hb. apply (Hrest uid b); [|exact Hb].
    destruct (string_dec uid0 uid) as [<-|Hne].
    + right. intros b0. unfold positions_get. simpl.
      rewrite dict_get_set_same by exact String.eqb_refl.
      intro E. injection E as <-. exact Hset.
    + destruct Hcase as [[E|Hin]|Hs]; [contradiction | left; exact Hin|].
      right. intros b0. unfold positions_get. simpl.
      rewrite dict_get_set_other by exact Hne. apply Hs.
Qed.

(** After a resolution that returned, the book of every user is settled. *)
Lemma resolve_market_settled (s s' : t) (fp : Q) (uid : string) (u : User) (b : book) :
  resolve_market s fp = (Return tt, s') ->
  users_get s' uid = Some u ->
  positions_get s' uid = Some b ->
  book_settled b.
Proof.
  unfold resolve_market. intros H Hu Hb.
  apply resolve_users_settled in H. destruct H as (Hkeys & _ & _ & Hrest).
  apply (Hrest uid b); [|exact Hb].
  left. apply users_get_keys in Hu. rewrite Hkeys in Hu. exact Hu.
Qed.

Lemma settle_book_of_settled (fp : Q) (items : book) :
  book_settled items -> forall cash, fst (settle_book fp items cash) = items.
Proof.
  intro H. induction H as [|[k p] items Hp H IH]; intro cash; simpl; [reflexivity|].
  destruct (Position.quantity p =? 0)%Z eqn:Eq; simpl.
  - specialize (IH cash). destruct (settle_book fp items cash) as [rest cash'].
    simpl in *. rewrite IH. reflexivity.
  - assert (Hst : Position.status p <> OPEN).
    { apply Hp. simpl. apply Z.eqb_neq. exact Eq. }
    rewrite (@settle_position_not_open p fp k Hst).
    specialize (IH (cash + Position.settlement_value p)).
    destruct (settle_book fp items _) as [rest cash']. simpl in *.
    rewrite IH. reflexivity.
Qed.

Lemma dict_set_same_value (V : Type) (d : list (string * V)) (k : string) (v : V) :
  dict_get String.eqb d k = Some v -> dict_set String.eqb d k v = d.
Proof.
  induction d as [|[k' v'] d IH]; simpl; [discriminate|].
  destruct (String.eqb_spec k' k) as [->|Hne].
  - intro H. injection H as ->. reflexivity.
  - intro H. rewrite (IH H). reflexivity.
Qed.

Lemma keys_users_get (s : t) (uid : string) :
  In uid (dict_keys (users s)) -> exists u, users_get s uid = Some u.
Proof.
  unfold users_get, dict_keys. induction (users s) as [|[k v] d IH]; simpl;
    [intros []|].
  destruct (String.eqb_spec k uid) as [->|Hne]; [eauto|].
  intros [E|Hin]; [contradiction | exact (IH Hin)].
Qed.

(** Over books that are settled already, the loop over the users leaves
    every position as it is. *)
Lemma resolve_users_keeps_settled (fp : Q) (uids : list string) :
  forall s s',
    (forall uid b, In uid uids -> positions_get s uid = Some b -> book_settled b) ->
    resolve_users fp uids s = (Return tt, s') ->
    positions s' = positions s.
Proof.
  induction uids as [|uid0 uids IH]; simpl; intros s s' Hset H.
  - injection H as <-. reflexivity.
  - destruct (positions_get s uid0) as [items|] eqn:Hitems; [|discriminate].
    destruct (users_get s uid0) as [user|] eqn:Huser; [|discriminate].
    pose proof (@settle_book_of_settled fp items
                (Hset uid0 items (or_introl eq_refl) Hitems)
                (current_cash user)) as Hsame.
    destruct (settle_book fp items (current_cash user)) as [items' cash].
    simpl in Hsame. subst items'.
    rewrite (@dict_set_same_value _ (positions s) uid0 items Hitems) in H.
    apply IH in H; [exact H|].
    intros uid b Hin Hb. exact (Hset uid b (or_intror Hin) Hb).
Qed.

(** A second resolution, at whatever price, leaves every position as the
    first one left it: status, settlement value and all. *)
Theorem resolve_market_again_keeps_positions (s s1 s2 : t) (fp fp' : Q) :
  resolve_market s fp = (Return tt, s1) ->
  resolve_market s1 fp' = (Return tt, s2) ->
  positions s2 = positions s1.
Proof.
  intros H1 H2. unfold resolve_market in H2.
  apply resolve_users_keeps_settled in H2; [exact H2|].
  intros uid b Hin Hb. simpl in Hin.
  destruct (@keys_users_get s1 uid Hin) as (u & Hu).
  exact (@resolve_market_settled s s1 fp uid u b H1 Hu Hb).
Qed.

Lemma resolve_market_again_keeps_positions_witness :
  positions (snd (resolve_market (snd (resolve_market Scenario.after_trades 65)) 70))
  = positions (snd (resolve_market Scenario.after_trades 65)).
Proof.
  apply (@resolve_market_again_keeps_positions Scenario.after_trades _ _ 65 70);
    vm_compute; reflexivity.
Defined.

Lemma py_sum_from (l : list Q) (a : Q) :
  fold_left Qplus l a == a + py_sum l.
Proof.
  unfold py_sum. revert a. induction l as [|x l IH]; intro a; simpl; [lra|].
  rewrite (IH (a + x)), (IH (0 + x)). lra.
Qed.

Lemma py_sum_app (l l' : list Q) : py_sum (l ++ l') == py_sum l + py_sum l'.
Proof.
  unfold py_sum at 1. rewrite fold_left_app. rewrite py_sum_from. reflexivity.
Qed.

(** The loop of the snapshot over a settled book. *)
Lemma summarize_settled (s : t) (items : book) :
  book_settled items ->
  forall acc tu tv acc' tu' tv',
    summarize s items acc tu tv = Return (acc', tu', tv') ->
    exists new,
      acc' = acc ++ new
      /\ Forall (settled_entry s) new
      /\ map (fun e => (ps_strike e, ps_quantity e)) new
         = map (fun kp => (fst kp, Position.quantity (snd kp))) (listed items)
      /\ tu' == tu
      /\ tv' == tv + py_sum (map ps_position_value new).
Proof.
  intro Hset. induction Hset as [|[k p] items Hp Hset IH];
    intros acc tu tv acc' tu' tv' H; simpl in H.
  - injection H as <- <- <-. exists []. rewrite app_nil_r.
    split; [reflexivity|]. split; [constructor|]. split; [reflexivity|].
    split; [reflexivity | unfold py_sum; simpl; lra].
  - unfold listed. simpl.
    destruct (Position.quantity p =? 0)%Z eqn:Eq; simpl in H |- *.
    + exact (IH _ _ _ _ _ _ H).
    + unfold bind in H.
      destruct (get_option_price s k Mid) as [cp|ex] eqn:Eg; [|discriminate].
      apply IH in H. destruct H as (new & -> & Hnew & Hmap & Htu & Htv).
      assert (Hst : Position.status p <> OPEN).
      { apply Hp. simpl. apply Z.eqb_neq. exact Eq. }
      assert (Hpnl : Position.calculate_unrealized_pnl p cp = 0).
      { unfold Position.calculate_unrealized_pnl.
        destruct (Position.status p); [contradiction Hst; reflexivity | |]; reflexivity. }
      rewrite Hpnl in *.
      eexists (_ :: new). rewrite <- app_assoc. simpl.
      split; [reflexivity|].
      split; [constructor; [repeat split; auto | exact Hnew]|].
      split; [simpl; f_equal; exact Hmap|].
      split; [rewrite Htu; lra|].
      rewrite Htv. simpl.
      change (?x :: map ps_position_value new)
        with ([x] ++ map ps_position_value new).
      rewrite py_sum_app. unfold py_sum at 2. simpl. lra.
Qed.

(** C10.  After market resolution the snapshot of a user lists every
    position with a nonzero net quantity, all of them settled, with an
    unrealized P&L of exactly 0 each and in total, and still counts net
    quantity times the current mid quote of each in the total position value
    and, with the cash, in the total portfolio value. *)
Theorem settled_positions_still_valued (s s' : t) (fp : Q) (uid : string)
        (pf : portfolio) :
  resolve_market s fp = (Return tt, s') ->
  get_user_portfolio s' uid = Return (Some pf) ->
  exists b,
    positions_get s' uid = Some b
    /\ book_settled b
    /\ map (fun e => (ps_strike e, ps_quantity e)) (pf_positions pf)
       = map (fun kp => (fst kp, Position.quantity (snd kp))) (listed b)
    /\ Forall (settled_entry s') (pf_positions pf)
    /\ pf_total_unrealized_pnl pf == 0
    /\ pf_total_position_value pf == py_sum (map ps_position_value (pf_positions pf))
    /\ pf_total_portfolio_value pf = pf_cash pf + pf_total_position_value pf.
Proof.
  intros Hres Hpf. unfold get_user_portfolio in Hpf.
  destruct (users_get s' uid) as [u|] eqn:Hu; [|discriminate].
  destruct (positions_get s' uid) as [b|] eqn:Hb; [|discriminate].
  pose proof (@resolve_market_settled s s' fp uid u b Hres Hu Hb) as Hset.
  unfold bind in Hpf.
  destruct (summarize s' b [] 0 0) as [[[acc tu] tv]|ex] eqn:Hsum; [|discriminate].
  injection Hpf as <-. simpl.
  destruct (@summarize_settled s' b Hset _ _ _ _ _ _ Hsum)
    as (new & -> & Hnew & Hmap & Htu & Htv).
  simpl. exists b. repeat split; auto. rewrite Htv. lra.
Qed.

Lemma settled_positions_still_valued_witness :
  exists pf b,
    get_user_portfolio (snd (resolve_market Scenario.after_trades 65)) "u-alice"
    = Return (Some pf)
    /\ positions_get (snd (resolve_market Scenario.after_trades 65)) "u-alice" = Some b
    /\ map (fun e => (ps_strike e, ps_quantity e)) (pf_positions pf) = [(0.5, 7%Z)]
    /\ Forall (settled_entry (snd (resolve_market Scenario.after_trades 65)))
              (pf_positions pf)
    /\ pf_total_unrealized_pnl pf == 0
    /\ pf_total_position_value pf == 2.1.
Proof.
  eexists.
  destruct (@settled_positions_still_valued Scenario.after_trades
              (snd (resolve_market Scenario.after_trades 65)) 65 "u-alice" _
              ltac:(vm_compute; reflexivity) ltac:(vm_compute; reflexivity))
    as (b & Hb & _ & Hmap & Hall & Hu & Hv & _).
  exists b. split; [reflexivity|]. split; [exact Hb|].
  split; [vm_compute; reflexivity|].
  split; [exact Hall|]. split; [exact Hu|].
  vm_compute. reflexivity.
Defined.
End LedgerFacts.

(* ================================================================== *)
(** * Facts about the simulator *)
(* ================================================================== *)

Module SimulatorFacts.
Import PyNum PyNumFacts LiveMarketSimulator SimulatorProps Lqa.
Local Open Scope Q_scope.

Lemma apply_soft_bounds_pre (price movement : Q) :
  5 <= apply_soft_bounds price movement true <= 95.
Proof. unfold apply_soft_bounds. cbv iota. apply clamp_bounds. lra. Qed.

Lemma apply_soft_bounds_post (price movement : Q) :
  1 <= apply_soft_bounds price movement false <= 99.
Proof. unfold apply_soft_bounds. cbv iota. apply clamp_bounds. lra. Qed.

Lemma init_seeded (n : Z) (ip vol tp ts mm : Q) (res : bool) (clock : Z) :
  seeded (init n ip vol tp ts mm res clock).
Proof.
  unfold seeded, init. simpl. split; [lia|]. split; [|auto].
  change 15 with (inject_Z 15). change 85 with (inject_Z 85).
  apply clamp_bounds. unfold Qle. simpl. lia.
Qed.

(** ** One generated point *)

Lemma generate_next_data_point_spec (s : t) (d : draws) :
  seeded s ->
  seeded (snd (generate_next_data_point s d))
  /\ threshold_point (snd (generate_next_data_point s d)) = threshold_point s
  /\ match fst (generate_next_data_point s d) with
     | Return (Some dp) => in_bounds (threshold_point s) dp
     | _ => True
     end.
Proof.
  intros H. pose proof H as (Hidx & Hip & Hzero).
  unfold generate_next_data_point.
  destruct (current_point_index s >=? total_points s)%Z; simpl.
  { split; [exact H | split; [reflexivity | exact I]]. }
  destruct (Z.gtb_spec (current_point_index s) 0) as [Hpos|Hnpos].
  - destruct (generate_price_movement s (current_price s)
                (current_point_index s) (previous_movement s) d) as [mv|ex]; simpl.
    + split.
      { unfold seeded; simpl. split; [lia|]. split; [exact Hip|]. intro E. lia. }
      split; [reflexivity|].
      unfold in_bounds. simpl.
      destruct (current_point_index s <? threshold_point s)%Z.
      * apply (@py_round_bounds _ 2%nat 5%Z 95%Z). apply apply_soft_bounds_pre.
      * apply (@py_round_bounds _ 2%nat 1%Z 99%Z). apply apply_soft_bounds_post.
    + split; [exact H | split; [reflexivity | exact I]].
  - simpl. assert (E : current_point_index s = 0%Z) by lia.
    destruct (Hzero E) as (_ & Hprice).
    split.
    { unfold seeded; simpl. split; [lia|]. split; [exact Hip|]. intro E'. lia. }
    split; [reflexivity|].
    assert (Hb : 15 <= py_round (current_price s) 2 <= 85).
    { apply (@py_round_bounds _ 2%nat 15%Z 85%Z). rewrite Hprice. exact Hip. }
    unfold in_bounds. simpl. destruct (_ <? _)%Z; lra.
Qed.

(** ** The other calls keep a simulator seeded *)

Lemma with_state_seeded (s : t) (st : SimulationState) :
  seeded s -> seeded (with_state s st).
Proof. exact (fun H => H). Qed.

Lemma with_thread_seeded (s : t) (a : bool) (i : Q) (se pe : bool) :
  seeded s -> seeded (with_thread s a i se pe).
Proof. exact (fun H => H). Qed.

Lemma loop_exit_seeded (s : t) : seeded s -> seeded (loop_exit s).
Proof.
  intros H. pose proof H as (Hidx & Hip & Hzero). unfold loop_exit.
  apply with_thread_seeded.
  set (s1 := if (current_point_index s >=? total_points s)%Z
             then with_state s COMPLETED else with_state s STOPPED).
  assert (H1 : seeded s1 /\ data_history s1 = data_history s
               /\ current_point_index s1 = current_point_index s).
  { subst s1. destruct (_ >=? _)%Z; simpl; auto. }
  destruct H1 as (Hs1 & Eh & Ei).
  destruct (0 <? List.length (data_history s1))%nat eqn:Hlen; [|exact Hs1].
  destruct Hs1 as (Hidx1 & Hip1 & _).
  unfold seeded. simpl. split; [exact Hidx1|]. split; [exact Hip1|].
  intro E. rewrite Ei in E. destruct (Hzero E) as (Hh & _).
  rewrite Eh, Hh in Hlen. discriminate Hlen.
Qed.

Lemma loop_exit_threshold (s : t) :
  threshold_point (loop_exit s) = threshold_point s.
Proof.
  unfold loop_exit. simpl.
  destruct (_ >=? _)%Z; destruct (0 <? _)%nat; reflexivity.
Qed.

Lemma stop_seeded (s : t) : seeded s -> seeded (stop s).
Proof.
  intro H. unfold stop. destruct (_ || _); [|exact H].
  apply with_state_seeded. destruct (thread_alive _).
  - apply loop_exit_seeded. apply with_thread_seeded. exact H.
  - apply with_thread_seeded. exact H.
Qed.

Lemma stop_threshold (s : t) : threshold_point (stop s) = threshold_point s.
Proof.
  unfold stop. destruct (_ || _); [|reflexivity]. simpl.
  destruct (thread_alive s); [rewrite loop_exit_threshold|]; reflexivity.
Qed.

Lemma stop_initial_price (s : t) : initial_price (stop s) = initial_price s.
Proof.
  unfold stop. destruct (_ || _); [|reflexivity]. simpl.
  destruct (thread_alive s); [|reflexivity].
  unfold loop_exit. simpl.
  destruct (_ >=? _)%Z; destruct (0 <? _)%nat; reflexivity.
Qed.

(** A call that emits nothing and keeps the process fields. *)
Ltac quiet H := split; [exact H | split; [reflexivity | exact I]].

Lemma perform_spec (s : t) (c : call) :
  seeded s ->
  seeded (snd (perform s c))
  /\ threshold_point (snd (perform s c)) = threshold_point s
  /\ match fst (perform s c) with
     | Some dp => in_bounds (threshold_point s) dp
     | None => True
     end.
Proof.
  intro H. destruct c as [i m| | | |d|clock|d]; simpl.
  - unfold start_live_simulation.
    destruct (SimulationState_eqb _ _); [quiet H|].
    destruct (String.eqb m "auto"); quiet H.
  - unfold pause. destruct (SimulationState_eqb _ _); quiet H.
  - unfold resume. destruct (SimulationState_eqb _ _); quiet H.
  - split; [apply stop_seeded; exact H|]. split; [apply stop_threshold | exact I].
  - unfold step.
    destruct (generate_next_data_point_spec d H) as (H1 & H2 & H3).
    destruct (generate_next_data_point s d) as [[o|ex] s']; simpl in *.
    + split; [exact H1|]. split; [exact H2|]. destruct o; [exact H3 | exact I].
    + split; [exact H1|]. split; [exact H2 | exact I].
  - split; [|split; [apply stop_threshold | exact I]].
    unfold reset_simulation, seeded. simpl.
    rewrite stop_initial_price. destruct H as (_ & Hip & _).
    split; [lia|]. split; [exact Hip|]. intros _. split; reflexivity.
  - unfold thread_turn.
    destruct (thread_alive s); simpl; [|quiet H].
    destruct (loop_condition s).
    + destruct (pause_event s); [quiet H|].
      destruct (generate_next_data_point_spec d H) as (H1 & H2 & H3).
      destruct (generate_next_data_point s d) as [[[dp|]|ex] s']; simpl in *.
      * split; [exact H1|]. split; [exact H2 | exact H3].
      * split; [apply loop_exit_seeded; exact H1|].
        split; [|exact I].
        etransitivity; [apply loop_exit_threshold | exact H2].
      * split; [exact H1|]. split; [exact H2 | exact I].
    + simpl. split; [apply loop_exit_seeded; exact H|].
      split; [apply loop_exit_threshold | exact I].
Qed.

(** ** The recorded history *)

Lemma set_last_price_app (h : list data_point) (dp : data_point) (p : Q) :
  set_last_price (h ++ [dp]) p = h ++ [set_price dp p].
Proof.
  unfold set_last_price. rewrite rev_app_distr. simpl.
  rewrite rev_involutive. reflexivity.
Qed.

Lemma last_point_app (h : list data_point) (dp : data_point) :
  last_point (h ++ [dp]) = Some dp.
Proof. unfold last_point. rewrite rev_app_distr. reflexivity. Qed.

Lemma last_point_some (l : list data_point) (dp : data_point) :
  last_point l = Some dp -> exists h, l = h ++ [dp].
Proof.
  unfold last_point. intro H.
  destruct (rev l) as [|x r] eqn:E; [discriminate|]. injection H as ->.
  exists (rev r). rewrite <- (rev_involutive l), E. reflexivity.
Qed.

Lemma init_bounded (n : Z) (ip vol tp ts mm : Q) (res : bool) (clock : Z) :
  bounded (init n ip vol tp ts mm res clock).
Proof.
  unfold bounded, init. simpl. split; [constructor|]. split; [|exact I].
  destruct res; auto.
Qed.

Lemma generate_next_data_point_bounded (s : t) (d : draws) :
  seeded s -> bounded s -> bounded (snd (generate_next_data_point s d)).
Proof.
  intros (Hidx & Hip & Hzero) Hb. pose proof Hb as (Hh & Ht & Hc).
  unfold generate_next_data_point.
  destruct (current_point_index s >=? total_points s)%Z; simpl; [exact Hb|].
  destruct (Z.gtb_spec (current_point_index s) 0) as [Hpos|Hnpos].
  - destruct (generate_price_movement s (current_price s)
                (current_point_index s) (previous_movement s) d) as [mv|ex];
      simpl; [|exact Hb].
    unfold bounded. simpl. rewrite last_point_app. simpl.
    split; [|split; [exact Ht|]].
    + apply Forall_app. split; [exact Hh|]. constructor; [|constructor].
      unfold in_bounds. simpl.
      destruct (current_point_index s <? threshold_point s)%Z.
      * apply (@py_round_bounds _ 2%nat 5%Z 95%Z). apply apply_soft_bounds_pre.
      * apply (@py_round_bounds _ 2%nat 1%Z 99%Z). apply apply_soft_bounds_post.
    + unfold price_within.
      destruct (current_point_index s <? threshold_point s)%Z;
        [apply apply_soft_bounds_pre | apply apply_soft_bounds_post].
  - simpl. assert (E : current_point_index s = 0%Z) by lia.
    destruct (Hzero E) as (_ & Hprice).
    unfold bounded. simpl. rewrite last_point_app. simpl.
    split; [|split; [exact Ht|]].
    + apply Forall_app. split; [exact Hh|]. constructor; [|constructor].
      assert (Hr : 15 <= py_round (current_price s) 2 <= 85).
      { apply (@py_round_bounds _ 2%nat 15%Z 85%Z). rewrite Hprice. exact Hip. }
      unfold in_bounds. simpl. destruct (_ <? _)%Z; lra.
    + unfold price_within. rewrite Hprice. destruct (_ <? _)%Z; lra.
Qed.

(** The adjusted price stays within the bounds the current price is in. *)
Lemma adjusted_price_within (s : t) (threshold i : Z) :
  (target_price s = 5 \/ target_price s = 95) ->
  price_within threshold i (current_price s) ->
  price_within threshold i (adjusted_price s).
Proof.
  intros Ht Hc. unfold price_within in *. unfold adjusted_price.
  set (adj := current_price s + (target_price s - current_price s) * 0.4).
  destruct (i <? threshold)%Z.
  - assert (Hadj : 5 <= adj <= 95).
    { subst adj. destruct Ht as [-> | ->]; lra. }
    rewrite clamp_inside by lra. exact Hadj.
  - pose proof (@clamp_bounds 2 98 adj) as H. lra.
Qed.

Lemma loop_exit_bounded (s : t) : bounded s -> bounded (loop_exit s).
Proof.
  intros (Hh & Ht & Hc). unfold loop_exit.
  set (s1 := if (current_point_index s >=? total_points s)%Z
             then with_state s COMPLETED else with_state s STOPPED).
  assert (H1 : bounded s1 /\ adjusted_price s1 = adjusted_price s
               /\ threshold_point s1 = threshold_point s
               /\ data_history s1 = data_history s
               /\ target_price s1 = target_price s).
  { subst s1. destruct (_ >=? _)%Z; simpl; unfold bounded; auto 10. }
  destruct H1 as (Hb1 & Ea & Et & Eh & Etg).
  destruct (0 <? List.length (data_history s1))%nat; [|exact Hb1].
  unfold bounded. simpl. rewrite Ea, Et, Eh, Etg.
  destruct (last_point (data_history s)) as [dp|] eqn:El.
  - destruct (last_point_some _ El) as (h & E). rewrite E in *.
    rewrite set_last_price_app, last_point_app. simpl.
    apply Forall_app in Hh. destruct Hh as (Hh1 & Hh2).
    pose proof (@adjusted_price_within s (threshold_point s) (point_index dp) Ht Hc)
      as Hw.
    split; [|split; [exact Ht | exact Hw]].
    apply Forall_app. split; [exact Hh1|]. constructor; [|constructor].
    unfold in_bounds, price_within in *. simpl.
    destruct (point_index dp <? threshold_point s)%Z.
    + apply (@py_round_bounds _ 2%nat 5%Z 95%Z). exact Hw.
    + apply (@py_round_bounds _ 2%nat 1%Z 99%Z). exact Hw.
  - unfold last_point in El. unfold set_last_price.
    destruct (rev (data_history s)) eqn:Er; [|discriminate].
    unfold last_point. rewrite Er. auto.
Qed.

Lemma stop_bounded (s : t) : bounded s -> bounded (stop s).
Proof.
  intro H. unfold stop. destruct (_ || _); [|exact H].
  destruct (thread_alive _).
  - exact (@loop_exit_bounded
             (with_thread s true (time_interval s) true false) H).
  - exact H.
Qed.

Lemma stop_target (s : t) : target_price (stop s) = target_price s.
Proof.
  unfold stop. destruct (_ || _); [|reflexivity]. simpl.
  destruct (thread_alive s); [|reflexivity].
  unfold loop_exit. simpl.
  destruct (_ >=? _)%Z; destruct (0 <? _)%nat; reflexivity.
Qed.

Lemma perform_bounded (s : t) (c : call) :
  seeded s -> bounded s -> bounded (snd (perform s c)).
Proof.
  intros Hs H. destruct c as [i m| | | |d|clock|d]; simpl.
  - unfold start_live_simulation.
    destruct (SimulationState_eqb _ _); [exact H|].
    destruct (String.eqb m "auto"); exact H.
  - unfold pause. destruct (SimulationState_eqb _ _); exact H.
  - unfold resume. destruct (SimulationState_eqb _ _); exact H.
  - apply stop_bounded. exact H.
  - unfold step.
    pose proof (generate_next_data_point_bounded d Hs H) as Hg.
    destruct (generate_next_data_point s d) as [[o|ex] s']; exact Hg.
  - unfold reset_simulation, bounded. simpl.
    rewrite stop_target. destruct H as (_ & Ht & _).
    split; [constructor|]. split; [exact Ht | exact I].
  - unfold thread_turn.
    destruct (thread_alive s); simpl; [|exact H].
    destruct (loop_condition s).
    + destruct (pause_event s); [exact H|].
      pose proof (generate_next_data_point_bounded d Hs H) as Hg.
      destruct (generate_next_data_point s d) as [[[dp|]|ex] s']; simpl in *.
      * exact Hg.
      * apply loop_exit_bounded. exact Hg.
      * exact Hg.
    + simpl. apply loop_exit_bounded. exact H.
Qed.

(** Every point a run emits from a seeded simulator is within the bounds,
    and so is every point of the history the run leaves. *)
Lemma run_in_bounds (calls : list call) :
  forall s,
    seeded s -> bounded s ->
    Forall (in_bounds (threshold_point s)) (fst (run calls s))
    /\ Forall (in_bounds (threshold_point s)) (data_history (snd (run calls s))).
Proof.
  induction calls as [|c calls IH]; intros s H Hb; simpl.
  { split; [constructor | exact (proj1 Hb)]. }
  destruct (perform_spec c H) as (H1 & H2 & H3).
  pose proof (perform_bounded c H Hb) as Hb1.
  destruct (perform s c) as [o s']. simpl in *.
  specialize (IH s' H1 Hb1). rewrite H2 in IH.
  destruct (run calls s') as [emitted final]. simpl in *.
  destruct IH as (IH1 & IH2). split; [|exact IH2].
  destruct o; [constructor|]; assumption.
Qed.

(** C6.  Price-path bounds.  A simulator made with [total_points = 500]
    and [threshold_percentage = 0.7] has its threshold at index 350, and in
    every run of calls on it (steps, turns of the background thread, start,
    pause, resume, stop, reset), whatever the random draws, every point
    emitted by [generate_next_data_point] has its price in [[5, 95]] when its
    index is below the threshold and in [[1, 99]] otherwise; the same holds
    of every point of the recorded history, the one the terminal adjustment
    has rewritten included. *)
Theorem price_path_bounds (ip vol ts mm : Q) (res : bool) (clock : Z)
        (calls : list call) :
  threshold_point (init 500 ip vol 0.7 ts mm res clock) = 350%Z
  /\ Forall (in_bounds 350) (fst (run calls (init 500 ip vol 0.7 ts mm res clock)))
  /\ Forall (in_bounds 350)
            (data_history (snd (run calls (init 500 ip vol 0.7 ts mm res clock)))).
Proof.
  split; [reflexivity|].
  exact (run_in_bounds calls (init_seeded 500 ip vol 0.7 ts mm res clock)
           (init_bounded 500 ip vol 0.7 ts mm res clock)).
Qed.

(** ** The background loop *)

Lemma np_random_normal_returns (scale : Q) (d : draws) :
  0 <= scale -> np_random_normal scale d = Return (normal d).
Proof.
  intro H. unfold np_random_normal.
  replace (Qltb scale 0) with false by (symmetry; apply Qltb_false; exact H).
  reflexivity.
Qed.

(** With a volatility that is not negative, the movement of a point that
    is still to come is computed: no division by zero, and no negative
    scale for the normal draw. *)
Lemma generate_price_movement_returns (s : t) (cp pm : Q) (idx : Z) (d : draws) :
  0 <= volatility s ->
  (idx < total_points s)%Z ->
  exists mv, generate_price_movement s cp idx pm d = Return mv.
Proof.
  intros Hv H. unfold generate_price_movement.
  destruct (Z.ltb_spec idx (threshold_point s)) as [Hpre|Hpost]; cbv zeta.
  - rewrite (np_random_normal_returns d Hv). simpl. eauto.
  - unfold true_div.
    destruct (Z.eqb_spec (total_points s - threshold_point s) 0) as [E|E]; [lia|].
    cbn [bind].
    rewrite np_random_normal_returns; [simpl; eauto|].
    assert (Hd : 0 < inject_Z (total_points s - threshold_point s)).
    { change 0 with (inject_Z 0). rewrite <- Zlt_Qlt. lia. }
    assert (Hr : 0 <= inject_Z (total_points s - idx)).
    { change 0 with (inject_Z 0). rewrite <- Zle_Qle. lia. }
    assert (Hf : 0 <= inject_Z (total_points s - idx)
                      / inject_Z (total_points s - threshold_point s)).
    { apply Qle_shift_div_l; [exact Hd | lra]. }
    apply Qmult_le_0_compat; [exact Hv | lra].
Qed.

Lemma nonempty_last (A : Type) (l : list A) :
  (1 <= List.length l)%nat -> exists h x, l = h ++ [x].
Proof.
  destruct l as [|a l] using rev_ind; simpl; [lia|]. eauto.
Qed.

(** One turn of a running loop that has points left generates a point,
    when the volatility is not negative. *)
Lemma thread_turn_running (n : Z) (k : nat) (s : t) (d : draws) :
  running n k s -> 0 <= volatility s -> (Z.of_nat k < n)%Z ->
  exists dp,
    fst (thread_turn s d) = Some dp
    /\ running n (S k) (snd (thread_turn s d))
    /\ volatility (snd (thread_turn s d)) = volatility s.
Proof.
  intros (Ha & Hs & Hp & Hst & Hn & Hi & Hl) Hv Hk.
  unfold thread_turn, loop_condition. rewrite Ha, Hs, Hp, Hst, Hn, Hi. simpl.
  replace (Z.of_nat k <? n)%Z with true by (symmetry; apply Z.ltb_lt; exact Hk).
  simpl. unfold generate_next_data_point. rewrite Hn, Hi.
  replace (Z.of_nat k >=? n)%Z with false
    by (symmetry; rewrite Z.geb_leb; apply Z.leb_gt; exact Hk).
  destruct (Z.of_nat k >? 0)%Z.
  - destruct (@generate_price_movement_returns s (current_price s)
                (previous_movement s) (Z.of_nat k) d Hv) as (mv & ->); [lia|].
    simpl. eexists. split; [reflexivity|].
    unfold running. simpl. rewrite length_app. simpl.
    repeat split; auto; lia.
  - simpl. eexists. split; [reflexivity|].
    unfold running. simpl. rewrite length_app. simpl.
    repeat split; auto; lia.
Qed.

Lemma thread_turns_running (n : Z) (ds : list draws) :
  forall k s,
    running n k s -> 0 <= volatility s ->
    (Z.of_nat (k + List.length ds) <= n)%Z ->
    running n (k + List.length ds) (snd (run (map ThreadTurn ds) s))
    /\ List.length (fst (run (map ThreadTurn ds) s)) = List.length ds.
Proof.
  induction ds as [|d ds IH]; intros k s H Hv Hk; simpl.
  - rewrite Nat.add_0_r. auto.
  - simpl in Hk.
    destruct (@thread_turn_running n k s d H Hv) as (dp & Hdp & Hrun & Hvol); [lia|].
    destruct (thread_turn s d) as [o s']. simpl in Hdp, Hrun, Hvol. subst o.
    destruct (IH (S k) s' Hrun) as (H1 & H2); [rewrite Hvol; exact Hv | lia |].
    destruct (run (map ThreadTurn ds) s') as [em final]. simpl in *.
    split; [|lia]. replace (k + S (List.length ds))%nat
      with (S k + List.length ds)%nat by lia. exact H1.
Qed.

Lemma auto_run_running (n : Z) (ip vol tp ts mm : Q) (res : bool) (clock : Z)
      (interval : Q) (ds : list draws) :
  0 <= vol ->
  (Z.of_nat (List.length ds) <= n)%Z ->
  running n (List.length ds)
    (auto_run (init n ip vol tp ts mm res clock) interval ds).
Proof.
  intros Hv H. unfold auto_run.
  change (run (Start interval "auto" :: map ThreadTurn ds)
              (init n ip vol tp ts mm res clock))
    with (let (em, final) :=
            run (map ThreadTurn ds)
                (start_live_simulation (init n ip vol tp ts mm res clock)
                   interval "auto") in (em, final)).
  assert (H0 : running n 0 (start_live_simulation
                              (init n ip vol tp ts mm res clock) interval "auto")).
  { unfold running. simpl. auto 10. }
  destruct (@thread_turns_running n ds 0%nat _ H0 Hv H) as (H1 & _).
  destruct (run (map ThreadTurn ds) _) as [em final]. exact H1.
Qed.



(** ** Manual mode: no background loop *)









End SimulatorFacts.

(* ================================================================== *)
(** * Further facts about trading *)
(* ================================================================== *)

Module TradingFacts.
Import PyNum PyNumFacts PortfolioManager LedgerProps LedgerFacts Lqa.
Local Open Scope Q_scope.

(** ** What a trade leaves alone *)

Lemma execute_trade_market (s : t) (uid : string) (k : Q) (q : Z)
      (ty : TradeType) (e : env) :
  current_market_data (snd (execute_trade s uid k q ty e)) = current_market_data s
  /\ market_resolved (snd (execute_trade s uid k q ty e)) = market_resolved s
  /\ final_market_price (snd (execute_trade s uid k q ty e)) = final_market_price s.
Proof.
  destruct (execute_trade_outcome s uid k q ty e)
    as [(m & -> & _)|[(ex & ->)|(u & bk & price & total & cmp &
                                  Hu & Hb & Hres & Hq & Hp & Hpos & ->)]];
    try (simpl; auto; fail).
  set (tr := trade_of uid k q ty e price total cmp).
  destruct (apply_trade_eq s uid k ty total tr Hu Hb)
    as (_ & _ & _ & Hmd & _ & Hr & Hf).
  cbv zeta. destruct (db_exception e) as [err|]; simpl; [|auto].
  rewrite (rollback_applied s uid k ty total tr Hu Hb). simpl. auto.
Qed.

(** A trade of one user changes neither the record nor the book of any
    other user, nor the market data, the quotes or the resolution flag. *)
Theorem execute_trade_isolated (s : t) (uid uid' : string) (k : Q) (q : Z)
        (ty : TradeType) (e : env) :
  uid' <> uid ->
  users_get (snd (execute_trade s uid k q ty e)) uid' = users_get s uid'
  /\ positions_get (snd (execute_trade s uid k q ty e)) uid' = positions_get s uid'
  /\ current_option_prices (snd (execute_trade s uid k q ty e))
     = current_option_prices s
  /\ current_market_data (snd (execute_trade s uid k q ty e)) = current_market_data s
  /\ market_resolved (snd (execute_trade s uid k q ty e)) = market_resolved s.
Proof.
  intro Hne.
  assert (Hne' : uid <> uid') by congruence.
  split; [|split; [|split; [apply execute_trade_quotes|]]].
  3: { destruct (execute_trade_market s uid k q ty e) as (H1 & H2 & _). auto. }
  - destruct (execute_trade_outcome s uid k q ty e)
      as [(m & -> & _)|[(ex & ->)|(u & bk & price & total & cmp &
                                    Hu & Hb & Hres & Hq & Hp & Hpos & ->)]];
      try reflexivity.
    set (tr := trade_of uid k q ty e price total cmp).
    destruct (apply_trade_eq s uid k ty total tr Hu Hb) as (Hus & _).
    assert (Happ : users_get (apply_trade s uid k bk ty total tr) uid'
                   = users_get s uid').
    { unfold users_get. rewrite Hus. apply dict_get_set_other. exact Hne'. }
    cbv zeta. destruct (db_exception e) as [err|]; simpl; [|exact Happ].
    rewrite (rollback_applied s uid k ty total tr Hu Hb).
    unfold users_get in *. simpl.
    rewrite dict_get_set_other by exact Hne'. exact Happ.
  - destruct (execute_trade_outcome s uid k q ty e)
      as [(m & -> & _)|[(ex & ->)|(u & bk & price & total & cmp &
                                    Hu & Hb & Hres & Hq & Hp & Hpos & ->)]];
      try reflexivity.
    set (tr := trade_of uid k q ty e price total cmp).
    destruct (apply_trade_eq s uid k ty total tr Hu Hb)
      as (_ & _ & (ps0 & Hps & Hps0) & _).
    assert (Happ : positions_get (apply_trade s uid k bk ty total tr) uid'
                   = positions_get s uid').
    { unfold positions_get. rewrite Hps.
      rewrite dict_get_set_other by exact Hne'.
      destruct Hps0 as [-> | ->]; [reflexivity|].
      apply dict_get_set_other. exact Hne'. }
    cbv zeta. destruct (db_exception e) as [err|]; simpl; [|exact Happ].
    rewrite (rollback_applied s uid k ty total tr Hu Hb).
    unfold positions_get in *. simpl.
    rewrite dict_get_set_other by exact Hne'. exact Happ.
Qed.

Lemma execute_trade_isolated_witness :
  "u-bob"%string <> "u-alice"%string
  /\ users_get
       (snd (execute_trade Scenario.after_trades "u-alice" 0.5 1 BUY
               (Scenario.saved "t3" 3))) "u-bob"
     = users_get Scenario.after_trades "u-bob".
Proof.
  assert (H : "u-bob"%string <> "u-alice"%string) by discriminate.
  split; [exact H|].
  exact (proj1 (@execute_trade_isolated Scenario.after_trades "u-alice" "u-bob"
                  0.5 1 BUY (Scenario.saved "t3" 3) H)).
Defined.
(** ** The position limit *)

(** An accepted BUY stays within the position limit computed before the
    trade: 20% of the buyer's cash at the ask, and never less than 10
    contracts.  The position after the trade holds the earlier net quantity
    plus the quantity bought, and that is at most the limit. *)
Theorem accepted_buy_within_limit (s s' : t) (uid : string) (k : Q) (q : Z)
        (e : env) (m : message) :
  execute_trade s uid k q BUY e = (Return (true, m), s') ->
  exists u ask bk b' p',
    users_get s uid = Some u
    /\ get_option_price s k Ask = Return ask
    /\ 0 < ask
    /\ calculate_position_limit s uid k
       = Return (Z.max 10 (py_int ((current_cash u * 0.2) / ask)))
    /\ positions_get s uid = Some bk
    /\ positions_get s' uid = Some b'
    /\ book_get b' k = Some p'
    /\ Position.quantity p'
       = (Position.quantity (book_get_default bk uid k) + q)%Z
    /\ (Position.quantity p' <= Z.max 10 (py_int ((current_cash u * 0.2) / ask)))%Z.
Proof.
  unfold execute_trade.
  destruct (users_get s uid) as [u|] eqn:Hu; [|discriminate].
  destruct (market_resolved s); [discriminate|].
  destruct (q <=? 0)%Z; [discriminate|].
  destruct (current_option_prices s) as [table|] eqn:Ht; [|discriminate].
  destruct (calculate_position_limit s uid k) as [limit|ex] eqn:Hl; [|discriminate].
  destruct (positions_get s uid) as [bk|] eqn:Hb; [|discriminate].
  cbn [andb].
  destruct (Z.gtb_spec (Position.quantity (book_get_default bk uid k) + q) limit)
    as [Hgt|Hle]; [discriminate|].
  destruct (price_trade s u (book_get_default bk uid k) k q BUY)
    as [price total|m'] eqn:Hp; [|discriminate].
  destruct (Qleb price 0) eqn:Hpos; [discriminate|].
  apply Qleb_false in Hpos.
  destruct (current_market_data s) as [md|]; [|discriminate].
  destruct (iloc_last md) as [cmp|ex]; [|discriminate].
  destruct (db_exception e); [discriminate|].
  intro H. injection H as _ <-.
  destruct (price_trade_priced _ _ _ _ _ _ Hp) as (Hask & _).
  cbn [quote_side] in Hask.
  unfold calculate_position_limit in Hl. rewrite Hu, Hask in Hl.
  cbn [bind] in Hl.
  replace (Qltb 0 price) with true in Hl by (symmetry; apply Qltb_true; exact Hpos).
  injection Hl as Hl.
  set (tr := {| Trade.trade_id := uuid4 e |}).
  destruct (apply_trade_eq s uid k BUY total tr Hu Hb) as (_ & Hget & _).
  exists u, price, bk. eexists. eexists.
  split; [reflexivity|]. split; [exact Hask|]. split; [exact Hpos|].
  split; [rewrite Hl; reflexivity|].
  split; [reflexivity|]. split; [exact Hget|].
  split; [apply dict_get_set_same; exact Qeqb_refl|].
  rewrite add_trade_quantity. unfold signed_quantity. subst tr. cbn.
  split; [reflexivity|]. rewrite Hl. exact Hle.
Qed.

Lemma accepted_buy_within_limit_witness :
  exists u ask bk b' p',
    users_get (session Scenario.np_exp [UpdateMarket [45; 47; 60]] Scenario.fresh)
      "u-alice" = Some u
    /\ get_option_price
         (session Scenario.np_exp [UpdateMarket [45; 47; 60]] Scenario.fresh)
         0.5 Ask = Return ask
    /\ 0 < ask
    /\ calculate_position_limit
         (session Scenario.np_exp [UpdateMarket [45; 47; 60]] Scenario.fresh)
         "u-alice" 0.5
       = Return (Z.max 10 (py_int ((current_cash u * 0.2) / ask)))
    /\ positions_get
         (session Scenario.np_exp [UpdateMarket [45; 47; 60]] Scenario.fresh)
         "u-alice" = Some bk
    /\ positions_get
         (snd (execute_trade
                 (session Scenario.np_exp [UpdateMarket [45; 47; 60]] Scenario.fresh)
                 "u-alice" 0.5 10 BUY (Scenario.saved "t1" 1)))
         "u-alice" = Some b'
    /\ book_get b' 0.5 = Some p'
    /\ Position.quantity p'
       = (Position.quantity (book_get_default bk "u-alice" 0.5) + 10)%Z
    /\ (Position.quantity p'
        <= Z.max 10 (py_int ((current_cash u * 0.2) / ask)))%Z.
Proof.
  apply (@accepted_buy_within_limit
           (session Scenario.np_exp [UpdateMarket [45; 47; 60]] Scenario.fresh)
           _ "u-alice" 0.5 10 (Scenario.saved "t1" 1) TradeExecutedSuccessfully).
  vm_compute. reflexivity.
Defined.
End TradingFacts.

(* ================================================================== *)
(** * Further facts about the quotes *)
(* ================================================================== *)

Module QuoteFacts.
Import PyNum PyNumFacts PortfolioManager LedgerProps ResolutionProps LedgerFacts Lqa.
Local Open Scope Q_scope.


(** The quote of every strike on the one-row frame [update_market_data]
    builds: no decay, and each side as the code computes it. *)
Lemma quote_strikes_one_row (np_exp : Q -> Q) (yes : Q) (ks : list Q) :
  exists qs,
    quote_strikes np_exp [ {| yes_price := yes; no_price := 1 - yes |} ] ks
    = Return qs
    /\ map strike qs = ks
    /\ Forall (fun r => forall sd, column sd r = one_row_quote yes (strike r) sd) qs.
Proof.
  induction ks as [|k ks (qs & E & Hk & Hq)].
  - exists []. simpl. auto.
  - eexists. simpl quote_strikes. rewrite E. cbn [bind quote_strike].
    lazy - [Qplus Qminus Qmult Qdiv Qeq map strike bid ask mid column
            one_row_quote].
    split; [reflexivity|]. split; [cbn [map strike]; rewrite Hk; reflexivity|].
    constructor; [|exact Hq]. intros [| |]; reflexivity.
Qed.

(** The quotes are positive for a positive price and a strike below 1. *)
Lemma one_row_quote_pos (yes k : Q) (sd : side) :
  0 < yes -> k < 1 -> 0 < one_row_quote yes k sd.
Proof.
  intros Hy Hk.
  assert (Hb : 0 < yes * (1 - k) * 1) by nra.
  assert (Ha : 0 < (1 - (1 - yes)) * (1 - k) * 1) by nra.
  destruct sd; cbn; [exact Hb | exact Ha |].
  apply Qlt_shift_div_l; lra.
Qed.

(** Over the rationals the three sides agree: the spread is zero. *)
Lemma one_row_quote_exact (yes k : Q) (sd : side) :
  one_row_quote yes k sd == yes * (1 - k).
Proof. destruct sd; cbn; field. Qed.

Lemma table_lookup (P : quote -> Prop) (table : list quote) (k : Q) :
  Forall P table ->
  (exists r, In r table /\ strike r == k) ->
  exists r rest,
    filter (fun r => Qeqb (strike r) k) table = r :: rest
    /\ P r /\ strike r == k.
Proof.
  intros HP (r0 & Hin & Hk).
  induction HP as [|r table Hr HP IH]; [destruct Hin|].
  simpl. destruct (Qeqb (strike r) k) eqn:E.
  - exists r, (filter (fun r => Qeqb (strike r) k) table).
    apply Qeqb_true in E. auto.
  - destruct Hin as [->|Hin]; [|exact (IH Hin)].
    exfalso. unfold Qeqb in E. apply Qeq_bool_neq in E. contradiction.
Qed.



(** An empty frame: [update_market_data] has already replaced the market
    data when [.iloc[-1]] raises, and the quotes stay the old ones.  No
    trade is executed afterwards: [execute_trade] rejects or raises, and
    leaves the ledger as it is; and [get_market_summary] raises as well. *)
Theorem update_market_data_empty_frame (np_exp : Q -> Q) (s : t)
        (uid : string) (k : Q) (q : Z) (ty : TradeType) (e : env) :
  fst (update_market_data np_exp s []) = Raise IndexError
  /\ current_market_data (snd (update_market_data np_exp s [])) = Some []
  /\ current_option_prices (snd (update_market_data np_exp s []))
     = current_option_prices s
  /\ Accounts.get_market_summary (snd (update_market_data np_exp s []))
     = Raise IndexError
  /\ not_executed
       (fst (execute_trade (snd (update_market_data np_exp s [])) uid k q ty e))
  /\ snd (execute_trade (snd (update_market_data np_exp s [])) uid k q ty e)
     = snd (update_market_data np_exp s []).
Proof.
  cbn [update_market_data iloc_last rev fst snd current_market_data
       current_option_prices].
  repeat (split; [reflexivity|]).
  set (s' := {| users := users s |}).
  unfold execute_trade.
  destruct (users_get s' uid); [|simpl; auto].
  destruct (market_resolved s'); [simpl; auto|].
  destruct (q <=? 0)%Z; [simpl; auto|].
  destruct (current_option_prices s'); [|simpl; auto].
  destruct (calculate_position_limit s' uid k); [|simpl; auto].
  destruct (positions_get s' uid); [|simpl; auto].
  destruct (_ && _); [simpl; auto|].
  destruct (price_trade _ _ _ _ _ _); [|simpl; auto].
  destruct (Qleb _ _); [simpl; auto|].
  simpl. auto.
Qed.
End QuoteFacts.

(* ================================================================== *)
(** * Further facts about resolution *)
(* ================================================================== *)

Module ResolutionFacts.
Import PyNum PyNumFacts PortfolioManager LedgerProps ResolutionProps LedgerFacts Lqa.
Local Open Scope Q_scope.

(** ** The flags *)

Lemma resolve_users_flags (fp : Q) (uids : list string) :
  forall s,
    market_resolved (snd (resolve_users fp uids s)) = market_resolved s
    /\ final_market_price (snd (resolve_users fp uids s)) = final_market_price s.
Proof.
  induction uids as [|uid uids IH]; intro s; simpl; [auto|].
  destruct (positions_get s uid) as [items|]; [|simpl; auto].
  destruct (users_get s uid) as [user|]; [|simpl; auto].
  destruct (settle_book fp items (current_cash user)) as [items' cash].
  destruct (IH (set_users
                  (set_positions s (dict_set String.eqb (positions s) uid items'))
                  (dict_set String.eqb (users s) uid
                     (set_total_realized_pnl (set_current_cash user cash)
                        (cash - starting_cash user))))) as (-> & ->).
  simpl. auto.
Qed.

Lemma resolve_market_flags (s : t) (fp : Q) :
  market_resolved (snd (resolve_market s fp)) = true
  /\ final_market_price (snd (resolve_market s fp)) = Some fp.
Proof.
  unfold resolve_market.
  destruct (resolve_users_flags fp (dict_keys (users (set_resolved s fp)))
              (set_resolved s fp)) as (-> & ->).
  simpl. auto.
Qed.

Lemma execute_trade_resolved (s : t) (uid : string) (k : Q) (q : Z)
      (ty : TradeType) (e : env) :
  market_resolved s = true ->
  exists m,
    execute_trade s uid k q ty e = (Return (false, m), s)
    /\ (m = UserNotFound \/ m = MarketAlreadyResolved).
Proof.
  intro H. unfold execute_trade. rewrite H.
  destruct (users_get s uid); eexists; split; try reflexivity; auto.
Qed.

(** Once [resolve_market] has been called, whether it returned or raised,
    trading is closed for good: whatever market updates and trade requests
    follow, no balance and no position changes any more, and every
    [execute_trade] is rejected, as "User not found" or as "Market has
    already resolved", and leaves the ledger as it is. *)
Theorem no_trading_after_resolution (np_exp : Q -> Q) (s : t) (fp : Q)
        (rs : list request) (uid : string) (k : Q) (q : Z) (ty : TradeType)
        (e : env) :
  users (session np_exp rs (snd (resolve_market s fp)))
  = users (snd (resolve_market s fp))
  /\ positions (session np_exp rs (snd (resolve_market s fp)))
     = positions (snd (resolve_market s fp))
  /\ exists m,
      execute_trade (session np_exp rs (snd (resolve_market s fp))) uid k q ty e
      = (Return (false, m), session np_exp rs (snd (resolve_market s fp)))
      /\ (m = UserNotFound \/ m = MarketAlreadyResolved).
Proof.
  set (s0 := snd (resolve_market s fp)).
  assert (H : market_resolved (session np_exp rs s0) = true
              /\ users (session np_exp rs s0) = users s0
              /\ positions (session np_exp rs s0) = positions s0).
  { apply (@session_invariant np_exp
             (fun s1 => market_resolved s1 = true
                        /\ users s1 = users s0
                        /\ positions s1 = positions s0)).
    - clear. intros s1 [df|uid k q ty e] (Hr & Hu & Hp); simpl.
      + destruct (update_market_data_frame np_exp s1 df) as (-> & -> & ->). auto.
      + destruct (@execute_trade_resolved s1 uid k q ty e Hr) as (m & -> & _).
        simpl. auto.
    - split; [apply resolve_market_flags | auto]. }
  destruct H as (Hr & Hu & Hp).
  split; [exact Hu|]. split; [exact Hp|].
  apply execute_trade_resolved. exact Hr.
Qed.

(** ** What resolution pays *)

Lemma py_sum_cons (x : Q) (l : list Q) : py_sum (x :: l) == x + py_sum l.
Proof.
  unfold py_sum at 1. simpl. rewrite py_sum_from. lra.
Qed.

(** The inner loop pays, for a book of OPEN positions, the payoff of every
    position. *)
Lemma settle_book_cash (fp : Q) (items : book) :
  all_open items ->
  forall cash,
    snd (settle_book fp items cash) == cash + py_sum (map (payoff fp) items).
Proof.
  intro H. induction H as [|[k p] items Hp H IH]; intro cash.
  - simpl. unfold py_sum. simpl. lra.
  - simpl in Hp. cbn [settle_book map]. rewrite py_sum_cons.
    destruct (Z.eqb_spec (Position.quantity p) 0) as [E|E]; cbn [negb].
    + specialize (IH cash).
      destruct (settle_book fp items cash) as [rest cash']. cbn [snd] in *.
      rewrite IH. unfold payoff. cbn [fst snd]. rewrite E.
      change (inject_Z 0) with 0. lra.
    + unfold Position.settle_position. rewrite Hp. cbn [PositionStatus_eqb negb].
      cbv zeta.
      specialize (IH (cash + inject_Z (Position.quantity p)
                             * py_max (fp / 100 - k) 0)).
      destruct (settle_book fp items _) as [rest cash']. cbn [snd] in *.
      rewrite IH. unfold payoff. cbn [fst snd]. lra.
Qed.

Lemma payoff_nonneg (fp : Q) (kp : Q * Position.t) :
  (0 <= Position.quantity (snd kp))%Z -> 0 <= payoff fp kp.
Proof.
  intro H. unfold payoff. apply Qmult_le_0_compat.
  - change 0 with (inject_Z 0). rewrite <- Zle_Qle. exact H.
  - destruct (py_max_spec (fp / 100 - fst kp) 0) as [[H1 ->]|[H1 ->]]; lra.
Qed.

Lemma payoffs_nonneg (fp : Q) (b : book) :
  book_ok b -> 0 <= py_sum (map (payoff fp) b).
Proof.
  intro H. induction H as [|kp b [_ Hq] H IH].
  - unfold py_sum. simpl. lra.
  - cbn [map]. rewrite py_sum_cons.
    pose proof (@payoff_nonneg fp kp Hq). lra.
Qed.

(** The outer loop, when no user id occurs twice: a user of the list is
    settled once, from the record and the book the loop found; any other
    user is left alone. *)
Lemma resolve_users_effect (fp : Q) (uids : list string) :
  NoDup uids ->
  forall s s',
    resolve_users fp uids s = (Return tt, s') ->
    forall uid,
      (In uid uids ->
       exists u b,
         users_get s uid = Some u
         /\ positions_get s uid = Some b
         /\ users_get s' uid
            = Some (set_total_realized_pnl
                      (set_current_cash u (snd (settle_book fp b (current_cash u))))
                      (snd (settle_book fp b (current_cash u)) - starting_cash u))
         /\ positions_get s' uid = Some (fst (settle_book fp b (current_cash u))))
      /\ (~ In uid uids ->
          users_get s' uid = users_get s uid
          /\ positions_get s' uid = positions_get s uid).
Proof.
  intro Hnd. induction Hnd as [|uid0 uids Hnin Hnd IH]; intros s s' H uid.
  - simpl in H. injection H as <-. split; [intros []|auto].
  - simpl in H.
    destruct (positions_get s uid0) as [items|] eqn:Hb; [|discriminate].
    destruct (users_get s uid0) as [user|] eqn:Hu; [|discriminate].
    destruct (settle_book fp items (current_cash user)) as [items' cash] eqn:Es.
    set (s1 := set_users _ _) in H.
    assert (Hu1 : forall uid', uid0 <> uid' -> users_get s1 uid' = users_get s uid').
    { intros uid' Hne. unfold users_get. subst s1. simpl.
      apply dict_get_set_other. exact Hne. }
    assert (Hb1 : forall uid', uid0 <> uid' ->
                               positions_get s1 uid' = positions_get s uid').
    { intros uid' Hne. unfold positions_get. subst s1. simpl.
      apply dict_get_set_other. exact Hne. }
    destruct (IH s1 s' H uid) as (Hin & Hout).
    split.
    + intros [<-|Hin'].
      * destruct (Hout Hnin) as (-> & ->).
        exists user, items. rewrite Es. cbn [fst snd].
        split; [exact Hu|]. split; [exact Hb|].
        unfold users_get, positions_get. subst s1. simpl.
        split; apply dict_get_set_same; exact String.eqb_refl.
      * assert (Hne : uid0 <> uid) by (intros ->; contradiction).
        destruct (Hin Hin') as (u & b & Hu' & Hb' & Hres).
        exists u, b. rewrite <- (Hu1 uid Hne), <- (Hb1 uid Hne). auto.
    + intro Hn.
      assert (Hne : uid0 <> uid) by (intros ->; apply Hn; left; reflexivity).
      destruct Hout as (-> & ->); [intro; apply Hn; right; assumption|].
      split; [apply Hu1 | apply Hb1]; exact Hne.
Qed.

(** What [resolve_market] pays.  On a ledger in which no user id occurs
    twice, a user whose positions are all OPEN receives the payoff of every
    position: the cash after the call is the cash before plus the sum, over
    the user's strikes, of net quantity times [max(final / 100 - strike, 0)].
    The realized P&L is set to that cash minus the starting cash, the
    starting cash stays, and a user without short positions does not lose
    cash. *)
Theorem resolve_market_settlement (s s' : t) (fp : Q) (uid : string)
        (u : User) (b : book) :
  NoDup (dict_keys (users s)) ->
  resolve_market s fp = (Return tt, s') ->
  users_get s uid = Some u ->
  positions_get s uid = Some b ->
  all_open b ->
  exists u',
    users_get s' uid = Some u'
    /\ current_cash u' == current_cash u + py_sum (map (payoff fp) b)
    /\ total_realized_pnl u' = current_cash u' - starting_cash u
    /\ starting_cash u' = starting_cash u
    /\ username u' = username u
    /\ (book_ok b -> current_cash u <= current_cash u').
Proof.
  intros Hnd H Hu Hb Hopen. unfold resolve_market in H.
  assert (Hin : In uid (dict_keys (users (set_resolved s fp)))).
  { exact (users_get_keys s uid Hu). }
  destruct (@resolve_users_effect fp _ Hnd _ _ H uid) as (Heff & _).
  destruct (Heff Hin) as (u0 & b0 & Hu0 & Hb0 & Hu' & _).
  change (users_get s uid = Some u0) in Hu0.
  change (positions_get s uid = Some b0) in Hb0.
  rewrite Hu in Hu0. injection Hu0 as <-.
  rewrite Hb in Hb0. injection Hb0 as <-.
  eexists. split; [exact Hu'|]. cbn.
  split; [apply settle_book_cash; exact Hopen|].
  repeat (split; [reflexivity|]).
  intro Hok. rewrite (settle_book_cash fp Hopen).
  pose proof (payoffs_nonneg fp Hok). lra.
Qed.

Lemma resolve_market_settlement_witness :
  exists u',
    users_get (snd (resolve_market Scenario.after_trades 65)) "u-alice" = Some u'
    /\ current_cash u' == 149979 / 10 + 105 / 100.
Proof.
  assert (Hnd : NoDup (dict_keys (users Scenario.after_trades))).
  { vm_compute. repeat constructor. intros []. }
  assert (Hr : resolve_market Scenario.after_trades 65
               = (Return tt, snd (resolve_market Scenario.after_trades 65))).
  { vm_compute. reflexivity. }
  let ru := eval vm_compute in (users_get Scenario.after_trades "u-alice") in
  let rb := eval vm_compute in (positions_get Scenario.after_trades "u-alice") in
  match ru with
  | Some ?u =>
      match rb with
      | Some ?b =>
          assert (Hu : users_get Scenario.after_trades "u-alice" = Some u)
            by (vm_compute; reflexivity);
          assert (Hb : positions_get Scenario.after_trades "u-alice" = Some b)
            by (vm_compute; reflexivity);
          assert (Ho : all_open b) by (repeat constructor);
          destruct (@resolve_market_settlement Scenario.after_trades _ 65
                      "u-alice" u b Hnd Hr Hu Hb Ho) as (u' & Hu' & Hcash & _);
          exists u'; split; [exact Hu'|]; rewrite Hcash; vm_compute; reflexivity
      end
  end.
Defined.

(** ** No [KeyError] *)

Lemma dict_set_get_some (V : Type) (d : list (string * V)) (k k' : string)
      (v : V) :
  (exists v0, dict_get String.eqb d k' = Some v0) ->
  exists v1, dict_get String.eqb (dict_set String.eqb d k v) k' = Some v1.
Proof.
  intro H. destruct (String.eqb_spec k k') as [<-|Hne].
  - exists v. apply dict_get_set_same. exact String.eqb_refl.
  - rewrite dict_get_set_other by exact Hne. exact H.
Qed.

Lemma dict_set_get_inv (V : Type) (d : list (string * V)) (k k' : string)
      (v v1 : V) :
  (exists v0, dict_get String.eqb d k = Some v0) ->
  dict_get String.eqb (dict_set String.eqb d k v) k' = Some v1 ->
  exists v0, dict_get String.eqb d k' = Some v0.
Proof.
  intros H H1. destruct (String.eqb_spec k k') as [<-|Hne].
  - exact H.
  - rewrite dict_get_set_other in H1 by exact Hne. eauto.
Qed.

Lemma execute_trade_users_have_books (s : t) (uid : string) (k : Q) (q : Z)
      (ty : TradeType) (e : env) :
  users_have_books s -> users_have_books (snd (execute_trade s uid k q ty e)).
Proof.
  intro Hs.
  destruct (execute_trade_outcome s uid k q ty e)
    as [(m & -> & _)|[(ex & ->)|(u & bk & price & total & cmp &
                                  Hu & Hb & Hres & Hq & Hp & Hpos & ->)]];
    try exact Hs.
  set (tr := trade_of uid k q ty e price total cmp).
  destruct (apply_trade_eq s uid k ty total tr Hu Hb)
    as (Hus & Hget & (ps0 & Hps & Hps0) & _).
  assert (Happlied : users_have_books (apply_trade s uid k bk ty total tr)).
  { intros uid' u' Hu'. unfold users_get in Hu'. rewrite Hus in Hu'.
    apply dict_set_get_inv in Hu'; [|exists u; exact Hu].
    destruct Hu' as (u0 & Hu0). destruct (Hs uid' u0 Hu0) as (b0 & Hb0).
    unfold positions_get. rewrite Hps. apply dict_set_get_some.
    destruct Hps0 as [-> | ->]; [eauto|].
    apply dict_set_get_some. eauto. }
  cbv zeta. destruct (db_exception e) as [err|]; simpl; [|exact Happlied].
  rewrite (rollback_applied s uid k ty total tr Hu Hb).
  intros uid' u' Hu'. unfold users_get in Hu'. simpl in Hu'.
  apply dict_set_get_inv in Hu'.
  - destruct Hu' as (u0 & Hu0). destruct (Happlied uid' u0 Hu0) as (b0 & Hb0).
    unfold positions_get. simpl. apply dict_set_get_some. eauto.
  - rewrite Hus. eexists. apply dict_get_set_same. exact String.eqb_refl.
Qed.

Lemma session_users_have_books (np_exp : Q -> Q) (rs : list request) (s : t) :
  users_have_books s -> users_have_books (session np_exp rs s).
Proof.
  apply session_invariant. clear. intros s [df|uid k q ty e] H; simpl.
  - unfold users_have_books, users_get, positions_get.
    destruct (update_market_data_frame np_exp s df) as (-> & -> & _). exact H.
  - apply execute_trade_users_have_books. exact H.
Qed.

Lemma resolve_users_returns (fp : Q) (uids : list string) :
  forall s,
    (forall uid, In uid uids ->
                 (exists u, users_get s uid = Some u)
                 /\ exists b, positions_get s uid = Some b) ->
    fst (resolve_users fp uids s) = Return tt.
Proof.
  induction uids as [|uid uids IH]; intros s H; [reflexivity|].
  simpl. destruct (H uid (or_introl eq_refl)) as ((u & ->) & (b & ->)).
  destruct (settle_book fp b (current_cash u)) as [items' cash].
  apply IH. intros uid' Hin.
  destruct (H uid' (or_intror Hin)) as (Hu' & Hb').
  unfold users_get, positions_get. simpl.
  split; apply dict_set_get_some; assumption.
Qed.

Lemma summarize_no_key_error (s : t) (items : book) :
  forall acc tu tv, summarize s items acc tu tv <> Raise KeyError.
Proof.
  induction items as [|[k p] items IH]; intros acc tu tv; simpl; [discriminate|].
  destruct (negb _); [|apply IH].
  unfold get_option_price.
  destruct (current_option_prices s); [|discriminate].
  destruct (current_market_data s); [|discriminate].
  destruct (filter _ _); [discriminate|]. simpl. apply IH.
Qed.

(** No [KeyError].  On a ledger in which every user has an entry in
    [self.positions] (as [create_user] and [load_user_from_db] leave it),
    that stays so through every session, no [execute_trade] and no
    [get_user_portfolio] raises [KeyError], and [resolve_market] returns. *)
Theorem no_key_error (np_exp : Q -> Q) (rs : list request) (s0 : t)
        (uid : string) (k : Q) (q : Z) (ty : TradeType) (e : env) (fp : Q) :
  users_have_books s0 ->
  users_have_books (session np_exp rs s0)
  /\ fst (execute_trade (session np_exp rs s0) uid k q ty e) <> Raise KeyError
  /\ get_user_portfolio (session np_exp rs s0) uid <> Raise KeyError
  /\ fst (resolve_market (session np_exp rs s0) fp) = Return tt.
Proof.
  intro H0.
  assert (Hs : users_have_books (session np_exp rs s0))
    by (apply session_users_have_books; exact H0).
  set (s := session np_exp rs s0) in *.
  split; [exact Hs|]. split; [|split].
  - unfold execute_trade.
    destruct (users_get s uid) as [u|] eqn:Hu; [|discriminate].
    destruct (Hs uid u Hu) as (b & ->).
    destruct (market_resolved s); [discriminate|].
    destruct (q <=? 0)%Z; [discriminate|].
    destruct (current_option_prices s); [|discriminate].
    destruct (calculate_position_limit s uid k); [|discriminate].
    destruct (_ && _); [discriminate|].
    destruct (price_trade _ _ _ _ _ _); [|discriminate].
    destruct (Qleb _ _); [discriminate|].
    destruct (current_market_data s) as [md|]; [|discriminate].
    unfold iloc_last. destruct (rev md); [discriminate|].
    destruct (db_exception e); discriminate.
  - unfold get_user_portfolio.
    destruct (users_get s uid) as [u|] eqn:Hu; [|discriminate].
    destruct (Hs uid u Hu) as (b & ->).
    pose proof (@summarize_no_key_error s b [] 0 0) as Hn.
    destruct (summarize s b [] 0 0) as [[[ps tu] tv]|ex]; [discriminate|].
    simpl. congruence.
  - unfold resolve_market. apply resolve_users_returns.
    intros uid' Hin.
    apply keys_users_get in Hin. destruct Hin as (u & Hu).
    split; [exists u; exact Hu|].
    exact (Hs uid' u Hu).
Qed.

Lemma no_key_error_witness :
  users_have_books Scenario.fresh
  /\ fst (resolve_market Scenario.after_trades 65) = Return tt.
Proof.
  assert (H : users_have_books Scenario.fresh).
  { intros uid u Hu. unfold users_get, positions_get, Scenario.fresh in *.
    cbn [users positions dict_get] in *.
    destruct (String.eqb _ uid); [eauto | discriminate]. }
  split; [exact H|].
  exact (proj2 (proj2 (proj2
    (@no_key_error Scenario.np_exp Scenario.buy_then_sell Scenario.fresh
       "u-alice" 0.5 1 BUY (Scenario.saved "t3" 3) 65 H)))).
Defined.
End ResolutionFacts.

(* ================================================================== *)
(** * Further facts about the simulator *)
(* ================================================================== *)

Module SimulatorRunFacts.
Import PyNum PyNumFacts LiveMarketSimulator SimulatorQueries SimulatorProps
       HistoryProps SimulatorFacts Lqa.
Local Open Scope Q_scope.

(** ** Invariants of a run *)

Lemma run_invariant (I : t -> Prop) :
  (forall s c, I s -> I (snd (perform s c))) ->
  forall calls s, I s -> I (snd (run calls s)).
Proof.
  intro Hstep. induction calls as [|c calls IH]; intros s H; [exact H|].
  simpl. specialize (Hstep s c H).
  destruct (perform s c) as [o s']. simpl in Hstep.
  specialize (IH s' Hstep).
  destruct (run calls s') as [emitted final]. exact IH.
Qed.

(** ** The parameters *)

Lemma same_parameters_refl (s : t) : same_parameters s s.
Proof. unfold same_parameters. auto 10. Qed.

Lemma same_parameters_trans (s1 s2 s3 : t) :
  same_parameters s1 s2 -> same_parameters s2 s3 -> same_parameters s1 s3.
Proof.
  unfold same_parameters.
  intros (A1 & A2 & A3 & A4 & A5 & A6 & A7 & A8)
         (B1 & B2 & B3 & B4 & B5 & B6 & B7 & B8).
  repeat split; congruence.
Qed.

Ltac parameters := unfold same_parameters; simpl; auto 10.

Lemma generate_next_data_point_parameters (s : t) (d : draws) :
  same_parameters s (snd (generate_next_data_point s d)).
Proof.
  unfold generate_next_data_point.
  destruct (_ >=? _)%Z; [parameters|].
  destruct (_ >? _)%Z;
    [destruct (generate_price_movement _ _ _ _ _)|]; parameters.
Qed.

Lemma loop_exit_parameters (s : t) : same_parameters s (loop_exit s).
Proof.
  unfold loop_exit.
  destruct (_ >=? _)%Z; cbn [data_history with_state];
    destruct (0 <? _)%nat; parameters.
Qed.

Lemma stop_parameters (s : t) : same_parameters s (stop s).
Proof.
  unfold stop. destruct (_ || _); [|parameters].
  cbn [thread_alive with_thread].
  destruct (thread_alive s); [|parameters].
  pose proof (loop_exit_parameters
                (with_thread s true (time_interval s) true false)) as H.
  unfold same_parameters in *. simpl in *. exact H.
Qed.

Lemma perform_parameters (s : t) (c : call) :
  same_parameters s (snd (perform s c)).
Proof.
  destruct c as [i m| | | |d|clock|d]; simpl.
  - unfold start_live_simulation.
    destruct (SimulationState_eqb _ _); [parameters|].
    destruct (String.eqb m "auto"); parameters.
  - unfold pause. destruct (SimulationState_eqb _ _); parameters.
  - unfold resume. destruct (SimulationState_eqb _ _); parameters.
  - apply stop_parameters.
  - unfold step. pose proof (generate_next_data_point_parameters s d) as H.
    destruct (generate_next_data_point s d) as [[o|ex] s']; exact H.
  - pose proof (stop_parameters s) as H.
    unfold same_parameters, reset_simulation in *. simpl. exact H.
  - unfold thread_turn.
    destruct (thread_alive s); simpl; [|parameters].
    destruct (loop_condition s); [|apply loop_exit_parameters].
    destruct (pause_event s); [parameters|].
    pose proof (generate_next_data_point_parameters s d) as H.
    destruct (generate_next_data_point s d) as [[[dp|]|ex] s']; simpl in *.
    + exact H.
    + eapply same_parameters_trans; [exact H | apply loop_exit_parameters].
    + exact H.
Qed.

Lemma run_parameters (calls : list call) (s : t) :
  same_parameters s (snd (run calls s)).
Proof.
  apply (@run_invariant (same_parameters s)).
  - intros s1 c H. eapply same_parameters_trans; [exact H|].
    apply perform_parameters.
  - apply same_parameters_refl.
Qed.

Lemma perform_resolution (s : t) (c : call) (dp : data_point) :
  fst (perform s c) = Some dp -> market_resolution dp = final_resolution s.
Proof.
  assert (Hg : forall d o,
             fst (generate_next_data_point s d) = Return (Some o) ->
             market_resolution o = final_resolution s).
  { intros d o. unfold generate_next_data_point.
    destruct (_ >=? _)%Z; [discriminate|].
    destruct (_ >? _)%Z;
      [destruct (generate_price_movement _ _ _ _ _); [|discriminate]|];
      cbn; intro H; injection H as <-; reflexivity. }
  destruct c as [i m| | | |d|clock|d]; simpl; try discriminate.
  - unfold step. specialize (Hg d).
    destruct (generate_next_data_point s d) as [[o|ex] s']; [|discriminate].
    simpl in *. intros ->. apply Hg. reflexivity.
  - unfold thread_turn.
    destruct (thread_alive s); simpl; [|discriminate].
    destruct (loop_condition s); [|discriminate].
    destruct (pause_event s); [discriminate|].
    specialize (Hg d).
    destruct (generate_next_data_point s d) as [[[o|]|ex] s'];
      simpl in *; try discriminate.
    intro H. injection H as <-. apply Hg. reflexivity.
Qed.

(** No call changes what [__init__] has fixed: whatever is called on a
    simulator (start, pause, resume, stop, step, reset) and whatever the
    background thread does, the number of points, the initial price, the
    volatility, the threshold, the trend strength, the largest movement, the
    resolution of the market and the target price stay as they were, and
    every point the run emits carries that resolution.  In particular a
    reset does not draw a new resolution. *)
Theorem run_keeps_parameters (calls : list call) (s : t) :
  same_parameters s (snd (run calls s))
  /\ Forall (fun dp => market_resolution dp = final_resolution s)
            (fst (run calls s)).
Proof.
  split; [apply run_parameters|].
  revert s. induction calls as [|c calls IH]; intro s; [constructor|].
  cbn [run].
  pose proof (@perform_resolution s c) as Hdp.
  destruct (perform_parameters s c) as (_ & _ & _ & _ & _ & _ & Hres & _).
  destruct (perform s c) as [o s']. cbn [fst snd] in *.
  specialize (IH s'). rewrite Hres in IH.
  destruct (run calls s') as [emitted final]. cbn [fst] in *.
  destruct o as [dp|]; [constructor; [apply Hdp; reflexivity | exact IH] | exact IH].
Qed.

(** ** The history *)

Lemma seq_snoc (n : nat) : seq 0 (S n) = seq 0 n ++ [n].
Proof. rewrite seq_S. reflexivity. Qed.

Lemma init_well_indexed (n : Z) (ip vol tp ts mm : Q) (res : bool) (clock : Z) :
  well_indexed (init n ip vol tp ts mm res clock).
Proof.
  unfold well_indexed, init. simpl.
  repeat split; try reflexivity; try constructor. lia.
Qed.

Lemma generate_next_data_point_well_indexed (s : t) (d : draws) :
  well_indexed s -> well_indexed (snd (generate_next_data_point s d)).
Proof.
  intros H. pose proof H as (Hi & Hm & Hs & Hc & Hcap).
  unfold generate_next_data_point.
  destruct (Z.geb_spec (current_point_index s) (total_points s)) as [Hge|Hlt];
    [exact H|].
  assert (Hgen : forall mv pn mn,
    well_indexed
      (with_process s (current_point_index s + 1) pn mn
         (data_history s ++
            [ {| timestamp := (start_time s + 5 * current_point_index s)%Z;
                 price := py_round pn 2;
                 movement := py_round mv 3;
                 volume := py_int (inject_Z (randint d) * (1 + py_abs mv * 0.5));
                 bid_ask_spread :=
                   py_round (py_max 0.1 (0.5 + uniform d + py_abs mv * 0.1)) 2;
                 market_resolution := final_resolution s;
                 point_index := current_point_index s |} ])
         (Some {| timestamp := (start_time s + 5 * current_point_index s)%Z;
                  price := py_round pn 2;
                  movement := py_round mv 3;
                  volume := py_int (inject_Z (randint d) * (1 + py_abs mv * 0.5));
                  bid_ask_spread :=
                    py_round (py_max 0.1 (0.5 + uniform d + py_abs mv * 0.1)) 2;
                  market_resolution := final_resolution s;
                  point_index := current_point_index s |})
         (start_time s))).
  { intros mv pn mn. unfold well_indexed. cbn [current_point_index data_history
      current_data_point total_points with_process].
    rewrite length_app, map_app. cbn [List.length map point_index].
    rewrite Nat.add_1_r, seq_snoc, map_app, last_point_app.
    split; [lia|]. split; [rewrite Hm, Hi; reflexivity|].
    split; [|split; [reflexivity | lia]].
    apply Forall_app. split; [exact Hs|].
    constructor; [|constructor]. split; reflexivity. }
  destruct (current_point_index s >? 0)%Z.
  - destruct (generate_price_movement s (current_price s)
                (current_point_index s) (previous_movement s) d) as [mv|ex];
      [|exact H].
    apply Hgen.
  - apply Hgen.
Qed.

Lemma loop_exit_well_indexed (s : t) : well_indexed s -> well_indexed (loop_exit s).
Proof.
  intros (Hi & Hm & Hs & Hc & Hcap). unfold loop_exit.
  assert (Hst : forall st, data_history (with_state s st) = data_history s)
    by reflexivity.
  destruct (_ >=? _)%Z; rewrite Hst;
    (destruct (Nat.ltb_spec 0 (List.length (data_history s))) as [Hne|He];
     [|unfold well_indexed; simpl; auto 10]);
    (destruct (@nonempty_last _ (data_history s) Hne) as (h & dp & Eh);
     unfold well_indexed;
     cbn [current_point_index data_history current_data_point total_points
          start_time final_resolution with_process with_thread with_state];
     rewrite Hc, Eh in *; rewrite set_last_price_app, last_point_app;
     cbn [option_map]; rewrite last_point_app;
     rewrite !length_app, !map_app in *; cbn [List.length map] in *;
     split; [exact Hi|]; split; [exact Hm|];
     split; [|split; [reflexivity | exact Hcap]];
     apply Forall_app in Hs; destruct Hs as (Hs1 & Hs2);
     apply Forall_app; split; [exact Hs1|];
     inversion Hs2; subst; constructor; [assumption | constructor]).
Qed.

Lemma stop_well_indexed (s : t) : well_indexed s -> well_indexed (stop s).
Proof.
  intro H. unfold stop. destruct (_ || _); [|exact H].
  cbn [thread_alive with_thread].
  destruct (thread_alive s); [|exact H].
  exact (@loop_exit_well_indexed
           (with_thread s true (time_interval s) true false) H).
Qed.

Lemma perform_well_indexed (s : t) (c : call) :
  well_indexed s -> well_indexed (snd (perform s c)).
Proof.
  intro H. destruct c as [i m| | | |d|clock|d]; simpl.
  - unfold start_live_simulation.
    destruct (SimulationState_eqb _ _); [exact H|].
    destruct (String.eqb m "auto"); exact H.
  - unfold pause. destruct (SimulationState_eqb _ _); exact H.
  - unfold resume. destruct (SimulationState_eqb _ _); exact H.
  - apply stop_well_indexed. exact H.
  - unfold step.
    pose proof (generate_next_data_point_well_indexed d H) as Hg.
    destruct (generate_next_data_point s d) as [[o|ex] s']; exact Hg.
  - unfold reset_simulation, well_indexed. simpl.
    repeat split; try constructor. lia.
  - unfold thread_turn.
    destruct (thread_alive s); simpl; [|exact H].
    destruct (loop_condition s); [|apply loop_exit_well_indexed; exact H].
    destruct (pause_event s); [exact H|].
    pose proof (generate_next_data_point_well_indexed d H) as Hg.
    destruct (generate_next_data_point s d) as [[[dp|]|ex] s']; simpl in *.
    + exact Hg.
    + apply loop_exit_well_indexed. exact Hg.
    + exact Hg.
Qed.

Lemma run_well_indexed (calls : list call) (s : t) :
  well_indexed s -> well_indexed (snd (run calls s)).
Proof.
  apply (@run_invariant well_indexed).
  intros s1 c H. apply perform_well_indexed. exact H.
Qed.

(** The history of a run.  In every state a run of calls reaches from
    [__init__], the recorded history holds exactly the points of index 0, 1,
    ..., in order, as many as [current_point_index] says and never more than
    [total_points]; every point carries the time of its index, five minutes
    a point from the start of the run, and the resolution drawn in
    [__init__]; and [current_data_point] is the last point of the history,
    also after the terminal adjustment has rewritten its price. *)
Theorem history_well_indexed (n : Z) (ip vol tp ts mm : Q) (res : bool)
        (clock : Z) (calls : list call) :
  well_indexed (snd (run calls (init n ip vol tp ts mm res clock))).
Proof.
  apply (@run_invariant well_indexed).
  - intros s c H. apply perform_well_indexed. exact H.
  - apply init_well_indexed.
Qed.

(** ** The size of a step *)

Lemma scaled_within (a mv c : Q) :
  0 <= c <= 1 -> - a <= mv <= a -> - a <= mv * c <= a.
Proof. intros [H0 H1] [H2 H3]. split; nra. Qed.

Lemma dampened_within (a mv dist : Q) :
  0 <= dist -> - a <= mv <= a ->
  - a <= mv * (1 - py_min 0.6 (dist * 0.1)) <= a.
Proof.
  intros Hd Hm. apply scaled_within; [|exact Hm].
  destruct (py_min_spec 0.6 (dist * 0.1)) as [[H ->]|[H ->]]; lra.
Qed.

Lemma clamp_step (lo hi price a m : Q) :
  lo <= price <= hi -> - a <= m <= a ->
  price - a <= py_max lo (py_min hi (price + m)) <= price + a.
Proof.
  intros [H1 H2] [H3 H4].
  destruct (py_min_spec hi (price + m)) as [[H5 ->]|[H5 ->]];
    destruct (py_max_spec lo (price + m)) as [[H6 E6]|[H6 E6]];
    destruct (py_max_spec lo hi) as [[H7 E7]|[H7 E7]];
    rewrite ?E6, ?E7; lra.
Qed.

(** The soft bounds never move the price further than the movement they
    are given, as long as the price was within the hard bounds. *)
Lemma apply_soft_bounds_step (price mv a : Q) (pre : bool) :
  (if pre then 5 <= price <= 95 else 1 <= price <= 99) ->
  - a <= mv <= a ->
  price - a <= apply_soft_bounds price mv pre <= price + a.
Proof.
  intros Hp Hm. unfold apply_soft_bounds. destruct pre; cbn [fst snd]; cbv zeta.
  - case_Qltb (price + mv) 8; [case_Qltb (price + mv) 12|];
      [| |case_Qltb 92 (price + mv); [case_Qltb 88 (price + mv)|]];
      apply clamp_step; try exact Hp; try exact Hm;
      apply dampened_within; try exact Hm; lra.
  - case_Qltb (price + mv) 2; [case_Qltb (price + mv) 5|];
      [| |case_Qltb 98 (price + mv); [case_Qltb 95 (price + mv)|]];
      apply clamp_step; try exact Hp; try exact Hm;
      apply dampened_within; try exact Hm; lra.
Qed.

Lemma generate_price_movement_bounds (s : t) (cp pm : Q) (idx : Z) (d : draws)
      (mv : Q) :
  0 <= max_movement s ->
  generate_price_movement s cp idx pm d = Return mv ->
  - max_movement s <= mv <= max_movement s.
Proof.
  intros Hmm. unfold generate_price_movement.
  destruct (idx <? threshold_point s)%Z; cbn [bind].
  - destruct (np_random_normal _ _); cbn [bind]; [|discriminate].
    intro H. injection H as <-. apply clamp_bounds. lra.
  - destruct (true_div (idx - threshold_point s) _); cbn [bind]; [|discriminate].
    destruct (true_div (total_points s - idx) _); cbn [bind]; [|discriminate].
    destruct (np_random_normal _ _); cbn [bind]; [|discriminate].
    intro H. injection H as <-. apply clamp_bounds. lra.
Qed.

Lemma last_index (h : list data_point) (dp : data_point) :
  map point_index (h ++ [dp])
  = map Z.of_nat (seq 0 (List.length (h ++ [dp]))) ->
  point_index dp = Z.of_nat (List.length h).
Proof.
  rewrite length_app, map_app. cbn [List.length map].
  rewrite Nat.add_1_r, seq_snoc, map_app. cbn [map].
  intro H. apply app_inj_tail in H. exact (proj2 H).
Qed.

(** Before a point of index above 0 is generated, the current price is
    within the hard bounds that go with that index. *)
Lemma price_within_next (s : t) :
  bounded s -> well_indexed s -> (current_point_index s > 0)%Z ->
  if (current_point_index s <? threshold_point s)%Z
  then 5 <= current_price s <= 95
  else 1 <= current_price s <= 99.
Proof.
  intros (_ & _ & Hc) (Hi & Hm & _) Hpos.
  assert (Hne : (1 <= List.length (data_history s))%nat) by lia.
  destruct (@nonempty_last _ (data_history s) Hne) as (h & dp & Eh).
  rewrite Eh in Hc, Hm, Hi. rewrite last_point_app in Hc.
  apply last_index in Hm. rewrite length_app in Hi. cbn [List.length] in Hi.
  unfold price_within in Hc. rewrite Hm in Hc.
  destruct (Z.ltb_spec (current_point_index s) (threshold_point s)) as [Hlt|Hge].
  - replace (Z.of_nat (List.length h) <? threshold_point s)%Z with true in Hc
      by (symmetry; apply Z.ltb_lt; lia).
    exact Hc.
  - destruct (_ <? _)%Z; lra.
Qed.

Lemma generate_next_data_point_step (s : t) (d : draws) :
  bounded s -> well_indexed s -> 0 <= max_movement s ->
  current_price s - max_movement s
  <= current_price (snd (generate_next_data_point s d))
  <= current_price s + max_movement s.
Proof.
  intros Hb Hw Hmm. unfold generate_next_data_point.
  destruct (_ >=? _)%Z; [simpl; lra|].
  destruct (Z.gtb_spec (current_point_index s) 0) as [Hpos|Hnpos];
    [|simpl; lra].
  destruct (generate_price_movement s (current_price s)
              (current_point_index s) (previous_movement s) d) as [mv|ex] eqn:E;
    [|simpl; lra].
  cbn [bind snd current_price with_process].
  apply apply_soft_bounds_step.
  - apply price_within_next; [exact Hb | exact Hw | lia].
  - exact (generate_price_movement_bounds _ _ _ _ _ Hmm E).
Qed.

(** The size of a step.  In every state a run of calls reaches from
    [__init__] with a largest movement [mm >= 0], generating the next point
    (in [step()] or in the background loop) moves the current price by [mm]
    at most, whatever the draws; a call that generates nothing leaves the
    price where it was. *)
Theorem step_size_bounded (n : Z) (ip vol tp ts mm : Q) (res : bool)
        (clock : Z) (calls : list call) (d : draws) :
  0 <= mm ->
  current_price (snd (run calls (init n ip vol tp ts mm res clock))) - mm
  <= current_price
       (snd (generate_next_data_point
               (snd (run calls (init n ip vol tp ts mm res clock))) d))
  <= current_price (snd (run calls (init n ip vol tp ts mm res clock))) + mm.
Proof.
  intro Hmm.
  set (s0 := init n ip vol tp ts mm res clock).
  assert (H : seeded (snd (run calls s0)) /\ bounded (snd (run calls s0))).
  { apply (@run_invariant (fun s => seeded s /\ bounded s)).
    - intros s c [Hs Hb]. split.
      + exact (proj1 (perform_spec c Hs)).
      + apply perform_bounded; assumption.
    - split; [apply init_seeded | apply init_bounded]. }
  destruct H as (_ & Hb).
  assert (Hw : well_indexed (snd (run calls s0)))
    by (apply run_well_indexed, init_well_indexed).
  destruct (run_parameters calls s0) as (_ & _ & _ & _ & _ & Hm & _).
  change (max_movement s0) with mm in Hm.
  rewrite <- Hm.
  apply generate_next_data_point_step; [exact Hb | exact Hw|].
  rewrite Hm. exact Hmm.
Qed.

Lemma step_size_bounded_witness :
  0 <= 4
  /\ current_price SimScenario.stepped_once - 4
     <= current_price
          (snd (generate_next_data_point SimScenario.stepped_once
                  SimScenario.quiet_draw))
     <= current_price SimScenario.stepped_once + 4.
Proof.
  assert (H : 0 <= 4) by lra.
  split; [exact H|].
  exact (@step_size_bounded 10 50 1.8 0.7 0.08 4 true 0
           [Start 1 "manual"; Step SimScenario.quiet_draw]
           SimScenario.quiet_draw H).
Defined.

(** ** Stepping by hand *)

Lemma step_emits (s : t) (d : draws) :
  0 <= volatility s ->
  (current_point_index s < total_points s)%Z ->
  exists dp,
    perform s (Step d) = (Some dp, snd (perform s (Step d)))
    /\ current_point_index (snd (perform s (Step d)))
       = (current_point_index s + 1)%Z
    /\ total_points (snd (perform s (Step d))) = total_points s
    /\ simulation_state (snd (perform s (Step d))) = simulation_state s
    /\ volatility (snd (perform s (Step d))) = volatility s.
Proof.
  intros Hv Hlt. cbn [perform]. unfold step, generate_next_data_point.
  replace (current_point_index s >=? total_points s)%Z with false
    by (symmetry; rewrite Z.geb_leb; apply Z.leb_gt; exact Hlt).
  destruct (current_point_index s >? 0)%Z.
  - destruct (@generate_price_movement_returns s (current_price s)
                (previous_movement s) (current_point_index s) d Hv Hlt) as (mv & ->).
    cbn. eexists. auto 10.
  - cbn. eexists. auto 10.
Qed.

Lemma step_at_the_end (s : t) (d : draws) :
  (total_points s <= current_point_index s)%Z ->
  perform s (Step d) = (None, with_state s COMPLETED).
Proof.
  intro Hge. cbn [perform]. unfold step, generate_next_data_point.
  replace (current_point_index s >=? total_points s)%Z with true
    by (symmetry; rewrite Z.geb_leb; apply Z.leb_le; exact Hge).
  reflexivity.
Qed.

Lemma steps_emit (ds : list draws) :
  forall s k,
    0 <= volatility s ->
    current_point_index s = Z.of_nat k ->
    let left := (Z.to_nat (total_points s) - k)%nat in
    List.length (fst (run (map Step ds) s)) = Nat.min (List.length ds) left
    /\ current_point_index (snd (run (map Step ds) s))
       = Z.of_nat (k + Nat.min (List.length ds) left)
    /\ simulation_state (snd (run (map Step ds) s))
       = if (left <? List.length ds)%nat then COMPLETED else simulation_state s.
Proof.
  induction ds as [|d ds IH]; intros s k Hv Hk left.
  - cbn. rewrite Nat.add_0_r. auto.
  - cbn [map run List.length].
    destruct (Z.lt_ge_cases (current_point_index s) (total_points s)) as [Hlt|Hge].
    + destruct (@step_emits s d Hv Hlt) as (dp & E & Hi & Ht & Hst & Hvol).
      rewrite E.
      specialize (IH (snd (perform s (Step d))) (S k)).
      rewrite Ht, Hst, Hvol in IH. cbv zeta in IH.
      destruct (run (map Step ds) (snd (perform s (Step d)))) as [emitted final].
      cbn [fst snd List.length] in *.
      destruct IH as (IH1 & IH2 & IH3); [exact Hv | lia |].
      subst left. rewrite IH1, IH2, IH3.
      split; [lia|]. split; [lia|].
      destruct (Nat.ltb_spec (Z.to_nat (total_points s) - S k) (List.length ds));
        destruct (Nat.ltb_spec (Z.to_nat (total_points s) - k)
                               (S (List.length ds)));
        try reflexivity; lia.
    + rewrite (@step_at_the_end s d Hge).
      specialize (IH (with_state s COMPLETED) k Hv Hk).
      cbn [total_points with_state simulation_state] in IH. cbv zeta in IH.
      destruct (run (map Step ds) (with_state s COMPLETED)) as [emitted final].
      cbn [fst snd] in *.
      destruct IH as (IH1 & IH2 & IH3).
      subst left. rewrite IH1, IH2, IH3.
      assert (E0 : (Z.to_nat (total_points s) - k = 0)%nat) by lia.
      rewrite E0, !Nat.min_0_r.
      split; [reflexivity|]. split; [reflexivity|].
      change (0 <? S (List.length ds))%nat with true. cbv iota.
      destruct (0 <? List.length ds)%nat; reflexivity.
Qed.

(** Stepping by hand.  For a volatility that is not negative, [k] calls
    of [step()] on a new simulator of [n] points emit [min(k, n)] points,
    whatever the draws: no step fails, and the steps after the [n]-th return
    [None].  The state turns COMPLETED with the first such step, and not
    before.  (With a negative volatility the second step raises the
    [ValueError] of [np.random.normal].) *)
Theorem stepping_emits (n : Z) (ip vol tp ts mm : Q) (res : bool) (clock : Z)
        (ds : list draws) :
  0 <= vol ->
  List.length (fst (run (map Step ds) (init n ip vol tp ts mm res clock)))
  = Nat.min (List.length ds) (Z.to_nat n)
  /\ current_point_index (snd (run (map Step ds) (init n ip vol tp ts mm res clock)))
     = Z.of_nat (Nat.min (List.length ds) (Z.to_nat n))
  /\ simulation_state (snd (run (map Step ds) (init n ip vol tp ts mm res clock)))
     = if (Z.to_nat n <? List.length ds)%nat then COMPLETED else STOPPED.
Proof.
  intro Hv.
  pose proof (@steps_emit ds (init n ip vol tp ts mm res clock) 0%nat Hv eq_refl)
    as H.
  cbn [total_points simulation_state init] in H. cbv zeta in H.
  rewrite Nat.sub_0_r, Nat.add_0_l in H. exact H.
Qed.

Lemma stepping_emits_witness :
  0 <= 1.8
  /\ List.length (fst (run (map Step (repeat SimScenario.quiet_draw 3))
                          (init 2 50 1.8 0.7 0.08 4 true 0))) = 2%nat
  /\ simulation_state (snd (run (map Step (repeat SimScenario.quiet_draw 3))
                               (init 2 50 1.8 0.7 0.08 4 true 0))) = COMPLETED.
Proof.
  assert (H : 0 <= 1.8) by lra.
  split; [exact H|].
  pose proof (@stepping_emits 2 50 1.8 0.7 0.08 4 true 0%Z
                (repeat SimScenario.quiet_draw 3) H) as (H1 & _ & H3).
  split; [exact H1 | exact H3].
Defined.

(** ** Pausing *)

Lemma paused_turns (ds : list draws) (s : t) :
  thread_alive s = true -> loop_condition s = true -> pause_event s = true ->
  run (map ThreadTurn ds) s = ([], s).
Proof.
  intros Ha Hl Hp. induction ds as [|d ds IH]; [reflexivity|].
  cbn [map run perform]. unfold thread_turn. rewrite Ha, Hl, Hp. cbn [negb].
  rewrite IH. reflexivity.
Qed.

Lemma run_app (c1 c2 : list call) (s : t) :
  run (c1 ++ c2) s
  = (fst (run c1 s) ++ fst (run c2 (snd (run c1 s))),
     snd (run c2 (snd (run c1 s)))).
Proof.
  revert s. induction c1 as [|c c1 IH]; intro s.
  - cbn. destruct (run c2 s); reflexivity.
  - cbn [app run]. destruct (perform s c) as [o s1].
    rewrite IH. destruct (run c1 s1) as [e1 f1]. cbn [fst snd].
    destruct o; reflexivity.
Qed.

(** Pausing loses nothing.  While an automatic run is paused the
    background loop generates no point and changes nothing, however many
    turns it takes; [resume()] then puts the simulator back exactly as it
    was when [pause()] was called. *)
Theorem pause_resume_round_trip (n : Z) (k : nat) (s : t) (ds : list draws) :
  running n k s -> (Z.of_nat k < n)%Z ->
  run (Pause :: map ThreadTurn ds) s = ([], pause s)
  /\ simulation_state (pause s) = PAUSED
  /\ run (Pause :: map ThreadTurn ds ++ [Resume]) s = ([], s).
Proof.
  intros (Ha & Hs & Hp & Hst & Hn & Hi & Hl) Hk.
  assert (Epause : pause s
                   = with_state (with_thread s (thread_alive s) (time_interval s)
                                   (stop_event s) true) PAUSED).
  { unfold pause. rewrite Hst. reflexivity. }
  assert (Hturns : run (map ThreadTurn ds) (pause s) = ([], pause s)).
  { apply paused_turns; rewrite Epause; cbn; auto.
    unfold loop_condition. cbn. rewrite Hs, Hi, Hn.
    replace (Z.of_nat k <? n)%Z with true by (symmetry; apply Z.ltb_lt; exact Hk).
    reflexivity. }
  assert (Eres : resume (pause s) = s).
  { rewrite Epause. unfold resume. cbn.
    destruct s; cbn in *; subst; reflexivity. }
  split; [|split].
  - cbn [run perform]. rewrite Hturns. reflexivity.
  - rewrite Epause. reflexivity.
  - cbn [run perform]. rewrite run_app, Hturns. cbn [fst snd run perform].
    rewrite Eres. reflexivity.
Qed.

Lemma pause_resume_round_trip_witness :
  running 10 3 (auto_run SimScenario.ten_points 0 (repeat SimScenario.quiet_draw 3))
  /\ (Z.of_nat 3 < 10)%Z
  /\ run (Pause :: map ThreadTurn (repeat SimScenario.quiet_draw 2) ++ [Resume])
         (auto_run SimScenario.ten_points 0 (repeat SimScenario.quiet_draw 3))
     = ([], auto_run SimScenario.ten_points 0 (repeat SimScenario.quiet_draw 3)).
Proof.
  assert (H : running 10 3
                (auto_run SimScenario.ten_points 0
                   (repeat SimScenario.quiet_draw 3))).
  { apply (@auto_run_running 10 50 1.8 0.7 0.08 4 true 0 0
             (repeat SimScenario.quiet_draw 3)); [lra | simpl; lia]. }
  assert (Hk : (Z.of_nat 3 < 10)%Z) by (simpl; lia).
  split; [exact H|]. split; [exact Hk|].
  exact (proj2 (proj2 (@pause_resume_round_trip 10 3 _
                         (repeat SimScenario.quiet_draw 2) H Hk))).
Defined.

(** ** The queries *)

(** [get_recent_history(n)] for [n >= 0]: the last [n] points of the
    history (all of them when there are fewer), in order; except for
    [n = 0], where the slice [[-0:]] is the whole history. *)
Theorem get_recent_history_suffix (s : t) (n : Z) :
  (0 <= n)%Z ->
  exists earlier,
    data_history s = earlier ++ get_recent_history s n
    /\ List.length (get_recent_history s n)
       = if (n =? 0)%Z then List.length (data_history s)
         else Nat.min (Z.to_nat n) (List.length (data_history s)).
Proof.
  intro Hn. unfold get_recent_history.
  destruct (data_history s) as [|dp h] eqn:E.
  - exists []. split; [reflexivity|]. destruct (n =? 0)%Z; [reflexivity|].
    rewrite Nat.min_0_r. reflexivity.
  - rewrite <- E. clear E dp h. unfold slice_from.
    set (l := data_history s).
    set (i := Z.to_nat _).
    exists (firstn i l). split; [symmetry; apply firstn_skipn|].
    rewrite length_skipn. subst i.
    destruct (Z.eqb_spec n 0) as [->|Hne].
    + cbn. lia.
    + replace (- n <? 0)%Z with true by (symmetry; apply Z.ltb_lt; lia). lia.
Qed.

Lemma get_recent_history_suffix_witness :
  (0 <= 0)%Z
  /\ exists earlier,
      data_history SimScenario.stepped_to_the_end
      = earlier ++ get_recent_history SimScenario.stepped_to_the_end 0
      /\ List.length (get_recent_history SimScenario.stepped_to_the_end 0)
         = List.length (data_history SimScenario.stepped_to_the_end).
Proof.
  assert (H : (0 <= 0)%Z) by lia.
  split; [exact H|].
  exact (@get_recent_history_suffix SimScenario.stepped_to_the_end 0 H).
Defined.

(** [get_simulation_stats()] in the states a run reaches from [__init__]:
    with [total_points = 0] the progress is a division by zero and the call
    raises; otherwise it returns, the progress is between 0 and 100
    percent, and the current point is the number of recorded points. *)
Theorem simulation_progress (n : Z) (ip vol tp ts mm : Q) (res : bool)
        (clock : Z) (calls : list call) :
  match get_simulation_stats (snd (run calls (init n ip vol tp ts mm res clock)))
  with
  | Return st =>
      n <> 0%Z
      /\ 0 <= progress_percent st <= 100
      /\ current_point st
         = Z.of_nat (List.length
                       (data_history
                          (snd (run calls (init n ip vol tp ts mm res clock)))))
      /\ stats_total_points st = n
  | Raise e => n = 0%Z /\ e = ZeroDivisionError
  end.
Proof.
  set (s := snd (run calls (init n ip vol tp ts mm res clock))).
  destruct (run_parameters calls (init n ip vol tp ts mm res clock))
    as (Ht & _).
  change (total_points s = n) in Ht.
  pose proof (@run_well_indexed calls _
                (init_well_indexed n ip vol tp ts mm res clock))
    as (Hi & _ & _ & _ & Hcap).
  fold s in Hi, Hcap. rewrite Ht in Hcap.
  unfold get_simulation_stats, true_div. rewrite Ht.
  destruct (Z.eqb_spec n 0) as [E|E]; cbn [bind]; [auto|].
  cbn [progress_percent current_point stats_total_points].
  split; [exact E|]. split; [|auto].
  assert (H0 : (0 <= current_point_index s)%Z) by lia.
  destruct (Z.lt_ge_cases 0 n) as [Hpos|Hneg].
  - assert (Hle : (current_point_index s <= n)%Z) by lia.
    assert (HnQ : 0 < inject_Z n).
    { change 0 with (inject_Z 0). rewrite <- Zlt_Qlt. exact Hpos. }
    assert (H0Q : 0 <= inject_Z (current_point_index s)).
    { change 0 with (inject_Z 0). rewrite <- Zle_Qle. exact H0. }
    assert (HleQ : inject_Z (current_point_index s) <= inject_Z n).
    { rewrite <- Zle_Qle. exact Hle. }
    assert (Hf0 : 0 <= inject_Z (current_point_index s) / inject_Z n).
    { apply Qle_shift_div_l; [exact HnQ | lra]. }
    assert (Hf1 : inject_Z (current_point_index s) / inject_Z n <= 1).
    { apply Qle_shift_div_r; [exact HnQ | lra]. }
    lra.
  - assert (E0 : current_point_index s = 0%Z) by lia.
    rewrite E0. change (inject_Z 0) with 0.
    assert (Hz : 0 / inject_Z n * 100 == 0).
    { unfold Qdiv. lra. }
    rewrite Hz. lra.
Qed.

(** ** The fields of a generated point *)

Lemma py_int_ge (x : Q) (b : Z) : inject_Z b <= x -> (b <= py_int x)%Z.
Proof.
  intro H. unfold py_int. apply Z.quot_le_lower_bound; [reflexivity|].
  unfold Qle in H. simpl in H. lia.
Qed.

Lemma py_round_2_ge (x : Q) : 0.1 <= x -> 0.1 <= py_round x 2.
Proof.
  intro H. unfold py_round.
  change (inject_Z (10 ^ Z.of_nat 2)) with 100.
  assert (Hr : (10 <= round_half_even (x * 100))%Z).
  { apply round_half_even_ge. change (inject_Z 10) with 10. lra. }
  apply Qle_shift_div_l; [lra|].
  rewrite Zle_Qle in Hr. change (inject_Z 10) with 10 in Hr. lra.
Qed.

(** What a generated point holds.  When [generate_next_data_point]
    returns a point, the point has the index the simulator was at, which
    then moves on by one; it is appended to the history and is what
    [get_current_data_point] returns; its price is the new current price,
    as [get_current_price] returns it, rounded to two decimals; its spread is at least 0.1; and its volume is at least the
    base volume drawn, when that is not negative. *)
Theorem generated_point_fields (s s' : t) (d : draws) (dp : data_point) :
  (0 <= randint d)%Z ->
  generate_next_data_point s d = (Return (Some dp), s') ->
  point_index dp = current_point_index s
  /\ current_point_index s' = (current_point_index s + 1)%Z
  /\ data_history s' = data_history s ++ [dp]
  /\ get_current_data_point s' = Some dp
  /\ timestamp dp = (start_time s + 5 * current_point_index s)%Z
  /\ price dp = py_round (get_current_price s') 2
  /\ 0.1 <= bid_ask_spread dp
  /\ (randint d <= volume dp)%Z
  /\ simulation_state s' = simulation_state s.
Proof.
  intros Hr. unfold generate_next_data_point.
  destruct (_ >=? _)%Z; [discriminate|].
  assert (Hfields : forall mv,
    0.1 <= py_round (py_max 0.1 (0.5 + uniform d + py_abs mv * 0.1)) 2
    /\ (randint d <= py_int (inject_Z (randint d) * (1 + py_abs mv * 0.5)))%Z).
  { intro mv. split.
    - apply py_round_2_ge.
      destruct (py_max_spec 0.1 (0.5 + uniform d + py_abs mv * 0.1))
        as [[H ->]|[H ->]]; lra.
    - apply py_int_ge.
      assert (Ha : 0 <= py_abs mv) by apply Qabs_nonneg.
      assert (Hb : 0 <= inject_Z (randint d)).
      { change 0 with (inject_Z 0). rewrite <- Zle_Qle. exact Hr. }
      nra. }
  destruct (current_point_index s >? 0)%Z.
  - destruct (generate_price_movement s (current_price s)
                (current_point_index s) (previous_movement s) d) as [mv|ex];
      [|discriminate].
    cbn [bind]. intro H. injection H as <- <-. cbn.
    destruct (Hfields mv). auto 10.
  - intro H. injection H as <- <-. cbn.
    destruct (Hfields 0). auto 10.
Qed.

Lemma generated_point_fields_witness :
  (0 <= randint SimScenario.quiet_draw)%Z
  /\ exists dp,
      fst (generate_next_data_point SimScenario.ten_points SimScenario.quiet_draw)
      = Return (Some dp)
      /\ 0.1 <= bid_ask_spread dp
      /\ (randint SimScenario.quiet_draw <= volume dp)%Z.
Proof.
  assert (H : (0 <= randint SimScenario.quiet_draw)%Z) by (simpl; lia).
  split; [exact H|].
  let r := eval vm_compute in
      (generate_next_data_point SimScenario.ten_points SimScenario.quiet_draw) in
  match r with
  | (Return (Some ?dp), ?s') =>
      assert (Hg : generate_next_data_point SimScenario.ten_points
                     SimScenario.quiet_draw = (Return (Some dp), s'))
        by (vm_compute; reflexivity);
      exists dp;
      destruct (@generated_point_fields SimScenario.ten_points s'
                  SimScenario.quiet_draw dp H Hg)
        as (_ & _ & _ & _ & _ & _ & Hs & Hv & _)
  end.
  split; [rewrite Hg; reflexivity|]. split; [exact Hs | exact Hv].
Defined.
End SimulatorRunFacts.

(* ================================================================== *)
(** * Further facts about the pricing transform *)
(* ================================================================== *)

Section FrameShape.
Variable F : Type.
Variable O : float_ops F.

Lemma zip_rows_columns (strike : F) (df : list (prob_row F)) :
  forall ts ds,
    List.length ts = List.length df ->
    List.length ds = List.length df ->
    map (@pr_yes_price F) (zip_rows O strike df ts ds) = map (@yes_price F) df
    /\ map (@pr_no_price F) (zip_rows O strike df ts ds) = map (@no_price F) df
    /\ map (@t_index F) (zip_rows O strike df ts ds) = ts.
Proof.
  induction df as [|r df IH]; intros [|t ts] [|d ds] Ht Hd;
    simpl in *; try discriminate; auto.
  destruct (IH ts ds) as (-> & -> & ->); auto.
Qed.

Lemma decay_length (df : list (prob_row F)) (k : F) :
  List.length
    (if (Z.of_nat (List.length df) - 1 =? 0)%Z
     then map (fun _ => f_of_Z O 1) (range_len df)
     else decay_column O k (range_len df) (Z.of_nat (List.length df) - 1))
  = List.length df.
Proof.
  destruct (_ =? _)%Z; unfold decay_column; rewrite length_map;
    apply range_len_length.
Qed.

(** Both versions of the transform add their columns to the frame they are
    given and change nothing else: as many rows, in the same order, with
    the same [yes_price] and [no_price], numbered 0, 1, ... in [t_index]. *)
Theorem transform_keeps_frame (df : list (prob_row F)) (strike k : F) :
  (List.length (compute_option_prices_from_df O df strike k) = List.length df
   /\ map (@pr_yes_price F) (compute_option_prices_from_df O df strike k)
      = map (@yes_price F) df
   /\ map (@pr_no_price F) (compute_option_prices_from_df O df strike k)
      = map (@no_price F) df
   /\ map (@t_index F) (compute_option_prices_from_df O df strike k)
      = map Z.of_nat (seq 0 (List.length df)))
  /\ (List.length (price_logic_compute_option_prices_from_df O df strike k)
      = List.length df
      /\ map (@pr_yes_price F)
             (price_logic_compute_option_prices_from_df O df strike k)
         = map (@yes_price F) df
      /\ map (@pr_no_price F)
             (price_logic_compute_option_prices_from_df O df strike k)
         = map (@no_price F) df
      /\ map (@t_index F)
             (price_logic_compute_option_prices_from_df O df strike k)
         = map Z.of_nat (seq 0 (List.length df))).
Proof.
  unfold compute_option_prices_from_df,
    price_logic_compute_option_prices_from_df.
  pose proof (range_len_length df) as Hr.
  pose proof (decay_length df k) as Hd.
  assert (Hd' : List.length (decay_column O k (range_len df)
                               (Z.of_nat (List.length df) - 1))
                = List.length df).
  { unfold decay_column. rewrite length_map. exact Hr. }
  split.
  - split; [apply zip_rows_length; assumption|].
    apply zip_rows_columns; assumption.
  - split; [apply zip_rows_length; assumption|].
    apply zip_rows_columns; assumption.
Qed.
End FrameShape.

Module TransformFacts.
Import Reals Lra RealCarrier PricingProps PricingFacts.
Local Open Scope R_scope.

Lemma zip_rows_envelope (strike : R) (df : list (prob_row R)) :
  strike <= 1 ->
  Forall (fun r => 0 <= yes_price r /\ 0 <= no_price r
                   /\ yes_price r + no_price r <= 1) df ->
  forall ts ds,
    Forall (fun d => 0 < d <= 1) ds ->
    Forall (fun r => 0 < decay_multiplier r <= 1
                     /\ 0 <= option_bid r <= option_ask r
                     /\ option_ask r <= 1 - strike)
           (zip_rows R_ops strike df ts ds).
Proof.
  intros Hk Hdf. induction Hdf as [|r df (Hy & Hn & Hs) Hdf IH];
    intros [|t ts] [|d ds] Hds; simpl; try constructor.
  - inversion Hds as [|d' ds' Hd Hds']; subst. simpl.
    split; [exact Hd|].
    assert (H1 : 0 <= 1 - strike) by lra.
    assert (H2 : 0 <= yes_price r * (1 - strike)) by (apply Rmult_le_pos; lra).
    assert (H3 : yes_price r * (1 - strike) <= (1 - no_price r) * (1 - strike))
      by (apply Rmult_le_compat_r; lra).
    assert (H4 : (1 - no_price r) * (1 - strike) <= 1 - strike) by nra.
    repeat split; nra.
  - apply IH. inversion Hds; assumption.
Qed.

Lemma decay_column_unit (k : R) (n : nat) :
  0 <= k ->
  Forall (fun d => 0 < d <= 1)
    (if (Z.of_nat n - 1 =? 0)%Z
     then map (fun _ => f_of_Z R_ops 1) (map Z.of_nat (seq 0 n))
     else decay_column R_ops k (map Z.of_nat (seq 0 n)) (Z.of_nat n - 1)).
Proof.
  intro Hk. destruct (Z.eqb_spec (Z.of_nat n - 1) 0) as [E|E].
  - apply Forall_forall. intros d Hd. apply in_map_iff in Hd as (t & <- & _).
    simpl. lra.
  - apply Forall_forall. intros d Hd. unfold decay_column in Hd.
    apply in_map_iff in Hd as (t & <- & Ht).
    apply in_map_iff in Ht as (i & <- & Hi). apply in_seq in Hi.
    simpl. split; [apply exp_pos|].
    rewrite <- exp_0. apply exp_le.
    assert (HT : 0 < IZR (Z.of_nat n - 1)) by (apply IZR_lt; lia).
    assert (Hi0 : 0 <= IZR (Z.of_nat i)) by (apply IZR_le; lia).
    assert (Hf : 0 <= IZR (Z.of_nat i) / IZR (Z.of_nat n - 1)).
    { unfold Rdiv. apply Rmult_le_pos; [exact Hi0|].
      left. apply Rinv_0_lt_compat. exact HT. }
    nra.
Qed.

(** The envelope of the quotes.  For a decay rate that is not negative, a
    strike of at most 1 and a frame of probabilities ([yes_price] and
    [no_price] not negative, their sum at most 1), every row of the
    ledger's transform has a decay multiplier in (0, 1], a bid that is not
    negative, an ask that is at least the bid, and an ask of at most
    [1 - strike]. *)
Theorem quote_envelope (df : list (prob_row R)) (strike k : R) :
  0 <= k -> strike <= 1 ->
  Forall (fun r => 0 <= yes_price r /\ 0 <= no_price r
                   /\ yes_price r + no_price r <= 1) df ->
  Forall (fun r => 0 < decay_multiplier r <= 1
                   /\ 0 <= option_bid r <= option_ask r
                   /\ option_ask r <= 1 - strike)
         (compute_option_prices_from_df R_ops df strike k).
Proof.
  intros Hk Hs Hdf. unfold compute_option_prices_from_df.
  apply zip_rows_envelope; [exact Hs | exact Hdf|].
  apply decay_column_unit. exact Hk.
Qed.

Lemma quote_envelope_witness :
  0 <= 1.5 /\ 0.5 <= 1
  /\ Forall (fun r => 0 < decay_multiplier r <= 1
                      /\ 0 <= option_bid r <= option_ask r
                      /\ option_ask r <= 1 - 0.5)
            (compute_option_prices_from_df R_ops
               [ {| yes_price := 0.6; no_price := 0.3 |};
                 {| yes_price := 0.7; no_price := 0.2 |} ] 0.5 1.5).
Proof.
  assert (H1 : 0 <= 1.5) by lra.
  assert (H2 : 0.5 <= 1) by lra.
  split; [exact H1|]. split; [exact H2|].
  apply (@quote_envelope _ 0.5 1.5 H1 H2).
  repeat constructor; simpl; lra.
Defined.

(** The stand-alone transform of [price-logic.py] divides by [T] without a
    guard, but on a frame of two rows or more [T] is not 0: with a finite
    decay rate its decay column holds no NaN, and is the column of the
    ledger's copy, [exp(-decay_rate * t / T)] on row [t]. *)
Theorem price_logic_no_nan_beyond_one_row (df : list (prob_row (option R)))
        (strike : option R) (k : R) :
  (2 <= List.length df)%nat ->
  map (@decay_multiplier (option R))
      (price_logic_compute_option_prices_from_df NaN_ops df strike (Some k))
  = map (fun i => Some (decay_at k (List.length df) i))
        (seq 0 (List.length df))
  /\ price_logic_compute_option_prices_from_df NaN_ops df strike (Some k)
     = compute_option_prices_from_df NaN_ops df strike (Some k).
Proof.
  intro H. split.
  - rewrite price_logic_decay_column. unfold decay_column, range_len.
    rewrite map_map. apply map_ext_in. intros i Hi. simpl.
    unfold decay_at.
    destruct (Z.eqb_spec (Z.of_nat (List.length df) - 1) 0) as [E|E]; [lia|].
    destruct (Req_dec_T (IZR (Z.of_nat (List.length df) - 1)) 0) as [E0|E0].
    + apply eq_IZR in E0. contradiction.
    + reflexivity.
  - apply price_logic_agrees. lia.
Qed.

Lemma price_logic_no_nan_beyond_one_row_witness :
  (2 <= List.length [ {| yes_price := Some 0.6%R; no_price := Some 0.4%R |};
                      {| yes_price := Some 0.7%R; no_price := Some 0.3%R |} ])%nat
  /\ map (@decay_multiplier (option R))
         (price_logic_compute_option_prices_from_df NaN_ops
            [ {| yes_price := Some 0.6; no_price := Some 0.4 |};
              {| yes_price := Some 0.7; no_price := Some 0.3 |} ]
            (Some 0.5) (Some 1.5))
     = map (fun i => Some (decay_at 1.5 2 i)) (seq 0 2).
Proof.
  assert (H : (2 <= List.length
                      [ {| yes_price := Some 0.6%R; no_price := Some 0.4%R |};
                        {| yes_price := Some 0.7%R; no_price := Some 0.3%R |} ])%nat)
    by (simpl; lia).
  split; [exact H|].
  exact (proj1 (@price_logic_no_nan_beyond_one_row _ (Some 0.5) 1.5 H)).
Defined.
End TransformFacts.

(* ================================================================== *)
(** * Facts about the accounts *)
(* ================================================================== *)

Module AccountFacts.
Import PyNum PyNumFacts PortfolioManager Accounts LedgerProps ResolutionProps
       AccountProps LedgerFacts Lqa.
Local Open Scope Q_scope.

(** ** Books, keyed by strike *)

Lemma Qeqb_trans_l (a b c : Q) : Qeqb a b = true -> Qeqb c a = Qeqb c b.
Proof.
  intro H. apply Qeqb_true in H.
  destruct (Qeqb c a) eqn:E1, (Qeqb c b) eqn:E2; try reflexivity.
  - apply Qeqb_true in E1. assert (E : c == b) by (rewrite E1; exact H).
    apply Qeqb_true in E. congruence.
  - apply Qeqb_true in E2. assert (E : c == a) by (rewrite E2, H; reflexivity).
    apply Qeqb_true in E. congruence.
Qed.

Lemma book_get_set_eq (b : book) (k k' : Q) (p : Position.t) :
  Qeqb k k' = true -> book_get (dict_set Qeqb b k p) k' = Some p.
Proof.
  intro H. unfold book_get. induction b as [|[k0 p0] b IH]; simpl.
  - rewrite H. reflexivity.
  - destruct (Qeqb k0 k) eqn:E; simpl.
    + rewrite <- (@Qeqb_trans_l k k' k0 H), E. reflexivity.
    + rewrite <- (@Qeqb_trans_l k k' k0 H), E. exact IH.
Qed.

Lemma book_get_set_neq (b : book) (k k' : Q) (p : Position.t) :
  Qeqb k k' = false -> book_get (dict_set Qeqb b k p) k' = book_get b k'.
Proof.
  intro H. unfold book_get. induction b as [|[k0 p0] b IH]; simpl.
  - rewrite H. reflexivity.
  - destruct (Qeqb k0 k) eqn:E; simpl.
    + destruct (Qeqb k0 k') eqn:E'; [|reflexivity].
      apply Qeqb_true in E, E'.
      assert (Ek : k == k') by (rewrite <- E; exact E').
      apply Qeqb_true in Ek. congruence.
    + rewrite IH. reflexivity.
Qed.

Lemma at_strike_app (k : Q) (rows : list Trade.t) (tr : Trade.t) :
  at_strike k (rows ++ [tr])
  = if Qeqb (Trade.strike_price tr) k
    then at_strike k rows ++ [tr] else at_strike k rows.
Proof.
  unfold at_strike. rewrite filter_app. simpl.
  destruct (Qeqb _ _); [reflexivity | apply app_nil_r].
Qed.

Lemma at_strike_eq (k k' : Q) (rows : list Trade.t) :
  Qeqb k k' = true -> at_strike k rows = at_strike k' rows.
Proof.
  intro H. unfold at_strike. apply filter_ext. intro tr.
  apply Qeqb_trans_l. exact H.
Qed.

(** ** Replaying the stored trades *)

Lemma replayed_app (uid : string) (k : Q) (rows : list Trade.t) (tr : Trade.t) :
  replayed uid k (rows ++ [tr]) = Position.add_trade (replayed uid k rows) tr.
Proof. unfold replayed. rewrite fold_left_app. reflexivity. Qed.

Lemma replayed_spec (uid : string) (k : Q) (rows : list Trade.t) :
  Position.trades (replayed uid k rows) = rows
  /\ Position.quantity (replayed uid k rows) = fold_quantity rows
  /\ Position.status (replayed uid k rows) = OPEN
  /\ Position.settlement_value (replayed uid k rows) = 0
  /\ Position.user_id (replayed uid k rows) = uid
  /\ Position.strike_price (replayed uid k rows) = k.
Proof.
  induction rows as [|tr rows IH] using rev_ind.
  - repeat split.
  - destruct IH as (Ht & Hq & Hs & Hv & Hu & Hk).
    rewrite replayed_app.
    split; [rewrite add_trade_trades, Ht; reflexivity|].
    split; [rewrite add_trade_quantity, Hq, fold_quantity_app; reflexivity|].
    unfold Position.add_trade. destruct (Trade.trade_type tr); simpl; auto.
Qed.

Lemma replay_trade_rebuilt (uid : string) (bk : book) (rows : list Trade.t)
      (tr : Trade.t) :
  rebuilt uid bk rows -> rebuilt uid (replay_trade uid bk tr) (rows ++ [tr]).
Proof.
  intros H k. rewrite at_strike_app.
  unfold replay_trade. cbv zeta.
  set (ks := Trade.strike_price tr).
  pose proof (H ks) as Hks. unfold dict_mem. fold (book_get bk ks).
  destruct (Qeqb ks k) eqn:E.
  - rewrite <- (@at_strike_eq ks k rows E).
    destruct (book_get bk ks) as [p|] eqn:Eb.
    + rewrite Eb. rewrite (@book_get_set_eq bk ks k _ E).
      destruct Hks as (k0 & Hk0 & -> & _).
      exists k0. split; [|split].
      * apply Qeqb_true in E. rewrite Hk0. exact E.
      * symmetry. apply replayed_app.
      * intro Hnil. apply app_eq_nil in Hnil. destruct Hnil. discriminate.
    + rewrite (@book_get_set_eq bk ks ks _ (Qeqb_refl ks)).
      rewrite (@book_get_set_eq _ ks k _ E).
      exists ks. split; [apply Qeqb_true; exact E|]. rewrite Hks.
      split; [reflexivity | discriminate].
  - specialize (H k).
    destruct (book_get bk ks) as [p|] eqn:Eb.
    + rewrite Eb. rewrite (@book_get_set_neq bk ks k _ E). exact H.
    + rewrite (@book_get_set_eq bk ks ks _ (Qeqb_refl ks)).
      rewrite (@book_get_set_neq _ ks k _ E), (@book_get_set_neq bk ks k _ E).
      exact H.
Qed.

Lemma fold_replay_rebuilt (uid : string) (rest : list Trade.t) :
  forall bk done,
    rebuilt uid bk done ->
    rebuilt uid (fold_left (replay_trade uid) rest bk) (done ++ rest).
Proof.
  induction rest as [|tr rest IH]; intros bk done H; simpl.
  - rewrite app_nil_r. exact H.
  - replace (done ++ tr :: rest) with ((done ++ [tr]) ++ rest)
      by (rewrite <- app_assoc; reflexivity).
    apply IH. apply replay_trade_rebuilt. exact H.
Qed.

(** Loading a stored user.  When the database holds the user,
    [load_user_from_db] returns [True], the user's record is the stored
    row, and the user's book is rebuilt from the stored trades alone: it has
    a position at a strike exactly when a stored trade is at that strike, and
    that position is a new position with the stored trades of the strike
    added in their order.  So it holds those trades, its net quantity is
    their fold, and it is OPEN with no settlement value, whatever it was
    before the load. *)
Theorem load_user_rebuilds_positions (self : t) (user_id : string)
        (db : stored_user) (r : user_row) (k : Q) :
  user_result db = Some r ->
  fst (load_user_from_db self user_id db) = true
  /\ users_get (snd (load_user_from_db self user_id db)) user_id
     = Some (user_of_row r)
  /\ exists bk,
      positions_get (snd (load_user_from_db self user_id db)) user_id = Some bk
      /\ match book_get bk k with
         | None => at_strike k (trades db) = []
         | Some p =>
             at_strike k (trades db) <> []
             /\ (exists k0, k0 == k
                            /\ p = replayed user_id k0 (at_strike k (trades db)))
             /\ Position.trades p = at_strike k (trades db)
             /\ Position.quantity p = fold_quantity (at_strike k (trades db))
             /\ Position.status p = OPEN
             /\ Position.settlement_value p = 0
         end.
Proof.
  intro Hr. unfold load_user_from_db. rewrite Hr. cbn [fst snd].
  split; [reflexivity|]. split.
  { unfold users_get. simpl. apply dict_get_set_same. exact String.eqb_refl. }
  eexists. split.
  { unfold positions_get. simpl. apply dict_get_set_same. exact String.eqb_refl. }
  assert (H : rebuilt user_id (fold_left (replay_trade user_id) (trades db) [])
                      ([] ++ trades db)).
  { apply fold_replay_rebuilt. intro k'. reflexivity. }
  specialize (H k). cbn [app] in H.
  destruct (book_get _ k) as [p|]; [|exact H].
  destruct H as (k0 & Hk0 & -> & Hne).
  destruct (replayed_spec user_id k0 (at_strike k (trades db)))
    as (Ht & Hq & Hs & Hv & _).
  split; [exact Hne|]. split; [exists k0; auto|]. auto.
Qed.

Lemma load_user_rebuilds_positions_witness :
  user_result
    {| user_result :=
         Some {| row_user_id := "u-alice"; row_username := "Alice";
                 row_starting_cash := 15000; row_current_cash := 149979 / 10;
                 row_total_realized_pnl := 0 |};
       trades :=
         [ trade_of "u-alice" 0.5 10 BUY (Scenario.saved "t1" 1) 0.3 3 60;
           trade_of "u-alice" 0.5 3 SELL (Scenario.saved "t2" 2) 0.3 0.9 60 ] |}
  = Some {| row_user_id := "u-alice"; row_username := "Alice";
            row_starting_cash := 15000; row_current_cash := 149979 / 10;
            row_total_realized_pnl := 0 |}
  /\ exists bk p,
      positions_get
        (snd (load_user_from_db empty "u-alice"
                {| user_result :=
                     Some {| row_user_id := "u-alice"; row_username := "Alice";
                             row_starting_cash := 15000;
                             row_current_cash := 149979 / 10;
                             row_total_realized_pnl := 0 |};
                   trades :=
                     [ trade_of "u-alice" 0.5 10 BUY (Scenario.saved "t1" 1)
                         0.3 3 60;
                       trade_of "u-alice" 0.5 3 SELL (Scenario.saved "t2" 2)
                         0.3 0.9 60 ] |}))
        "u-alice" = Some bk
      /\ book_get bk 0.5 = Some p
      /\ Position.quantity p = 7%Z
      /\ Position.status p = OPEN.
Proof.
  split; [reflexivity|].
  destruct (@load_user_rebuilds_positions empty "u-alice"
              {| user_result :=
                   Some {| row_user_id := "u-alice"; row_username := "Alice";
                           row_starting_cash := 15000;
                           row_current_cash := 149979 / 10;
                           row_total_realized_pnl := 0 |};
                 trades :=
                   [ trade_of "u-alice" 0.5 10 BUY (Scenario.saved "t1" 1)
                       0.3 3 60;
                     trade_of "u-alice" 0.5 3 SELL (Scenario.saved "t2" 2)
                       0.3 0.9 60 ] |}
              _ 0.5 eq_refl) as (_ & _ & bk & Hb & Hk).
  exists bk.
  destruct (book_get bk 0.5) as [p|] eqn:E.
  - exists p. destruct Hk as (_ & _ & _ & Hq & Hs & _).
    split; [exact Hb|]. split; [reflexivity|]. split; [exact Hq | exact Hs].
  - vm_compute in Hk. discriminate.
Defined.
End AccountFacts.

(* ================================================================== *)
(** * Facts about the calls on a ledger *)
(* ================================================================== *)

Module ApiFacts.
Import PyNum PyNumFacts PortfolioManager Accounts LedgerProps ResolutionProps
       AccountProps LedgerFacts Lqa.
Local Open Scope Q_scope.

(** ** Dictionaries keyed by user id *)

Lemma dict_set_keys_in (V : Type) (d : list (string * V)) (k k' : string)
      (v : V) :
  In k' (dict_keys (dict_set String.eqb d k v)) -> k' = k \/ In k' (dict_keys d).
Proof.
  unfold dict_keys. induction d as [|[k0 v0] d IH]; simpl.
  - intros [<-|[]]. auto.
  - destruct (String.eqb k0 k); simpl; [auto|].
    intros [<-|H]; [auto|]. destruct (IH H); auto.
Qed.

Lemma dict_set_keys_NoDup (V : Type) (d : list (string * V)) (k : string)
      (v : V) :
  NoDup (dict_keys d) -> NoDup (dict_keys (dict_set String.eqb d k v)).
Proof.
  unfold dict_keys. induction d as [|[k0 v0] d IH]; simpl; intro H.
  - constructor; [intros [] | constructor].
  - inversion H as [|x l Hnin Hnd]; subst.
    destruct (String.eqb_spec k0 k) as [->|Hne]; simpl.
    + constructor; assumption.
    + constructor; [|apply IH; exact Hnd].
      intro Hin. apply dict_set_keys_in in Hin. destruct Hin; [congruence | contradiction].
Qed.

Lemma dict_set_get_string (V : Type) (d : list (string * V)) (k k' : string)
      (v : V) :
  dict_get String.eqb (dict_set String.eqb d k v) k'
  = if String.eqb k k' then Some v else dict_get String.eqb d k'.
Proof.
  destruct (String.eqb_spec k k') as [<-|Hne].
  - apply dict_get_set_same. exact String.eqb_refl.
  - apply dict_get_set_other. exact Hne.
Qed.

Lemma dict_set_book_keys (b : book) (k : Q) (p : Position.t) :
  book_keys_known b -> known_strike k ->
  book_keys_known (dict_set Qeqb b k p).
Proof.
  intros H Hk. induction H as [|[k0 p0] b H0 H IH]; simpl.
  - constructor; [exact Hk | constructor].
  - destruct (Qeqb k0 k); constructor; auto.
Qed.

(** ** One accepted trade, book by book *)

(** A property of books that holds of every book of the ledger holds of them
    after [execute_trade], provided the three books an accepted trade goes
    through have it: the book with room for the strike, the book with the
    trade added, and the book after a rollback. *)
Lemma execute_trade_books (PB : book -> Prop) (s : t) (uid : string) (k : Q)
      (q : Z) (ty : TradeType) (e : env) :
  (forall u bk price total cmp,
      users_get s uid = Some u ->
      positions_get s uid = Some bk ->
      PB bk ->
      (0 < q)%Z ->
      price_trade s u (book_get_default bk uid k) k q ty = Priced price total ->
      let cur := book_get_default bk uid k in
      let tr := trade_of uid k q ty e price total cmp in
      PB (book_with bk uid k)
      /\ PB (dict_set Qeqb (book_with bk uid k) k (Position.add_trade cur tr))
      /\ PB (dict_set Qeqb
               (dict_set Qeqb (book_with bk uid k) k (Position.add_trade cur tr))
               k (rollback_position (Position.add_trade cur tr)))) ->
  Forall (fun ub => PB (snd ub)) (positions s) ->
  Forall (fun ub => PB (snd ub)) (positions (snd (execute_trade s uid k q ty e))).
Proof.
  intros Hstep Hs.
  destruct (execute_trade_outcome s uid k q ty e)
    as [(m & -> & _)|[(ex & ->)|(u & bk & price & total & cmp &
                                  Hu & Hb & Hres & Hq & Hp & Hpos & ->)]];
    try exact Hs.
  set (tr := trade_of uid k q ty e price total cmp).
  destruct (apply_trade_eq s uid k ty total tr Hu Hb)
    as (Hus & Hget & (ps0 & Hps & Hps0) & _).
  assert (Hbk : PB bk) by exact (dict_get_Forall _ _ _ Hs Hb).
  destruct (Hstep u bk price total cmp Hu Hb Hbk Hq Hp) as (H1 & H2 & H3).
  fold tr in H2, H3.
  assert (Happlied : Forall (fun ub => PB (snd ub))
                            (positions (apply_trade s uid k bk ty total tr))).
  { rewrite Hps. apply dict_set_Forall; [|exact H2].
    destruct Hps0 as [->| ->]; [exact Hs|].
    apply dict_set_Forall; [exact Hs | exact H1]. }
  cbv zeta. destruct (db_exception e) as [err|]; simpl; [|exact Happlied].
  rewrite (rollback_applied s uid k ty total tr Hu Hb). simpl.
  apply dict_set_Forall; [exact Happlied | exact H3].
Qed.

Lemma execute_trade_every_position (P : Position.t -> Prop) (s : t)
      (uid : string) (k : Q) (q : Z) (ty : TradeType) (e : env) :
  (forall uid k, P (Position.init uid k)) ->
  (forall p tr, P p -> P (Position.add_trade p tr)) ->
  (forall p tr, P p -> P (rollback_position (Position.add_trade p tr))) ->
  every_position P s ->
  every_position P (snd (execute_trade s uid k q ty e)).
Proof.
  intros Hinit Hadd Hroll. unfold every_position.
  apply execute_trade_books.
  intros u bk price total cmp Hu Hb Hbk Hq Hp cur tr.
  assert (Hw : book_every P (book_with bk uid k)).
  { unfold book_with. destruct (dict_mem Qeqb bk k); [exact Hbk|].
    apply dict_set_Forall; [exact Hbk | apply Hinit]. }
  assert (Hcur : P cur).
  { subst cur. unfold book_get_default, book_get.
    destruct (dict_get Qeqb bk k) as [p|] eqn:E; [|apply Hinit].
    exact (dict_get_Forall _ _ _ Hbk E). }
  assert (Ha : book_every P (dict_set Qeqb (book_with bk uid k) k
                               (Position.add_trade cur tr))).
  { apply dict_set_Forall; [exact Hw | apply Hadd; exact Hcur]. }
  split; [exact Hw|]. split; [exact Ha|].
  apply dict_set_Forall; [exact Ha | apply Hroll; exact Hcur].
Qed.

Lemma quoted_strike_known (s : t) (k : Q) (sd : side) (v : Q) :
  quotes_fixed s -> get_option_price s k sd = Return v -> known_strike k.
Proof.
  unfold quotes_fixed, get_option_price.
  destruct (current_option_prices s) as [table|]; [|discriminate].
  destruct (current_market_data s); [|discriminate].
  intros Hq H.
  destruct (filter (fun r => Qeqb (strike r) k) table) as [|r rest] eqn:E;
    [discriminate|].
  assert (Hin : In r (filter (fun r => Qeqb (strike r) k) table))
    by (rewrite E; left; reflexivity).
  apply filter_In in Hin. destruct Hin as (Hin & Hk).
  apply Qeqb_true in Hk.
  rewrite Forall_forall in Hq. destruct (Hq r Hin) as (k0 & Hk0 & E0).
  exists k0. split; [exact Hk0|]. rewrite E0. exact Hk.
Qed.

(** ** A trade keeps the ledger in order *)

Lemma book_with_keys_known (bk : book) (uid : string) (k : Q) :
  book_keys_known bk -> known_strike k -> book_keys_known (book_with bk uid k).
Proof.
  intros H Hk. unfold book_with. destruct (dict_mem Qeqb bk k); [exact H|].
  apply dict_set_book_keys; assumption.
Qed.

Lemma execute_trade_keys_known (s : t) (uid : string) (k : Q) (q : Z)
      (ty : TradeType) (e : env) :
  quotes_fixed s -> keys_known s ->
  keys_known (snd (execute_trade s uid k q ty e)).
Proof.
  intros Hq. unfold keys_known. apply execute_trade_books.
  intros u bk price total cmp Hu Hb Hbk Hpos Hp cur tr.
  destruct (price_trade_priced _ _ _ _ _ _ Hp) as (Hget & _).
  pose proof (@quoted_strike_known s k (quote_side ty) price Hq Hget) as Hk.
  pose proof (@book_with_keys_known bk uid k Hbk Hk) as Hw.
  split; [exact Hw|].
  split; repeat (apply dict_set_book_keys; try assumption).
Qed.

Lemma execute_trade_users_keys (s : t) (uid : string) (k : Q) (q : Z)
      (ty : TradeType) (e : env) :
  dict_keys (users (snd (execute_trade s uid k q ty e))) = dict_keys (users s).
Proof.
  destruct (execute_trade_outcome s uid k q ty e)
    as [(m & -> & _)|[(ex & ->)|(u & bk & price & total & cmp &
                                  Hu & Hb & Hres & Hq & Hp & Hpos & ->)]];
    try reflexivity.
  set (tr := trade_of uid k q ty e price total cmp).
  destruct (apply_trade_eq s uid k ty total tr Hu Hb) as (Hus & _).
  assert (Happlied : dict_keys (users (apply_trade s uid k bk ty total tr))
                     = dict_keys (users s)).
  { rewrite Hus. eapply dict_set_keys_present. exact Hu. }
  cbv zeta. destruct (db_exception e) as [err|]; simpl; [|exact Happlied].
  rewrite (rollback_applied s uid k ty total tr Hu Hb). simpl.
  rewrite <- Happlied. eapply dict_set_keys_present.
  rewrite Hus. apply dict_get_set_same. exact String.eqb_refl.
Qed.

Lemma execute_trade_no_quotes (s : t) (uid : string) (k : Q) (q : Z)
      (ty : TradeType) (e : env) :
  current_option_prices s = None -> snd (execute_trade s uid k q ty e) = s.
Proof.
  intro H. unfold execute_trade. rewrite H.
  destruct (users_get s uid); [|reflexivity].
  destruct (market_resolved s); [reflexivity|].
  destruct (q <=? 0)%Z; reflexivity.
Qed.

Lemma execute_trade_fully_quoted (s : t) (uid : string) (k : Q) (q : Z)
      (ty : TradeType) (e : env) :
  fully_quoted s -> fully_quoted (snd (execute_trade s uid k q ty e)).
Proof.
  intro H. destruct (current_option_prices s) as [table|] eqn:E.
  - unfold fully_quoted in *. rewrite execute_trade_quotes.
    destruct (TradingFacts.execute_trade_market s uid k q ty e) as (-> & _).
    rewrite E in *. exact H.
  - rewrite (@execute_trade_no_quotes s uid k q ty e E). exact H.
Qed.

Lemma settlement_nonneg_add_trade (p : Position.t) (tr : Trade.t) :
  settlement_nonneg p -> settlement_nonneg (Position.add_trade p tr).
Proof.
  unfold settlement_nonneg, Position.add_trade.
  destruct (Trade.trade_type tr); simpl; auto.
Qed.

Lemma execute_trade_in_order (s : t) (uid : string) (k : Q) (q : Z)
      (ty : TradeType) (e : env) :
  in_order s -> in_order (snd (execute_trade s uid k q ty e)).
Proof.
  intros (Hnd & Hub & Hl & Hc & Hq & Hsv & Hk & Hf).
  unfold in_order. rewrite execute_trade_users_keys.
  split; [exact Hnd|].
  split; [apply ResolutionFacts.execute_trade_users_have_books; exact Hub|].
  split; [apply execute_trade_ledger_ok; exact Hl|].
  split; [apply execute_trade_cash_nonneg; exact Hc|].
  split; [unfold quotes_fixed; rewrite execute_trade_quotes; exact Hq|].
  split; [|split; [apply execute_trade_keys_known; assumption
                  |apply execute_trade_fully_quoted; exact Hf]].
  apply execute_trade_every_position; [| |  |exact Hsv].
  - intros uid' k'. unfold settlement_nonneg. simpl. lra.
  - apply settlement_nonneg_add_trade.
  - intros p tr Hp. rewrite rollback_add_trade. exact Hp.
Qed.

(** ** A market update keeps the ledger in order *)

Lemma update_market_data_fully_quoted (np_exp : Q -> Q) (s : t) (df : list Q) :
  fully_quoted s -> fully_quoted (snd (update_market_data np_exp s df)).
Proof.
  intro H. unfold update_market_data.
  assert (Hkeep :
    fully_quoted
      {| users := users s;
         positions := positions s;
         current_market_data := Some df;
         current_option_prices := current_option_prices s;
         market_resolved := market_resolved s;
         final_market_price := final_market_price s |}).
  { unfold fully_quoted in *. simpl.
    destruct (current_option_prices s); [|exact H].
    split; [exact (proj1 H) | discriminate]. }
  destruct (iloc_last df) as [latest|]; [|exact Hkeep].
  destruct (quote_strikes _ _ _) as [qs|] eqn:E; [|exact Hkeep].
  apply quote_strikes_strikes in E.
  unfold fully_quoted. simpl. split; [exact E | discriminate].
Qed.

Lemma serve_in_order (np_exp : Q -> Q) (s : t) (r : request) :
  in_order s -> in_order (serve np_exp s r).
Proof.
  destruct r as [df|uid k q ty e]; simpl; [|apply execute_trade_in_order].
  intros (Hnd & Hub & Hl & Hc & Hq & Hsv & Hk & Hf).
  pose proof (@update_market_data_quotes_fixed np_exp s df Hq) as Hq'.
  pose proof (@update_market_data_fully_quoted np_exp s df Hf) as Hf'.
  destruct (update_market_data_frame np_exp s df) as (Eu & Ep & _).
  unfold in_order, users_have_books, ledger_ok, cash_nonneg, every_position,
    keys_known, users_get, positions_get in *.
  rewrite Eu, Ep. auto 10.
Qed.

(** ** Position derivability *)

Lemma serve_derivable (np_exp : Q -> Q) (s : t) (r : request) :
  every_position derivable s -> every_position derivable (serve np_exp s r).
Proof.
  destruct r as [df|uid k q ty e]; simpl.
  - destruct (update_market_data_frame np_exp s df) as (_ & Ep & _).
    unfold every_position. rewrite Ep. auto.
  - apply execute_trade_every_position.
    + intros uid0 k0. reflexivity.
    + intros p tr H. apply add_trade_fold. exact H.
    + intros p tr _. rewrite rollback_add_trade. reflexivity.
Qed.

(** The net quantity of every position is the fold of its trade list, in
    every state of a session of market updates and trade requests that
    starts from a ledger whose positions agree with their trade lists.
    Nothing else is asked of the first ledger: positions may be short or
    settled, balances negative, strikes unknown. *)
Theorem net_quantity_is_fold (np_exp : Q -> Q) (rs : list request) (s0 : t) :
  every_position derivable s0 ->
  every_position derivable (session np_exp rs s0)
  /\ forall uid b k p,
      positions_get (session np_exp rs s0) uid = Some b ->
      book_get b k = Some p ->
      Position.quantity p = fold_quantity (Position.trades p).
Proof.
  intro H0.
  assert (Hs : every_position derivable (session np_exp rs s0)).
  { unfold session. revert s0 H0.
    induction rs as [|r rs IH]; intros s0 H0; [exact H0|].
    simpl. apply IH. apply serve_derivable. exact H0. }
  split; [exact Hs|].
  intros uid b k p Hb Hp.
  assert (Hbk : book_every derivable b) by exact (dict_get_Forall _ _ _ Hs Hb).
  exact (dict_get_Forall _ _ _ Hbk Hp).
Qed.

Lemma net_quantity_is_fold_witness :
  every_position derivable Scenario.fresh
  /\ forall uid b k p,
      positions_get Scenario.after_trades uid = Some b ->
      book_get b k = Some p ->
      Position.quantity p = fold_quantity (Position.trades p).
Proof.
  assert (H : every_position derivable Scenario.fresh)
    by (repeat constructor).
  split; [exact H|].
  exact (proj2 (@net_quantity_is_fold Scenario.np_exp Scenario.buy_then_sell
                  Scenario.fresh H)).
Defined.

(** ** Resolution keeps the ledger in order *)

Lemma settle_book_every (P : Position.t -> Prop) (fp : Q) (items : book) :
  (forall p k, P p -> P (snd (Position.settle_position p fp k))) ->
  book_every P items ->
  forall cash, book_every P (fst (settle_book fp items cash)).
Proof.
  intros Hs H. induction H as [|[k p] items Hp H IH]; intro cash; simpl.
  - constructor.
  - destruct (negb _).
    + pose proof (Hs p k Hp) as Hp'.
      destruct (Position.settle_position p fp k) as [sv p'].
      specialize (IH (cash + sv)).
      destruct (settle_book fp items (cash + sv)) as [rest cash'].
      constructor; [exact Hp' | exact IH].
    + specialize (IH cash).
      destruct (settle_book fp items cash) as [rest cash'].
      constructor; [exact Hp | exact IH].
Qed.

Lemma settle_book_keys (fp : Q) (items : book) :
  forall cash, map fst (fst (settle_book fp items cash)) = map fst items.
Proof.
  induction items as [|[k p] items IH]; intro cash; simpl; [reflexivity|].
  destruct (negb _).
  - destruct (Position.settle_position p fp k) as [sv p'].
    specialize (IH (cash + sv)).
    destruct (settle_book fp items (cash + sv)) as [rest cash'].
    simpl in *. rewrite IH. reflexivity.
  - specialize (IH cash).
    destruct (settle_book fp items cash) as [rest cash'].
    simpl in *. rewrite IH. reflexivity.
Qed.

Lemma book_keys_known_map (b : book) :
  book_keys_known b <-> Forall known_strike (map fst b).
Proof. unfold book_keys_known. symmetry. apply Forall_map. Qed.

(** A position in order: its net quantity is not negative and agrees with
    its trades, and its settlement value is not negative. *)
Lemma settle_position_sound (p : Position.t) (fp k : Q) :
  position_ok p /\ settlement_nonneg p ->
  (position_ok (snd (Position.settle_position p fp k))
   /\ settlement_nonneg (snd (Position.settle_position p fp k)))
  /\ 0 <= fst (Position.settle_position p fp k).
Proof.
  intros ((Hf & Hq) & Hs). unfold Position.settle_position.
  destruct (negb _); cbn [fst snd].
  - repeat split; assumption.
  - assert (H : 0 <= inject_Z (Position.quantity p) * py_max (fp / 100 - k) 0).
    { apply Qmult_le_0_compat.
      - change 0 with (inject_Z 0). rewrite <- Zle_Qle. exact Hq.
      - destruct (py_max_spec (fp / 100 - k) 0) as [[H1 ->]|[H1 ->]]; lra. }
    repeat split; try assumption.
Qed.

Lemma settle_book_cash_ge (fp : Q) (items : book) :
  book_every (fun p => position_ok p /\ settlement_nonneg p) items ->
  forall cash, cash <= snd (settle_book fp items cash).
Proof.
  intro H. induction H as [|[k p] items Hp H IH]; intro cash; simpl; [lra|].
  destruct (negb _).
  - destruct (@settle_position_sound p fp k Hp) as (_ & Hsv).
    destruct (Position.settle_position p fp k) as [sv p'].
    specialize (IH (cash + sv)).
    destruct (settle_book fp items (cash + sv)) as [rest cash'].
    simpl in *. lra.
  - specialize (IH cash).
    destruct (settle_book fp items cash) as [rest cash'].
    simpl in *. exact IH.
Qed.

Lemma book_every_and (P Q' : Position.t -> Prop) (b : book) :
  book_every P b -> book_every Q' b -> book_every (fun p => P p /\ Q' p) b.
Proof.
  intros H1 H2. unfold book_every in *.
  rewrite Forall_forall in *. intros kp Hin. split; auto.
Qed.

Lemma book_every_impl (P Q' : Position.t -> Prop) (b : book) :
  (forall p, P p -> Q' p) -> book_every P b -> book_every Q' b.
Proof.
  intros H H1. unfold book_every in *.
  rewrite Forall_forall in *. intros kp Hin. auto.
Qed.

(** One pass of the outer loop of [resolve_market]. *)
Lemma settle_user_in_order (s : t) (fp : Q) (uid : string) (items : book)
      (user : User) :
  in_order s ->
  positions_get s uid = Some items ->
  users_get s uid = Some user ->
  in_order
    (set_users
       (set_positions s
          (dict_set String.eqb (positions s) uid
             (fst (settle_book fp items (current_cash user)))))
       (dict_set String.eqb (users s) uid
          (set_total_realized_pnl
             (set_current_cash user (snd (settle_book fp items (current_cash user))))
             (snd (settle_book fp items (current_cash user)) - starting_cash user)))).
Proof.
  intros (Hnd & Hub & Hl & Hc & Hq & Hsv & Hk & Hf) Hb Hu.
  assert (Hok : book_ok items) by exact (dict_get_Forall _ _ _ Hl Hb).
  assert (Hsn : book_every settlement_nonneg items)
    by exact (dict_get_Forall _ _ _ Hsv Hb).
  assert (Hkn : book_keys_known items) by exact (dict_get_Forall _ _ _ Hk Hb).
  assert (Hboth : book_every (fun p => position_ok p /\ settlement_nonneg p) items)
    by (apply book_every_and; assumption).
  assert (Hboth' : book_every (fun p => position_ok p /\ settlement_nonneg p)
                     (fst (settle_book fp items (current_cash user)))).
  { apply settle_book_every; [|exact Hboth].
    intros p k Hp. exact (proj1 (@settle_position_sound p fp k Hp)). }
  unfold in_order.
  cbn [users positions current_market_data current_option_prices
       set_users set_positions].
  split; [apply dict_set_keys_NoDup; exact Hnd|].
  split.
  { intros uid' u'. unfold users_get, positions_get.
    cbn [users positions set_users set_positions].
    rewrite !dict_set_get_string.
    destruct (String.eqb uid uid'); [eauto|].
    apply Hub. }
  split.
  { unfold ledger_ok. cbn [positions set_users set_positions].
    apply dict_set_Forall; [exact Hl|].
    apply (@book_every_impl (fun p => position_ok p /\ settlement_nonneg p));
      [intros p Hp; exact (proj1 Hp) | exact Hboth']. }
  split.
  { unfold cash_nonneg. cbn [users set_users].
    apply dict_set_Forall; [exact Hc|].
    unfold solvent. cbn.
    pose proof (dict_get_Forall _ _ _ Hc Hu) as Hcash. unfold solvent in Hcash.
    pose proof (@settle_book_cash_ge fp items Hboth (current_cash user)). lra. }
  split; [exact Hq|].
  split.
  { unfold every_position. cbn [positions set_users set_positions].
    apply dict_set_Forall; [exact Hsv|].
    apply (@book_every_impl (fun p => position_ok p /\ settlement_nonneg p));
      [intros p Hp; exact (proj2 Hp) | exact Hboth']. }
  split.
  { unfold keys_known. cbn [positions set_users set_positions].
    apply dict_set_Forall; [exact Hk|].
    apply book_keys_known_map. rewrite settle_book_keys.
    apply book_keys_known_map. exact Hkn. }
  unfold fully_quoted in *.
  cbn [positions current_market_data current_option_prices
       set_users set_positions].
  destruct (current_option_prices s); [exact Hf|].
  unfold every_position in *. cbn [positions set_users set_positions].
  apply dict_set_Forall; [exact Hf|].
  apply settle_book_every; [intros p k []|].
  exact (dict_get_Forall _ _ _ Hf Hb).
Qed.

Lemma resolve_users_in_order (fp : Q) (uids : list string) :
  forall s, in_order s -> in_order (snd (resolve_users fp uids s)).
Proof.
  induction uids as [|uid uids IH]; intros s H; [exact H|].
  simpl.
  destruct (positions_get s uid) as [items|] eqn:Hb; [|exact H].
  destruct (users_get s uid) as [user|] eqn:Hu; [|exact H].
  pose proof (@settle_user_in_order s fp uid items user H Hb Hu) as H1.
  destruct (settle_book fp items (current_cash user)) as [items' cash].
  apply IH. exact H1.
Qed.

Lemma resolve_market_in_order (s : t) (fp : Q) :
  in_order s -> in_order (snd (resolve_market s fp)).
Proof.
  intro H. unfold resolve_market. apply resolve_users_in_order. exact H.
Qed.

(** ** The accounts *)

Lemma empty_in_order : in_order empty.
Proof.
  unfold in_order, empty, users_have_books, ledger_ok, cash_nonneg,
    quotes_fixed, every_position, keys_known, fully_quoted, users_get. simpl.
  repeat split; try constructor. intros uid u. discriminate.
Qed.

Lemma clear_database_in_order (s : t) :
  in_order s -> in_order (clear_database s).
Proof.
  intros (_ & _ & _ & _ & Hq & _ & _ & Hf).
  unfold in_order, clear_database, users_have_books, ledger_ok, cash_nonneg,
    every_position, keys_known, users_get. simpl.
  split; [constructor|]. split; [intros uid u; discriminate|].
  repeat (split; [constructor|]). split; [exact Hq|].
  repeat (split; [constructor|]).
  unfold fully_quoted in *. simpl.
  destruct (current_option_prices s); [exact Hf | constructor].
Qed.

Lemma create_user_in_order (s : t) (username : string) (starting_cash : Q)
      (db : stored_user) (uuid : string) :
  0 <= starting_cash ->
  in_order s ->
  in_order (snd (create_user s username starting_cash None db uuid)).
Proof.
  intros Hcash (Hnd & Hub & Hl & Hc & Hq & Hsv & Hk & Hf).
  unfold create_user, in_order.
  cbn [snd users positions current_market_data current_option_prices
       set_users set_positions].
  split; [apply dict_set_keys_NoDup; exact Hnd|].
  split.
  { intros uid' u'. unfold users_get, positions_get.
    cbn [users positions set_users set_positions].
    rewrite !dict_set_get_string.
    destruct (String.eqb uuid uid'); [eauto|]. apply Hub. }
  split.
  { unfold ledger_ok. cbn [positions set_users set_positions].
    apply dict_set_Forall; [exact Hl | constructor]. }
  split.
  { unfold cash_nonneg. cbn [users set_users].
    apply dict_set_Forall; [exact Hc | exact Hcash]. }
  split; [exact Hq|].
  split.
  { unfold every_position. cbn [positions set_users set_positions].
    apply dict_set_Forall; [exact Hsv | constructor]. }
  split.
  { unfold keys_known. cbn [positions set_users set_positions].
    apply dict_set_Forall; [exact Hk | constructor]. }
  unfold fully_quoted in *.
  cbn [positions current_market_data current_option_prices
       set_users set_positions].
  destruct (current_option_prices s); [exact Hf|].
  unfold every_position in *. cbn [positions set_users set_positions].
  apply dict_set_Forall; [exact Hf | constructor].
Qed.

Lemma api_step_in_order (np_exp : Q -> Q) (s : t) (c : api_call) :
  opens_new_accounts c -> in_order s -> in_order (api_step np_exp s c).
Proof.
  destruct c as [username cash existing db uuid|uid db| |r|fp]; simpl.
  - intros (-> & Hcash). apply create_user_in_order. exact Hcash.
  - intros [].
  - intros _. apply clear_database_in_order.
  - intros _. apply serve_in_order.
  - intros _. apply resolve_market_in_order.
Qed.

Lemma api_run_in_order (np_exp : Q -> Q) (calls : list api_call) :
  Forall opens_new_accounts calls ->
  forall s, in_order s -> in_order (api_run np_exp calls s).
Proof.
  intro H. unfold api_run.
  induction H as [|c calls Hc H IH]; intros s Hs; [exact Hs|].
  simpl. apply IH. apply api_step_in_order; assumption.
Qed.

(** From an empty database, a ledger that is only used through
    [create_user] (for new user names, with a starting cash that is not
    negative), [update_market_data], [execute_trade], [resolve_market] and
    [clear_database] is in order after every call, whatever the calls, their
    arguments and the failures of the database writes: no user id occurs
    twice, every user has a book, every net quantity is the fold of the
    position's trades and is not negative, no balance and no settlement
    value is negative, positions exist at the fixed strikes only, and all
    of these are quoted as soon as there is a position. *)
Theorem api_keeps_ledger_in_order (np_exp : Q -> Q) (calls : list api_call) :
  Forall opens_new_accounts calls ->
  in_order (api_run np_exp calls empty).
Proof.
  intro H. apply api_run_in_order; [exact H|]. apply empty_in_order.
Qed.

Lemma api_keeps_ledger_in_order_witness :
  Forall opens_new_accounts
    [ CreateUser "Alice" 15000 None
        {| user_result := None; trades := [] |} "u-alice";
      Serve (UpdateMarket [45; 47; 60]);
      Serve (ExecuteTrade "u-alice" 0.5 10 BUY (Scenario.saved "t1" 1));
      ResolveMarket 65 ]
  /\ in_order
       (api_run Scenario.np_exp
          [ CreateUser "Alice" 15000 None
              {| user_result := None; trades := [] |} "u-alice";
            Serve (UpdateMarket [45; 47; 60]);
            Serve (ExecuteTrade "u-alice" 0.5 10 BUY (Scenario.saved "t1" 1));
            ResolveMarket 65 ]
          empty).
Proof.
  assert (H : Forall opens_new_accounts
                [ CreateUser "Alice" 15000 None
                    {| user_result := None; trades := [] |} "u-alice";
                  Serve (UpdateMarket [45; 47; 60]);
                  Serve (ExecuteTrade "u-alice" 0.5 10 BUY
                           (Scenario.saved "t1" 1));
                  ResolveMarket 65 ]).
  { repeat constructor. simpl. lra. }
  split; [exact H|].
  exact (@api_keeps_ledger_in_order Scenario.np_exp _ H).
Defined.

(** ** The snapshot of a portfolio *)





(** ** Whatever the database holds *)

Lemma booked_set (s : t) (uid : string) (u : User) (b : book) :
  NoDup (dict_keys (users s)) /\ users_have_books s ->
  NoDup (dict_keys (users
           (set_positions (set_users s (dict_set String.eqb (users s) uid u))
              (dict_set String.eqb (positions s) uid b))))
  /\ users_have_books
       (set_positions (set_users s (dict_set String.eqb (users s) uid u))
          (dict_set String.eqb (positions s) uid b)).
Proof.
  intros (Hnd & Hub). cbn [users set_users set_positions].
  split; [apply dict_set_keys_NoDup; exact Hnd|].
  intros uid' u'. unfold users_get, positions_get.
  cbn [users positions set_users set_positions].
  rewrite !dict_set_get_string.
  destruct (String.eqb uid uid'); [eauto|]. apply Hub.
Qed.

Lemma load_user_booked (s : t) (uid : string) (db : stored_user) :
  NoDup (dict_keys (users s)) /\ users_have_books s ->
  NoDup (dict_keys (users (snd (load_user_from_db s uid db))))
  /\ users_have_books (snd (load_user_from_db s uid db)).
Proof.
  intro H. unfold load_user_from_db.
  destruct (user_result db) as [r|]; [|exact H].
  exact (@booked_set s uid (user_of_row r)
           (fold_left (replay_trade uid) (trades db) []) H).
Qed.

Lemma resolve_users_booked (fp : Q) (uids : list string) :
  forall s,
    NoDup (dict_keys (users s)) /\ users_have_books s ->
    NoDup (dict_keys (users (snd (resolve_users fp uids s))))
    /\ users_have_books (snd (resolve_users fp uids s)).
Proof.
  induction uids as [|uid uids IH]; intros s H; [exact H|].
  simpl.
  destruct (positions_get s uid) as [items|]; [|exact H].
  destruct (users_get s uid) as [user|]; [|exact H].
  destruct (settle_book fp items (current_cash user)) as [items' cash].
  apply IH.
  exact (@booked_set s uid
           (set_total_realized_pnl (set_current_cash user cash)
              (cash - starting_cash user)) items' H).
Qed.

Lemma api_step_booked (np_exp : Q -> Q) (s : t) (c : api_call) :
  NoDup (dict_keys (users s)) /\ users_have_books s ->
  NoDup (dict_keys (users (api_step np_exp s c)))
  /\ users_have_books (api_step np_exp s c).
Proof.
  intro H. destruct c as [username cash existing db uuid|uid db| |r|fp]; simpl.
  - unfold create_user. destruct existing as [row|].
    + destruct (negb _); [apply load_user_booked; exact H | exact H].
    + exact (@booked_set s uuid
               {| username := username; starting_cash := cash;
                  current_cash := cash; total_realized_pnl := 0 |} [] H).
  - apply load_user_booked. exact H.
  - unfold clear_database, users_have_books, users_get. simpl.
    split; [constructor | intros uid u; discriminate].
  - destruct r as [df|uid k q ty e]; simpl.
    + destruct (update_market_data_frame np_exp s df) as (Eu & Ep & _).
      unfold users_have_books, users_get, positions_get in *.
      rewrite Eu, Ep. exact H.
    + rewrite execute_trade_users_keys.
      split; [exact (proj1 H)|].
      apply ResolutionFacts.execute_trade_users_have_books. exact (proj2 H).
  - unfold resolve_market. apply resolve_users_booked. exact H.
Qed.

(** Whatever the database holds when the ledger is made, and whatever is
    called on the ledger afterwards (accounts created or loaded, the
    database cleared, market updates, trades, resolutions), no user id
    occurs twice in [self.users], every user has a book in
    [self.positions], and so [resolve_market] returns: its loops find the
    book of every user. *)
Theorem ledger_keeps_a_book_per_user (np_exp : Q -> Q)
        (stored : list (string * stored_user)) (calls : list api_call)
        (fp : Q) :
  NoDup (dict_keys (users (api_run np_exp calls (init stored))))
  /\ users_have_books (api_run np_exp calls (init stored))
  /\ fst (resolve_market (api_run np_exp calls (init stored)) fp) = Return tt.
Proof.
  assert (Hinit : NoDup (dict_keys (users (init stored)))
                  /\ users_have_books (init stored)).
  { unfold init, load_all_users_from_db.
    assert (H0 : NoDup (dict_keys (users empty)) /\ users_have_books empty).
    { split; [constructor | intros uid u; discriminate]. }
    revert H0. generalize empty.
    induction stored as [|[uid db] stored IH]; intros s H; [exact H|].
    simpl. apply IH. apply load_user_booked. exact H. }
  assert (H : NoDup (dict_keys (users (api_run np_exp calls (init stored))))
              /\ users_have_books (api_run np_exp calls (init stored))).
  { unfold api_run. revert Hinit. generalize (init stored).
    induction calls as [|c calls IH]; intros s H; [exact H|].
    simpl. apply IH. apply api_step_booked. exact H. }
  destruct H as (Hnd & Hub). split; [exact Hnd|]. split; [exact Hub|].
  unfold resolve_market. apply ResolutionFacts.resolve_users_returns.
  intros uid Hin. apply keys_users_get in Hin. destruct Hin as (u & Hu).
  split; [exists u; exact Hu | exact (Hub uid u Hu)].
Qed.

(** ** Opening an account *)

(** [create_user] for a user name the database does not hold opens an
    account under the new id: the starting cash as balance, no realized
    P&L and an empty book.  It leaves every other user, the market data,
    the quotes and the resolution as they are.  For a user name the database
    holds, whose user is in memory, it changes nothing and returns the id
    of that user; the starting cash it was given is ignored. *)
Theorem create_user_opens_account (self : t) (username : string)
        (starting_cash : Q) (db : stored_user) (uuid : string)
        (row : user_row) (other : string) :
  other <> uuid ->
  (fst (create_user self username starting_cash None db uuid) = uuid
   /\ users_get (snd (create_user self username starting_cash None db uuid)) uuid
      = Some {| username := username;
                starting_cash := starting_cash;
                current_cash := starting_cash;
                total_realized_pnl := 0 |}
   /\ positions_get (snd (create_user self username starting_cash None db uuid))
        uuid = Some []
   /\ users_get (snd (create_user self username starting_cash None db uuid)) other
      = users_get self other
   /\ positions_get (snd (create_user self username starting_cash None db uuid))
        other = positions_get self other
   /\ current_option_prices
        (snd (create_user self username starting_cash None db uuid))
      = current_option_prices self
   /\ market_resolved
        (snd (create_user self username starting_cash None db uuid))
      = market_resolved self)
  /\ (dict_mem String.eqb (users self) (row_user_id row) = true ->
      create_user self username starting_cash (Some row) db uuid
      = (row_user_id row, self)).
Proof.
  intro Hne. split.
  - unfold create_user, users_get, positions_get.
    cbn [fst snd users positions set_users set_positions
         current_option_prices market_resolved].
    rewrite !dict_set_get_string, String.eqb_refl.
    replace (String.eqb uuid other) with false
      by (symmetry; apply String.eqb_neq; congruence).
    auto 10.
  - intro Hm. unfold create_user. rewrite Hm. reflexivity.
Qed.

Lemma create_user_opens_account_witness :
  "u-bob"%string <> "u-alice"%string
  /\ users_get
       (snd (create_user empty "Alice" 15000 None
               {| user_result := None; trades := [] |} "u-alice")) "u-alice"
     = Some Scenario.alice
  /\ snd (create_user empty "Alice" 15000 None
            {| user_result := None; trades := [] |} "u-alice")
     = Scenario.fresh.
Proof.
  assert (H : "u-bob"%string <> "u-alice"%string) by discriminate.
  split; [exact H|]. split; [|reflexivity].
  exact (proj1 (proj2 (proj1
    (@create_user_opens_account empty "Alice" 15000
       {| user_result := None; trades := [] |} "u-alice"
       {| row_user_id := "u-alice"; row_username := "Alice";
          row_starting_cash := 15000; row_current_cash := 15000;
          row_total_realized_pnl := 0 |} "u-bob" H)))).
Defined.
End ApiFacts.

(* ================================================================== *)
(** * Facts about the feed from the simulator to the ledger *)
(* ================================================================== *)

Module FeedFacts.
Import PyNum PyNumFacts PortfolioManager PortfolioIntegrator LedgerProps
       SimulatorProps FeedProps LedgerFacts Lqa.
Local Open Scope Q_scope.

Lemma known_strike_le (k : Q) : known_strike k -> k <= 0.8.
Proof.
  intros (k0 & Hin & <-). simpl in Hin.
  repeat (destruct Hin as [<-|Hin]; [unfold Qle; simpl; lia|]).
  destruct Hin.
Qed.

Lemma last_point_cons (dp : LiveMarketSimulator.data_point)
      (l : list LiveMarketSimulator.data_point) :
  last_point (dp :: l)
  = match last_point l with Some x => Some x | None => Some dp end.
Proof.
  unfold last_point. simpl.
  destruct (rev l) as [|x r] eqn:E; reflexivity.
Qed.

Lemma in_bounds_price (threshold : Z) (dp : LiveMarketSimulator.data_point) :
  in_bounds threshold dp ->
  1 <= LiveMarketSimulator.price dp <= 99.
Proof. unfold in_bounds. destruct (_ <? _)%Z; lra. Qed.

Section Fed.
Variable np_exp : Q -> Q.

Lemma on_price_update_fed (self : PortfolioIntegrator.t)
      (dp : LiveMarketSimulator.data_point) :
  1 <= LiveMarketSimulator.price dp <= 99 ->
  fed (Some dp) (portfolio_manager (on_price_update np_exp self dp))
  /\ update_count (on_price_update np_exp self dp) = (update_count self + 1)%Z
  /\ simulator (on_price_update np_exp self dp) = simulator self.
Proof.
  intro Hp. unfold on_price_update, update_market_data.
  cbn [iloc_last rev app].
  destruct (QuoteFacts.quote_strikes_one_row np_exp
              (LiveMarketSimulator.price dp / 100) strikes)
    as (qs & -> & Hks & Hq).
  cbn. split; [|auto]. split; [exact Hp|]. split; [reflexivity|].
  exists qs. auto.
Qed.

Lemma handle_fed (self : PortfolioIntegrator.t) (ev : event)
      (last : option LiveMarketSimulator.data_point) :
  seeded (simulator self) ->
  fed last (portfolio_manager self) ->
  seeded (simulator (snd (handle np_exp self ev)))
  /\ fed (match fst (handle np_exp self ev) with Some dp => Some dp | None => last end)
         (portfolio_manager (snd (handle np_exp self ev)))
  /\ update_count (snd (handle np_exp self ev))
     = (update_count self
        + match fst (handle np_exp self ev) with Some _ => 1 | None => 0 end)%Z.
Proof.
  intros Hs Hf. destruct ev as [c|uid k q ty e]; cbn [handle].
  - destruct (SimulatorFacts.perform_spec c Hs) as (Hs' & _ & Hb).
    destruct (LiveMarketSimulator.perform (simulator self) c) as [[dp|] sim];
      cbn [fst snd] in *.
    + apply in_bounds_price in Hb.
      destruct (@on_price_update_fed
                  {| simulator := sim;
                     portfolio_manager := portfolio_manager self;
                     update_count := update_count self |} dp Hb)
        as (H1 & H2 & H3).
      rewrite H3. auto.
    + cbn. split; [exact Hs'|]. split; [exact Hf | lia].
  - cbn. split; [exact Hs|]. split; [|lia].
    destruct last as [dp|]; [|exact I].
    destruct Hf as (Hp & Hmd & qs & Hqs & Hrest).
    split; [exact Hp|].
    destruct (TradingFacts.execute_trade_market (portfolio_manager self)
                uid k q ty e) as (-> & _).
    rewrite execute_trade_quotes.
    split; [exact Hmd|]. exists qs. auto.
Qed.

Lemma feed_fed (events : list event) :
  forall self last,
    seeded (simulator self) ->
    fed last (portfolio_manager self) ->
    fed (match last_point (fst (feed np_exp events self)) with
         | Some dp => Some dp
         | None => last
         end)
        (portfolio_manager (snd (feed np_exp events self)))
    /\ update_count (snd (feed np_exp events self))
       = (update_count self
          + Z.of_nat (List.length (fst (feed np_exp events self))))%Z.
Proof.
  induction events as [|ev events IH]; intros self last Hs Hf.
  - cbn. split; [exact Hf | lia].
  - cbn [feed].
    destruct (@handle_fed self ev last Hs Hf) as (Hs' & Hf' & Hc).
    destruct (handle np_exp self ev) as [o self']. cbn [fst snd] in *.
    specialize (IH self' _ Hs' Hf').
    destruct (feed np_exp events self') as [emitted final]. cbn [fst snd] in *.
    destruct IH as (IH1 & IH2). rewrite IH2, Hc.
    destruct o as [dp|].
    + rewrite last_point_cons. cbn [List.length].
      split; [|lia].
      destruct (last_point emitted); exact IH1.
    + split; [exact IH1 | lia].
Qed.
End Fed.

Lemma run_seeded (calls : list LiveMarketSimulator.call)
      (s : LiveMarketSimulator.t) :
  seeded s -> seeded (snd (LiveMarketSimulator.run calls s)).
Proof.
  apply (@SimulatorRunFacts.run_invariant seeded).
  intros s1 c H. exact (proj1 (SimulatorFacts.perform_spec c H)).
Qed.

(** The feed.  Once a [PortfolioIntegrator] is put between a simulator and
    a ledger (on a new simulator, or on one that has been started and has
    run for a while, as the API does), whatever is called on the simulator,
    whatever its thread does and whatever trades are made in between: the
    integrator has counted one update for every point emitted since; the
    price of the last of these points is between 1 and 99; the ledger's
    market data is that price; and every fixed strike is quoted on every
    side as [update_market_data] computes it from that price (with
    [yes = price / 100]: bid [yes * (1 - strike) * 1], ask
    [(1 - (1 - yes)) * (1 - strike) * 1], mid their mean), which is
    positive. *)
Theorem feed_keeps_ledger_quoted (np_exp : Q -> Q) (n : Z)
        (ip vol tp ts mm : Q) (res : bool) (clock : Z)
        (before : list LiveMarketSimulator.call)
        (pm0 : PortfolioManager.t) (events : list event) (k : Q) (sd : side)
        (dp : LiveMarketSimulator.data_point) :
  known_strike k ->
  last_point
    (fst (feed np_exp events
            (init (snd (LiveMarketSimulator.run before
                          (LiveMarketSimulator.init n ip vol tp ts mm res clock)))
                  pm0)))
  = Some dp ->
  update_count
    (snd (feed np_exp events
            (init (snd (LiveMarketSimulator.run before
                          (LiveMarketSimulator.init n ip vol tp ts mm res clock)))
                  pm0)))
  = Z.of_nat
      (List.length
         (fst (feed np_exp events
                 (init (snd (LiveMarketSimulator.run before
                               (LiveMarketSimulator.init n ip vol tp ts mm res
                                  clock)))
                       pm0))))
  /\ 1 <= LiveMarketSimulator.price dp <= 99
  /\ current_market_data
       (portfolio_manager
          (snd (feed np_exp events
                  (init (snd (LiveMarketSimulator.run before
                                (LiveMarketSimulator.init n ip vol tp ts mm res
                                   clock)))
                        pm0))))
     = Some [LiveMarketSimulator.price dp]
  /\ exists k0,
      In k0 strikes /\ k0 == k
      /\ get_option_price
           (portfolio_manager
              (snd (feed np_exp events
                      (init (snd (LiveMarketSimulator.run before
                                    (LiveMarketSimulator.init n ip vol tp ts mm res
                                       clock)))
                            pm0)))) k sd
         = Return (one_row_quote (LiveMarketSimulator.price dp / 100) k0 sd)
      /\ 0 < one_row_quote (LiveMarketSimulator.price dp / 100) k0 sd.
Proof.
  intros Hk Hlast.
  set (self0 := init (snd (LiveMarketSimulator.run before
                             (LiveMarketSimulator.init n ip vol tp ts mm res
                                clock))) pm0).
  fold self0 in Hlast.
  assert (Hs : seeded (simulator self0)).
  { apply run_seeded. apply SimulatorFacts.init_seeded. }
  destruct (@feed_fed np_exp events self0 None Hs I) as (Hf & Hc).
  rewrite Hlast in Hf. destruct Hf as (Hp & Hmd & qs & Hqs & Hks & Hq).
  split; [rewrite Hc; cbn; lia|].
  split; [exact Hp|]. split; [exact Hmd|].
  unfold get_option_price. rewrite Hqs, Hmd.
  destruct Hk as (k0 & Hin & Hk0).
  assert (Hq' : Forall (fun r =>
                          In (strike r) strikes
                          /\ forall sd,
                              column sd r
                              = one_row_quote (LiveMarketSimulator.price dp / 100)
                                              (strike r) sd) qs).
  { rewrite Forall_forall in *. intros r Hr. split; [|exact (Hq r Hr)].
    rewrite <- Hks. apply in_map. exact Hr. }
  destruct (@QuoteFacts.table_lookup _ qs k Hq') as (r & rest & -> & (Hrin & Hcol) & Hr).
  { rewrite <- Hks in Hin. apply in_map_iff in Hin as (r & Hr & Hin).
    exists r. split; [exact Hin|]. rewrite Hr. exact Hk0. }
  assert (Hle : strike r <= 0.8).
  { apply known_strike_le. exists (strike r). split; [exact Hrin | reflexivity]. }
  exists (strike r). split; [exact Hrin|]. split; [exact Hr|].
  split; [cbn [iloc_first bind map]; rewrite <- Hcol; reflexivity|].
  apply QuoteFacts.one_row_quote_pos; [|lra].
  apply Qlt_shift_div_l; lra.
Qed.

Lemma feed_keeps_ledger_quoted_witness :
  known_strike 0.5
  /\ exists dp k0,
      last_point
        (fst (feed Scenario.np_exp
                [ Simulate (LiveMarketSimulator.Step SimScenario.quiet_draw) ]
                (init (snd (LiveMarketSimulator.run
                              [ LiveMarketSimulator.Start 1 "manual" ]
                              (LiveMarketSimulator.init 10 50 1.8 0.7 0.08 4
                                 true 0)))
                      Scenario.fresh))) = Some dp
      /\ get_option_price
           (portfolio_manager
              (snd (feed Scenario.np_exp
                      [ Simulate (LiveMarketSimulator.Step SimScenario.quiet_draw) ]
                      (init (snd (LiveMarketSimulator.run
                                    [ LiveMarketSimulator.Start 1 "manual" ]
                                    (LiveMarketSimulator.init 10 50 1.8 0.7 0.08
                                       4 true 0)))
                            Scenario.fresh)))) 0.5 Ask
         = Return (one_row_quote (LiveMarketSimulator.price dp / 100) k0 Ask)
      /\ 0 < one_row_quote (LiveMarketSimulator.price dp / 100) k0 Ask.
Proof.
  assert (H : known_strike 0.5).
  { exists 0.5. split; [simpl; auto 10 | reflexivity]. }
  split; [exact H|].
  eexists.
  assert (Hl : last_point
                 (fst (feed Scenario.np_exp
                         [ Simulate (LiveMarketSimulator.Step
                                       SimScenario.quiet_draw) ]
                         (init (snd (LiveMarketSimulator.run
                                       [ LiveMarketSimulator.Start 1 "manual" ]
                                       (LiveMarketSimulator.init 10 50 1.8 0.7
                                          0.08 4 true 0)))
                               Scenario.fresh)))
               = Some _)
    by (vm_compute; reflexivity).
  destruct (@feed_keeps_ledger_quoted Scenario.np_exp 10 50 1.8 0.7 0.08 4
              true 0 [ LiveMarketSimulator.Start 1 "manual" ]
              Scenario.fresh _ 0.5 Ask _ H Hl)
    as (_ & _ & _ & k0 & _ & _ & Hv & Hpos).
  exists k0. split; [exact Hl|]. split; [exact Hv | exact Hpos].
Defined.
End FeedFacts.

(* ================================================================== *)
(** * Facts about the snapshot of an open portfolio *)
(* ================================================================== *)

Module SnapshotFacts.
Import PyNum PyNumFacts PortfolioManager LedgerProps ResolutionProps
       SnapshotProps LedgerFacts Lqa.
Local Open Scope Q_scope.

(** The loop of the snapshot over a book of OPEN positions: the entries it
    adds, and its two running totals, each the left fold of [+] over the
    new entries, in the order of the book. *)
Lemma summarize_open (s : t) (items : book) :
  all_open items ->
  forall acc tu tv acc' tu' tv',
    summarize s items acc tu tv = Return (acc', tu', tv') ->
    exists new,
      acc' = acc ++ new
      /\ Forall (open_entry s) new
      /\ map (fun e => (ps_strike e, ps_quantity e)) new
         = map (fun kp => (fst kp, Position.quantity (snd kp))) (listed items)
      /\ tu' = fold_left Qplus (map ps_unrealized_pnl new) tu
      /\ tv' = fold_left Qplus (map ps_position_value new) tv.
Proof.
  intro Hopen. induction Hopen as [|[k p] items Hp Hopen IH];
    intros acc tu tv acc' tu' tv' H; simpl in H.
  - injection H as <- <- <-. exists []. rewrite app_nil_r.
    split; [reflexivity|]. split; [constructor|]. split; [reflexivity|].
    split; reflexivity.
  - unfold listed. simpl.
    destruct (Position.quantity p =? 0)%Z eqn:Eq; simpl in H |- *.
    + exact (IH _ _ _ _ _ _ H).
    + unfold bind in H.
      destruct (get_option_price s k Mid) as [cp|ex] eqn:Eg; [|discriminate].
      apply IH in H. destruct H as (new & -> & Hnew & Hmap & Htu & Htv).
      simpl in Hp.
      assert (Hpnl : Position.calculate_unrealized_pnl p cp
                     = inject_Z (Position.quantity p) * cp
                       - Position.total_cost_basis p).
      { unfold Position.calculate_unrealized_pnl. rewrite Hp. reflexivity. }
      assert (Havg : Position.get_average_cost_per_contract p
                     = Position.total_cost_basis p
                       / inject_Z (Z.abs (Position.quantity p))).
      { unfold Position.get_average_cost_per_contract. rewrite Eq. reflexivity. }
      rewrite Hpnl, Havg in *.
      eexists (_ :: new). rewrite <- app_assoc. simpl.
      split; [reflexivity|].
      split; [constructor; [repeat split; auto | exact Hnew]|].
      split; [simpl; f_equal; exact Hmap|].
      split; [exact Htu | exact Htv].
Qed.

(** Marking an open portfolio to market.  While the positions of a user
    are OPEN, the snapshot lists every position with a nonzero net quantity,
    each valued at net quantity times the current mid quote, with that value
    minus the cost basis as unrealized P&L and the cost basis per contract
    held as average cost.  The two totals are the running sums of the loop:
    the total position value adds up the values of the entries and the total
    unrealized P&L their unrealized P&Ls, both from 0 and in the order of
    the list.  The total P&L adds the realized P&L, the portfolio is worth
    the cash plus the positions, and the cash and the realized P&L are those
    of the user. *)
Theorem open_positions_marked_to_market (s : t) (uid : string) (b : book)
        (pf : portfolio) :
  positions_get s uid = Some b ->
  all_open b ->
  get_user_portfolio s uid = Return (Some pf) ->
  map (fun e => (ps_strike e, ps_quantity e)) (pf_positions pf)
  = map (fun kp => (fst kp, Position.quantity (snd kp))) (listed b)
  /\ Forall (open_entry s) (pf_positions pf)
  /\ pf_total_position_value pf
     = py_sum (map ps_position_value (pf_positions pf))
  /\ pf_total_unrealized_pnl pf
     = py_sum (map ps_unrealized_pnl (pf_positions pf))
  /\ pf_total_pnl pf = pf_total_unrealized_pnl pf + pf_total_realized_pnl pf
  /\ pf_total_portfolio_value pf = pf_cash pf + pf_total_position_value pf
  /\ users_get s uid = Some (pf_user_info pf)
  /\ pf_cash pf = current_cash (pf_user_info pf)
  /\ pf_total_realized_pnl pf = total_realized_pnl (pf_user_info pf).
Proof.
  intros Hb Hopen Hpf. unfold get_user_portfolio in Hpf.
  destruct (users_get s uid) as [u|] eqn:Hu; [|discriminate].
  rewrite Hb in Hpf. unfold bind in Hpf.
  destruct (summarize s b [] 0 0) as [[[acc tu] tv]|ex] eqn:Hsum; [|discriminate].
  injection Hpf as <-.
  destruct (@summarize_open s b Hopen _ _ _ _ _ _ Hsum)
    as (new & -> & Hnew & Hmap & Htu & Htv).
  cbn [app pf_positions pf_total_position_value pf_total_unrealized_pnl
       pf_total_pnl pf_total_realized_pnl pf_total_portfolio_value pf_cash
       pf_user_info].
  split; [exact Hmap|]. split; [exact Hnew|].
  split; [exact Htv|]. split; [exact Htu|].
  repeat split; reflexivity.
Qed.

Lemma open_positions_marked_to_market_witness :
  exists b pf,
    positions_get Scenario.after_trades "u-alice" = Some b
    /\ all_open b
    /\ get_user_portfolio Scenario.after_trades "u-alice" = Return (Some pf)
    /\ map (fun e => (ps_strike e, ps_quantity e)) (pf_positions pf)
       = [(0.5, 7%Z)]
    /\ pf_total_unrealized_pnl pf
       = py_sum (map ps_unrealized_pnl (pf_positions pf)).
Proof.
  let rb := eval vm_compute in (positions_get Scenario.after_trades "u-alice") in
  let rp := eval vm_compute in (get_user_portfolio Scenario.after_trades "u-alice") in
  match rb with
  | Some ?b =>
      match rp with
      | Return (Some ?pf) =>
          assert (Hb : positions_get Scenario.after_trades "u-alice" = Some b)
            by (vm_compute; reflexivity);
          assert (Hpf : get_user_portfolio Scenario.after_trades "u-alice"
                        = Return (Some pf))
            by (vm_compute; reflexivity);
          assert (Ho : all_open b) by (repeat constructor);
          exists b, pf;
          destruct (@open_positions_marked_to_market Scenario.after_trades
                      "u-alice" b pf Hb Ho Hpf) as (Hm & _ & _ & Hu & _)
      end
  end.
  split; [exact Hb|]. split; [exact Ho|]. split; [exact Hpf|].
  split; [exact Hm | exact Hu].
Defined.
End SnapshotFacts.
